(** * PDF Tarot Reader: the analyze / render pipeline

    A shallow embedding of the server-side pipeline of the PDF Tarot Reader
    ([server/src/services/readingGenerator.js], [keywordExtractor.js],
    [server/src/routes/analyze.js], [server/src/routes/render.js] and
    [api/render.js]) together with the properties its specification states
    about it.

    JavaScript strings are sequences of UTF-16 code units and are modelled as
    lists of integers; JavaScript numbers that the code only uses as 32-bit
    integers or as small exact integers are modelled in [Z], with the 32-bit
    wrap-around of the bit operators written out. *)

From Stdlib Require Import ZArith List Lia Bool String Ascii.
From Stdlib Require Import Permutation Sorted.
Import ListNotations.
Open Scope Z_scope.

(* ================================================================== *)
(** * JavaScript values used by the pipeline *)
(* ================================================================== *)

Module JS.

(** A string is the list of its UTF-16 code units ([charCodeAt]). *)
Definition jsstring : Type := list Z.

(** ASCII literals of the source. *)
Definition str (s : string) : jsstring :=
  map (fun a => Z.of_N (N_of_ascii a)) (list_ascii_of_string s).

(** The double quote, for literals that contain one. *)
Definition dq : jsstring := [34].

(** [s.length], of a string or of an array. *)
Definition length {A : Type} (s : list A) : Z := Z.of_nat (List.length s).

(** [s.slice(0, n)] for a non-negative integer [n]. *)
Definition slice0 (n : nat) (s : jsstring) : jsstring := firstn n s.

(** [a === b] on strings. *)
Fixpoint eqb (a b : jsstring) : bool :=
  match a, b with
  | [], [] => true
  | x :: a', y :: b' => (x =? y) && eqb a' b'
  | _, _ => false
  end.

(** [ToInt32]: the value modulo 2^32 taken in [-2^31, 2^31). *)
Definition ToInt32 (x : Z) : Z := (x + 2 ^ 31) mod 2 ^ 32 - 2 ^ 31.

(** [x << n] *)
Definition shl (x n : Z) : Z := ToInt32 (Z.shiftl (ToInt32 x) n).

(** [x & y] *)
Definition band (x y : Z) : Z := ToInt32 (Z.land (ToInt32 x) (ToInt32 y)).

(** [a % b] on integers: the sign follows the dividend. *)
Definition rem (a b : Z) : Z := Z.rem a b.

(** [array[index]]: [undefined] ([None]) outside the array. *)
Definition index {A : Type} (array : list A) (i : Z) : option A :=
  if i <? 0 then None else nth_error array (Z.to_nat i).

End JS.

Import JS.

(* ================================================================== *)
(** * The reading generator ([readingGenerator.js]) *)
(* ================================================================== *)

Record DeckCard : Type := mkDeckCard { dc_name : jsstring; dc_meaning : jsstring }.

Record AuraEntry : Type := mkAura { au_name : jsstring; au_description : jsstring }.

Record Card : Type := mkCard
  { position : jsstring; name : jsstring; meaning : jsstring }.

Record Reading : Type := mkReading
  { title : jsstring;
    keywords : list jsstring;
    category : jsstring;
    aura : jsstring;
    certification : jsstring;
    cards : list Card }.

Module Decks.

Definition past : list DeckCard :=
  [ mkDeckCard (str "The Procrastinator")
      (str "This document began its journey in the depths of someone's 'to-do later' pile. It has known neglect, yet persevered.");
    mkDeckCard (str "The Midnight Oil")
      (str "Born from late-night inspiration and questionable coffee decisions. This document carries the energy of deadlines past.");
    mkDeckCard (str "The Copy-Paste Sage")
      (str "Much wisdom here was borrowed from documents that came before. Standing on the shoulders of templates.");
    mkDeckCard (str "The Revision Maze")
      (str "This document has seen many versions, each one slightly different, none quite right. Version 17 remembers.");
    mkDeckCard (str "The Abandoned Draft")
      (str "Once begun with great enthusiasm, then forgotten for weeks. Its early paragraphs still echo with optimism.");
    mkDeckCard (str "The Meeting Minutes")
      (str "This document was birthed in a conference room. It carries the collective indecision of many voices.");
    mkDeckCard (str "The Inherited Legacy")
      (str "Someone else started this. The original author has moved on, leaving only cryptic comments behind.");
    mkDeckCard (str "The Scope Creeper")
      (str "What began as a simple task grew into something far more complex. Feature creep left its mark.") ].

Definition present : list DeckCard :=
  [ mkDeckCard (str "The Attention Seeker")
      (str "Right now, this document desperately wants to be read. It yearns for someone to actually make it to page 2.");
    mkDeckCard (str "The Hopeful Attachment")
      (str "Currently sitting in an inbox, waiting to be opened. It believes today could be the day.");
    mkDeckCard (str "The Polished Facade")
      (str "Presenting its best self with clean formatting and professional fonts. But we know the tracked changes it hides.");
    mkDeckCard (str "The Meeting Survivor")
      (str "This document has been projected onto screens and scrutinized by many. It seeks validation.");
    mkDeckCard (str "The Urgent Flag")
      (str "Marked as important! High priority! But is anyone actually reading it? The document wonders.");
    mkDeckCard (str "The Circling Approval")
      (str "Currently making rounds through the approval chain. Each signature brings it closer to its destiny.");
    mkDeckCard (str "The Open Tab")
      (str "Living in a browser tab among dozens of others. Occasionally glimpsed but never fully absorbed.");
    mkDeckCard (str "The Desktop Dweller")
      (str "Saved to the desktop for " ++ dq ++ str "quick access." ++ dq
         ++ str " Now buried under 47 other files with similar intentions.") ].

Definition future : list DeckCard :=
  [ mkDeckCard (str "The Forgotten Archive")
      (str "Beware! This document's destiny leads to a folder called 'Old Stuff' where it will languish for eternity.");
    mkDeckCard (str "The Scope Creep")
      (str "Warning: Additional requirements approach. This document will grow to twice its intended size.");
    mkDeckCard (str "The Reply All Catastrophe")
      (str "Danger ahead! This document may be accidentally sent to people who should never see it.");
    mkDeckCard (str "The Printer Nemesis")
      (str "A formatting disaster awaits. Margins will shift, fonts will change, and someone will say "
         ++ dq ++ str "it looked fine on my screen." ++ dq);
    mkDeckCard (str "The Endless Revision")
      (str "More feedback is coming. Version numbers will climb. The " ++ dq ++ str "final" ++ dq
         ++ str " version will spawn many children.");
    mkDeckCard (str "The Deadline Demon")
      (str "A hard deadline approaches. Corners will be cut. Sleep will be lost. The document will ship anyway.");
    mkDeckCard (str "The Silent Archive")
      (str "After much fanfare, this document will be filed away and never opened again. Such is the cycle.");
    mkDeckCard (str "The Rebirth")
      (str "This document will be repurposed. Its content will live on in presentations, emails, and other forms.") ].

Definition AURAS : list AuraEntry :=
  [ mkAura (str "Focus Goblin") (str "Highly concentrated content, dense with purpose");
    mkAura (str "Deadline Phantom") (str "Created under pressure, radiates urgency");
    mkAura (str "Meeting Magnet") (str "Will spawn many discussions and calendar invites");
    mkAura (str "Inbox Specter") (str "Destined to haunt email threads");
    mkAura (str "Revision Wraith") (str "Will undergo many transformations");
    mkAura (str "Approval Seeker") (str "Craves validation from stakeholders");
    mkAura (str "Scope Creeper") (str "Tends to expand beyond original boundaries");
    mkAura (str "Format Warrior") (str "Fights valiantly against inconsistent styling");
    mkAura (str "Archive Wanderer") (str "Seeks a final resting place in the file system");
    mkAura (str "Tab Haunter") (str "Will live in browser tabs indefinitely") ].

Definition CERTIFICATIONS : list jsstring :=
  [ str "Certified Chaotic Neutral";
    str "Professionally Procrastinated";
    str "Officially Overthought";
    str "Beautifully Bureaucratic";
    str "Delightfully Disorganized";
    str "Strategically Ambiguous";
    str "Carefully Cluttered";
    str "Magnificently Meandering";
    str "Perfectly Pending";
    str "Blissfully Bloated" ].

End Decks.

(** One turn of the loop of [hashCode]:
    [hash = ((hash << 5) - hash) + char; hash = hash & hash].
    The subtraction and the addition are number operations; their operands are
    below 2^32 in absolute value, so they are exact (see
    [hashCode_step_exact]). *)
Definition hashCode_step (hash char : Z) : Z :=
  let hash := (shl hash 5 - hash) + char in
  band hash hash.

(** [hashCode(str)] *)
Definition hashCode (s : jsstring) : Z :=
  Z.abs (fold_left hashCode_step s 0).

(** [(seed + offset) % array.length] *)
Definition seededIndex {A : Type} (array : list A) (seed offset : Z) : Z :=
  rem (seed + offset) (length array).

(** [selectSeeded(array, seed, offset)] *)
Definition selectSeeded {A : Type} (array : list A) (seed offset : Z) : option A :=
  index array (seededIndex array seed offset).

(** The seed of [generateReading]: [hashCode(text.slice(0, 500) + title)]. *)
Definition readingSeed (title text : jsstring) : Z :=
  hashCode (slice0 500 text ++ title).

(** [generateReading({ title, keywords, category, text })].  The result is
    [None] when a selection is [undefined]: reading [.name] of it throws (and
    an [undefined] certification is not a string of the response). *)
Definition generateReading
    (title : jsstring) (keywords : list jsstring) (category text : jsstring)
  : option Reading :=
  let seed := readingSeed title text in
  match selectSeeded Decks.past seed 0,
        selectSeeded Decks.present seed 1,
        selectSeeded Decks.future seed 2,
        selectSeeded Decks.AURAS seed 3,
        selectSeeded Decks.CERTIFICATIONS seed 4 with
  | Some pastCard, Some presentCard, Some futureCard, Some aura, Some certification =>
      Some (mkReading title keywords category (au_name aura) certification
              [ mkCard (str "past") (dc_name pastCard) (dc_meaning pastCard);
                mkCard (str "present") (dc_name presentCard) (dc_meaning presentCard);
                mkCard (str "future") (dc_name futureCard) (dc_meaning futureCard) ])
  | _, _, _, _, _ => None
  end.

(* ================================================================== *)
(** * The keyword extractor ([keywordExtractor.js]) *)
(* ================================================================== *)

Module Keywords.

Definition STOP_WORDS : list jsstring := map str
  [ "the"; "a"; "an"; "and"; "or"; "but"; "in"; "on"; "at"; "to"; "for"; "of";
    "with"; "by"; "from"; "as"; "is"; "was"; "are"; "were"; "been"; "be"; "have";
    "has"; "had"; "do"; "does"; "did"; "will"; "would"; "could"; "should"; "may";
    "might"; "must"; "shall"; "can"; "need"; "dare"; "ought"; "used"; "this";
    "that"; "these"; "those"; "it"; "its"; "they"; "them"; "their"; "we"; "us";
    "our"; "you"; "your"; "i"; "me"; "my"; "he"; "him"; "his"; "she"; "her";
    "which"; "who"; "whom"; "what"; "where"; "when"; "why"; "how"; "all"; "each";
    "every"; "both"; "few"; "more"; "most"; "other"; "some"; "such"; "no"; "not";
    "only"; "same"; "so"; "than"; "too"; "very"; "just"; "also"; "now"; "here";
    "there"; "then"; "once"; "page"; "document"; "file"; "version"; "date"; "new";
    "one"; "two"; "three"; "first"; "last"; "next"; "any"; "many"; "much"; "own" ]%string.

(** [set.has(word)] for a set of strings. *)
Definition has (set : list jsstring) (word : jsstring) : bool :=
  existsb (eqb word) set.

(** The class [\s] of a regular expression: white space and line
    terminators. *)
Definition isWhiteSpace (c : Z) : bool :=
  ((9 <=? c) && (c <=? 13)) || (c =? 32) || (c =? 160) || (c =? 5760)
  || ((8192 <=? c) && (c <=? 8202)) || (c =? 8232) || (c =? 8233)
  || (c =? 8239) || (c =? 8287) || (c =? 12288) || (c =? 65279).

(** The class [[a-z0-9]]. *)
Definition isLowerAlnum (c : Z) : bool :=
  ((97 <=? c) && (c <=? 122)) || ((48 <=? c) && (c <=? 57)).

(** [s.toLowerCase()], one code unit at a time.  The letters A-Z go to a-z.
    Outside ASCII the Unicode tables send a code unit to code units outside
    ASCII, which are no white space, with two exceptions: the Kelvin sign
    (U+212A) goes to [k], and the dotted capital I (U+0130) to [i] followed
    by U+0307.  The model keeps every other code unit as it is: the callers
    only ask whether a lowered unit is in [[a-z0-9]], is white space, or
    equals an ASCII letter, and the answer is the same. *)
Definition lowerUnit (c : Z) : jsstring :=
  if (65 <=? c) && (c <=? 90) then [c + 32]
  else if c =? 8490 then [107]
  else if c =? 304 then [105; 775]
  else [c].

Definition toLowerCase (s : jsstring) : jsstring := flat_map lowerUnit s.

(** [s.replace(/[^a-z0-9\s]/g, ' ')] *)
Definition replaceNonAlnum (s : jsstring) : jsstring :=
  map (fun c => if isLowerAlnum c || isWhiteSpace c then c else 32) s.

(** [s.split(/\s+/)]: the pieces between maximal runs of white space; a
    run at either end leaves an empty piece there.  [inRun] tells that the
    previous code unit was white space. *)
Fixpoint splitWhite (s : jsstring) (inRun : bool) : list jsstring :=
  match s with
  | [] => [[]]
  | c :: rest =>
      if isWhiteSpace c then
        if inRun then splitWhite rest true else [] :: splitWhite rest true
      else
        match splitWhite rest false with
        | piece :: pieces => (c :: piece) :: pieces
        | [] => [[c]]
        end
  end.

(** The tokens of a text: the [words] of [extractKeywords]. *)
Definition tokenize (text : jsstring) : list jsstring :=
  filter (fun word => (3 <? length word) && negb (has STOP_WORDS word))
         (splitWhite (replaceNonAlnum (toLowerCase text)) false).

(** Values held by the [frequency] object: a number, or a string. *)
Inductive jsval : Type :=
| VNum (n : Z)
| VStr (s : jsstring).

(** A plain object as the list of its own properties in creation order. *)
Definition jsobject : Type := list (jsstring * jsval).

Fixpoint getOwn (o : jsobject) (key : jsstring) : option jsval :=
  match o with
  | [] => None
  | (k, v) :: o' => if eqb k key then Some v else getOwn o' key
  end.

(** [o[key] = v]: an own property keeps its place, a new one goes last. *)
Fixpoint setOwn (o : jsobject) (key : jsstring) (v : jsval) : jsobject :=
  match o with
  | [] => [(key, v)]
  | (k, w) :: o' => if eqb k key then (k, v) :: o' else (k, w) :: setOwn o' key v
  end.

(** The source text of the built-in function [Object]. *)
Definition nativeObjectSource : jsstring :=
  str "function Object() { [native code] }".

(** [(frequency[word] || 0) + 1].  A property that the object does not own
    is looked up in [Object.prototype]; among the tokens, which consist of
    [a-z0-9], only [constructor] names a property there, the function
    [Object], and adding 1 to it gives a string. *)
Definition bump (frequency : jsobject) (word : jsstring) : jsval :=
  match getOwn frequency word with
  | Some (VNum n) => if n =? 0 then VNum 1 else VNum (n + 1)
  | Some (VStr s) =>
      match s with [] => VNum 1 | _ => VStr (s ++ str "1") end
  | None =>
      if eqb word (str "constructor") then VStr (nativeObjectSource ++ str "1")
      else VNum 1
  end.

(** [for (const word of words) frequency[word] = (frequency[word] || 0) + 1] *)
Definition countWords (words : list jsstring) : jsobject :=
  fold_left (fun frequency word => setOwn frequency word (bump frequency word))
            words [].

Definition isDigit (c : Z) : bool := (48 <=? c) && (c <=? 57).

(** The value of a string of digits. *)
Definition digitsValue (s : jsstring) : Z :=
  fold_left (fun acc c => acc * 10 + (c - 48)) s 0.

(** A property key is an array index when it is the canonical decimal
    numeral of an integer in [0, 2^32 - 2]. *)
Definition arrayIndex (key : jsstring) : option Z :=
  match key with
  | [] => None
  | c :: rest =>
      if forallb isDigit key
         && implb (c =? 48) (match rest with [] => true | _ => false end)
         && (List.length key <=? 10)%nat
         && (digitsValue key <=? 2 ^ 32 - 2)
      then Some (digitsValue key) else None
  end.

(** Stable insertion sort under a comparator [cmp a b] that is positive when
    [a] goes after [b]. *)
Section Sort.
Context {A : Type} (cmp : A -> A -> Z).

Fixpoint insert (x : A) (l : list A) : list A :=
  match l with
  | [] => [x]
  | y :: l' => if 0 <? cmp x y then y :: insert x l' else x :: l
  end.

Definition sort (l : list A) : list A := fold_right insert [] l.
End Sort.

(** The order in which an object lists its own keys, from the order [keys]
    in which they were created: the array indices in ascending numeric
    order, then the other keys in creation order. *)
Definition keyOrder (keys : list jsstring) : list jsstring :=
  map snd
    (sort (fun a b => fst a - fst b)
       (flat_map (fun k => match arrayIndex k with
                           | Some i => [(i, k)]
                           | None => []
                           end) keys))
  ++ filter (fun k => match arrayIndex k with Some _ => false | None => true end) keys.

(** [Object.entries(o)]: each own key, in key order, with its value. *)
Definition entries (o : jsobject) : list (jsstring * jsval) :=
  flat_map (fun k => match getOwn o k with
                     | Some v => [(k, v)]
                     | None => []
                     end)
           (keyOrder (map fst o)).

(** The comparator [(a, b) => b[1] - a[1]] as [Array.prototype.sort] reads
    it: the difference of two numbers, and 0 where the difference is [NaN]
    (an operand is a string that is no numeral). *)
Definition byCount (a b : jsstring * jsval) : Z :=
  match snd a, snd b with
  | VNum x, VNum y => y - x
  | _, _ => 0
  end.

(** [extractKeywords(text, maxKeywords)] for a natural number
    [maxKeywords].  [Array.prototype.sort] is stable, so with a consistent
    comparator its result is that of any stable sort, here an insertion
    sort.  The comparator is not consistent only when [constructor] is a
    token of the text, whose count is then a string: the language leaves
    the order to the engine there, and the order of the model need not be
    that of a given engine.  The statements below that speak of the order
    of the keywords are about texts without that token; the others hold for
    every order. *)
Definition extractKeywords (text : jsstring) (maxKeywords : nat) : list jsstring :=
  let words := tokenize text in
  let frequency := countWords words in
  let sorted := map fst (firstn maxKeywords (sort byCount (entries frequency))) in
  sorted.

Definition defaultMaxKeywords : nat := 10.

Record Category : Type := mkCategory { cat_name : jsstring; cat_words : list jsstring }.

Definition categories : list Category :=
  [ mkCategory (str "technical")
      (map str ["code"; "software"; "system"; "data"; "api"; "function"; "error"; "debug"]%string);
    mkCategory (str "business")
      (map str ["revenue"; "sales"; "market"; "customer"; "strategy"; "growth"; "budget"]%string);
    mkCategory (str "legal")
      (map str ["agreement"; "contract"; "terms"; "party"; "clause"; "liability"; "law"]%string);
    mkCategory (str "academic")
      (map str ["research"; "study"; "analysis"; "hypothesis"; "methodology"; "results"]%string);
    mkCategory (str "creative")
      (map str ["design"; "concept"; "creative"; "brand"; "visual"; "story"; "content"]%string);
    mkCategory (str "administrative")
      (map str ["meeting"; "agenda"; "minutes"; "action"; "review"; "report"; "status"]%string) ].

Record Match : Type := mkMatch { m_name : jsstring; m_score : Z }.

(** [category.words.filter(w => keywordSet.has(w)).length] *)
Definition scoreOf (keywordSet : list jsstring) (category : Category) : Z :=
  length (filter (fun w => has keywordSet w) (cat_words category)).

(** One turn of the loop of [categorizeDocument]. *)
Definition categorize_step (keywordSet : list jsstring) (bestMatch : Match)
                           (category : Category) : Match :=
  let score := scoreOf keywordSet category in
  if m_score bestMatch <? score then mkMatch (cat_name category) score
  else bestMatch.

(** [categorizeDocument(keywords)] *)
Definition categorizeDocument (keywords : list jsstring) : jsstring :=
  let keywordSet := map toLowerCase keywords in
  m_name (fold_left (categorize_step keywordSet) categories
                    (mkMatch (str "general") 0)).

End Keywords.

(* ================================================================== *)
(** * The analyze route ([server/src/routes/analyze.js]) *)
(* ================================================================== *)

Module Analyze.

(** What [extractText(pdfBuffer)] gives for the uploaded bytes: it throws, or
    it returns the text (at most 3000 code units, trimmed) and the cleaned
    title.  The parser is the library [pdf-parse]. *)
Inductive Extraction : Type :=
| ExtractThrows
| Extracted (text title : jsstring).

Inductive Response : Type :=
| Status400 (message : jsstring)
| Status422 (message : jsstring)
| Status500 (message : jsstring)
| Json (reading : Reading).

(** [AnalysisResponseSchema.parse(reading)]: the fields are typed in the
    model; what is left to check is the enumeration of the positions and the
    number of cards. *)
Definition schemaAccepts (reading : Reading) : bool :=
  (List.length (cards reading) =? 3)%nat
  && forallb (fun c => Keywords.has (map str ["past"; "present"; "future"]%string)
                                    (position c))
             (cards reading).

(** [analyzeRoute(req, res)]; [file] is [None] when no file was uploaded. *)
Definition analyzeRoute (file : option Extraction) : Response :=
  match file with
  | None => Status400 (str "No PDF file provided")
  | Some ExtractThrows => Status422 (str "Failed to extract text from PDF")
  | Some (Extracted text title) =>
      if length text <? 10 then
        Status422 (str "Could not extract text from PDF. The document may be scanned or encrypted.")
      else
        let keywords := Keywords.extractKeywords text Keywords.defaultMaxKeywords in
        let category := Keywords.categorizeDocument keywords in
        match generateReading title keywords category text with
        | None => Status500 (str "Failed to analyze PDF")
        | Some reading =>
            if schemaAccepts reading then Json reading
            else Status500 (str "Internal validation error")
        end
  end.

End Analyze.

(* ================================================================== *)
(** * Cover page and merge ([api/render.js]) *)
(* ================================================================== *)

Module Render.

Inductive Color : Type :=
| background | primary | gold | white | muted
| pastColor | presentColor | futureColor
| cardFill.

Inductive Font : Type := HelveticaBold | Helvetica.

(** What a page holds.  Coordinates, which the source computes in floating
    point from the font metrics, and opacity are left out; the drawn texts,
    their sizes, fonts and colours and the order of the operations are
    kept.  [Uploaded] is the content of a page of an uploaded document. *)
Inductive DrawOp : Type :=
| Rectangle (color : option Color) (border : option (Color * Z))
| Text (text : jsstring) (size : Z) (font : Font) (color : Color)
| Uploaded (content : list Z).

Record Page : Type := mkPage
  { pg_width : Z; pg_height : Z; pg_ops : list DrawOp }.

(** A [PDFDocument] is the list of its pages. *)
Definition PDFDocument : Type := list Page.

(** A byte buffer is the serialisation of a document, or bytes that
    [PDFDocument.load] refuses even with [ignoreEncryption]. *)
Inductive PdfBuffer : Type :=
| Unloadable
| Saved (doc : PDFDocument).

(** A value other than [null] that [JSON.parse] returns for the analysis,
    by the fields that the render phase reads; [None] is a field that is
    missing (a number, a string, a boolean or an array has none of them).
    Fields that are present have the types of the response schema of the
    analyze phase. *)
Record Analysis : Type := mkAnalysis
  { an_title : option jsstring;
    an_aura : option jsstring;
    an_certification : option jsstring;
    an_cards : option (list Card) }.

(** The analysis object of a reading of the analyze phase. *)
Definition ofReading (r : Reading) : Analysis :=
  mkAnalysis (Some (title r)) (Some (aura r)) (Some (certification r))
             (Some (cards r)).

(** Truth value of an optional string: [undefined] and [''] are falsy. *)
Definition truthy (s : option jsstring) : bool :=
  match s with
  | None | Some [] => false
  | Some _ => true
  end.

(** [s || dflt] *)
Definition orElse (s : option jsstring) (dflt : jsstring) : jsstring :=
  match s with
  | None | Some [] => dflt
  | Some v => v
  end.

(** [s.slice(0, e)] *)
Definition slice (s : jsstring) (e : Z) : jsstring :=
  if e <? 0 then firstn (Z.to_nat (length s + e)) s
  else firstn (Z.to_nat e) s.

(** [truncateText(text, maxLength)] *)
Definition truncateText (text : jsstring) (maxLength : Z) : jsstring :=
  if length text <=? maxLength then text
  else slice text (maxLength - 3) ++ str "...".

(** [text.split(' ')]: the pieces between the spaces, empty ones included. *)
Fixpoint splitSpace (text : jsstring) : list jsstring :=
  match text with
  | [] => [[]]
  | c :: rest =>
      if c =? 32 then [] :: splitSpace rest
      else match splitSpace rest with
           | piece :: pieces => (c :: piece) :: pieces
           | [] => [[c]]
           end
  end.

(** [if (currentLine) lines.push(currentLine)] *)
Definition pushLine (lines : list jsstring) (currentLine : jsstring) : list jsstring :=
  match currentLine with
  | [] => lines
  | _ => lines ++ [currentLine]
  end.

(** One turn of the loop of [wrapText] on the state [(lines, currentLine)]. *)
Definition wrap_step (maxChars : Z) (st : list jsstring * jsstring) (word : jsstring)
  : list jsstring * jsstring :=
  let '(lines, currentLine) := st in
  if length currentLine + length word + 1 <=? maxChars then
    (lines, currentLine ++ (match currentLine with [] => [] | _ => str " " end) ++ word)
  else
    (pushLine lines currentLine, word).

(** [wrapText(text, maxChars)] *)
Definition wrapText (text : jsstring) (maxChars : Z) : list jsstring :=
  let words := splitSpace text in
  let '(lines, currentLine) := fold_left (wrap_step maxChars) words ([], []) in
  pushLine lines currentLine.

Definition positionColors : list Color := [pastColor; presentColor; futureColor].
Definition positionLabels : list jsstring := map str ["PAST"; "PRESENT"; "FUTURE"]%string.

(** Steps of the render phase that reach the PDF library or the log. *)
Inductive Event : Type :=
| LogProcessing
| LoadOriginal
| ComposeCover
| MergePages
| SaveMerged
| LogGenerated.

(** A computation that may throw and records its events. *)
Definition M (A : Type) : Type := (list Event * option A)%type.

Definition ret {A : Type} (a : A) : M A := ([], Some a).
Definition throw {A : Type} : M A := ([], None).
Definition emit (e : Event) : M unit := ([e], Some tt).
Definition lift {A : Type} (o : option A) : M A := ([], o).

Definition bind {A B : Type} (m : M A) (f : A -> M B) : M B :=
  match m with
  | (log, Some a) => let '(log', r) := f a in (log ++ log', r)
  | (log, None) => (log, None)
  end.

Definition obind {A B : Type} (o : option A) (f : A -> option B) : option B :=
  match o with
  | Some a => f a
  | None => None
  end.

Inductive Response : Type :=
| Status400 (message : jsstring)
| Status405 (message : jsstring)
| Status500 (message : jsstring)
| SendPdf (body : PdfBuffer).

(** The analysis field of the form: absent; present and empty; a string
    that is not empty and that [JSON.parse] refuses; a string that parses to
    [null]; a string that parses to another value. *)
Inductive AnalysisField : Type :=
| NoAnalysis
| EmptyAnalysis
| InvalidJson
| ParsedNull
| Parsed (analysis : Analysis).

Record Request : Type := mkRequest
  { req_post : bool;
    req_file : option PdfBuffer;
    req_analysis : AnalysisField }.

Section PdfLib.

(** The standard fonts of [pdf-lib] refuse text that they cannot encode:
    [widthOfTextAtSize] and [drawText] throw.  Which texts they accept is
    the library's matter. *)
Variable measurable : jsstring -> bool.
Variable drawable : jsstring -> bool.

Notation "x <- m ;; k" := (obind m (fun x => k))
  (at level 61, m at next level, right associativity).

(** [font.widthOfTextAtSize(text, size)]; the width itself is not kept. *)
Definition widthOfTextAtSize (text : jsstring) : option unit :=
  if measurable text then Some tt else None.

(** [page.drawRectangle({ color, borderColor, borderWidth, ... })];
    [border] is the border colour with the border width. *)
Definition drawRectangle (page : Page) (color : option Color)
                         (border : option (Color * Z)) : Page :=
  mkPage (pg_width page) (pg_height page)
         (pg_ops page ++ [Rectangle color border]).

(** [page.drawText(text, { size, font, color, ... })] *)
Definition drawText (page : Page) (text : jsstring) (size : Z) (font : Font)
                    (color : Color) : option Page :=
  if drawable text then
    Some (mkPage (pg_width page) (pg_height page)
                 (pg_ops page ++ [Text text size font color]))
  else None.

(** The loop over the lines of a card's meaning. *)
Fixpoint drawLines (page : Page) (lines : list jsstring) : option Page :=
  match lines with
  | [] => Some page
  | line :: rest =>
      page <- drawText page line 8 Helvetica muted ;;
      drawLines page rest
  end.

(** The body of [for (let i = 0; i < 3; i++)] in [createCoverPage]. *)
Definition drawCard (analysis : Analysis) (page : Page) (i : nat) : option Page :=
  cards <- an_cards analysis ;;
  let card := nth_error cards i in
  color <- nth_error positionColors i ;;
  let page := drawRectangle page (Some cardFill) (Some (color, 2)) in
  labelText <- nth_error positionLabels i ;;
  _ <- widthOfTextAtSize labelText ;;
  page <- drawText page labelText 10 HelveticaBold color ;;
  card <- card ;;
  let cardName := truncateText (name card) 18 in
  _ <- widthOfTextAtSize cardName ;;
  page <- drawText page cardName 12 HelveticaBold white ;;
  let meaningLines := wrapText (meaning card) 22 in
  drawLines page (firstn 5 meaningLines).

(** [createCoverPage(analysis, pageWidth, pageHeight)] *)
Definition createCoverPage (analysis : Analysis) (pageWidth pageHeight : Z)
  : option PDFDocument :=
  let page := mkPage pageWidth pageHeight [] in
  let page := drawRectangle page (Some background) None in
  let titleText := str "PDF TAROT READING" in
  _ <- widthOfTextAtSize titleText ;;
  page <- drawText page titleText 28 HelveticaBold gold ;;
  let page := drawRectangle page (Some primary) None in
  let docTitle := truncateText (orElse (an_title analysis) (str "Untitled Document")) 50 in
  _ <- widthOfTextAtSize docTitle ;;
  page <- drawText page docTitle 14 Helvetica muted ;;
  page <- drawCard analysis page 0 ;;
  page <- drawCard analysis page 1 ;;
  page <- drawCard analysis page 2 ;;
  let auraText := str "AURA: " ++ match an_aura analysis with
                                  | Some a => a
                                  | None => str "undefined"
                                  end in
  _ <- widthOfTextAtSize auraText ;;
  let page := drawRectangle page (Some primary) (Some (gold, 1)) in
  page <- drawText page auraText 14 HelveticaBold white ;;
  let certText := orElse (an_certification analysis) (str "Certified Chaotic Neutral") in
  _ <- widthOfTextAtSize certText ;;
  let page := drawRectangle page None (Some (primary, 2)) in
  let page := drawRectangle page None (Some (primary, 3)) in
  page <- drawText page certText 12 HelveticaBold primary ;;
  let footerText := str "pdftarot.app" in
  _ <- widthOfTextAtSize footerText ;;
  page <- drawText page footerText 10 Helvetica muted ;;
  Some [page].

(** [PDFDocument.load(buffer, { ignoreEncryption: true })] *)
Definition load (buffer : PdfBuffer) : option PDFDocument :=
  match buffer with
  | Unloadable => None
  | Saved doc => Some doc
  end.

(** [doc.getPageIndices()] *)
Definition getPageIndices (doc : PDFDocument) : list nat :=
  seq 0 (List.length doc).

(** [target.copyPages(src, indices)]: throws on an index that [src] does
    not have. *)
Fixpoint copyPages (src : PDFDocument) (indices : list nat) : option (list Page) :=
  match indices with
  | [] => Some []
  | i :: rest =>
      p <- nth_error src i ;;
      ps <- copyPages src rest ;;
      Some (p :: ps)
  end.

(** [doc.addPage(page)] *)
Definition addPage (doc : PDFDocument) (page : Page) : PDFDocument :=
  doc ++ [page].

Notation "x <~ m ;; k" := (bind m (fun x => k))
  (at level 61, m at next level, right associativity).

(** [renderMergedPdf(originalPdfBuffer, analysis)] *)
Definition renderMergedPdf (originalPdfBuffer : PdfBuffer) (analysis : Analysis)
  : M PdfBuffer :=
  _ <~ emit LoadOriginal ;;
  originalPdf <~ lift (load originalPdfBuffer) ;;
  firstPage <~ lift (nth_error originalPdf 0) ;;
  let width := pg_width firstPage in
  let height := pg_height firstPage in
  _ <~ emit ComposeCover ;;
  coverPdf <~ lift (createCoverPage analysis width height) ;;
  _ <~ emit MergePages ;;
  let mergedPdf : PDFDocument := [] in
  coverPages <~ lift (copyPages coverPdf [0%nat]) ;;
  coverPage <~ lift (nth_error coverPages 0) ;;
  let mergedPdf := addPage mergedPdf coverPage in
  let pageIndices := getPageIndices originalPdf in
  copiedPages <~ lift (copyPages originalPdf pageIndices) ;;
  let mergedPdf := fold_left addPage copiedPages mergedPdf in
  _ <~ emit SaveMerged ;;
  ret (Saved mergedPdf).

(** The [try { ... } catch] of the handlers: an exception becomes a 500. *)
Definition catch500 (m : M Response) : list Event * Response :=
  match m with
  | (log, Some r) => (log, r)
  | (log, None) => (log, Status500 (str "Failed to render PDF"))
  end.

(** [handler(req, res)] of [api/render.js], on a form that [parseForm]
    has parsed and with an uploaded file that [readFileSync] can read.  The
    fields of the form are arrays: for an empty field
    [fields.analysis?.[0] || fields.analysis] is the array itself, which is
    truthy and which [JSON.parse] refuses.  Reading [analysis.cards] of
    [null] throws. *)
Definition handler (req : Request) : list Event * Response :=
  if negb (req_post req) then ([], Status405 (str "Method not allowed"))
  else catch500
    match req_file req with
    | None => ret (Status400 (str "No PDF file provided"))
    | Some pdfBuffer =>
        match req_analysis req with
        | NoAnalysis => ret (Status400 (str "No analysis data provided"))
        | EmptyAnalysis => ret (Status400 (str "Invalid analysis JSON"))
        | InvalidJson => ret (Status400 (str "Invalid analysis JSON"))
        | ParsedNull => throw
        | Parsed analysis =>
            if match an_cards analysis with
               | None => true
               | Some cards => negb (length cards =? 3)
               end
            then ret (Status400 (str "Invalid analysis: missing cards"))
            else if negb (truthy (an_aura analysis))
            then ret (Status400 (str "Invalid analysis: missing aura"))
            else
              _ <~ emit LogProcessing ;;
              mergedPdfBuffer <~ renderMergedPdf pdfBuffer analysis ;;
              _ <~ emit LogGenerated ;;
              ret (SendPdf mergedPdfBuffer)
        end
    end.

(** [renderRoute(req, res)] of [server/src/routes/render.js].  Its
    [renderMergedPdf] comes from [services/pdfRenderer.js] and is a
    parameter here.  [req.body.analysis] is a string: the empty one is
    falsy.  Reading [analysis.cards] of [null] throws. *)
Definition renderRoute (renderMergedPdf : PdfBuffer -> Analysis -> M PdfBuffer)
                       (req : Request) : list Event * Response :=
  catch500
    match req_file req with
    | None => ret (Status400 (str "No PDF file provided"))
    | Some pdfBuffer =>
        match req_analysis req with
        | NoAnalysis => ret (Status400 (str "No analysis data provided"))
        | EmptyAnalysis => ret (Status400 (str "No analysis data provided"))
        | InvalidJson => ret (Status400 (str "Invalid analysis JSON"))
        | ParsedNull => throw
        | Parsed analysis =>
            if match an_cards analysis with
               | None => true
               | Some cards => negb (length cards =? 3)
               end
            then ret (Status400 (str "Invalid analysis: missing cards"))
            else if negb (truthy (an_aura analysis))
            then ret (Status400 (str "Invalid analysis: missing aura"))
            else
              _ <~ emit LogProcessing ;;
              mergedPdfBuffer <~ renderMergedPdf pdfBuffer analysis ;;
              _ <~ emit LogGenerated ;;
              ret (SendPdf mergedPdfBuffer)
        end
    end.

End PdfLib.

End Render.

(* ================================================================== *)
(** * Vocabulary of the specification *)
(* ================================================================== *)

Module Spec.

Import Keywords Render.

Definition string_eq_dec : forall a b : jsstring, {a = b} + {a <> b} :=
  list_eq_dec Z.eq_dec.

(** The polynomial rolling hash [hash = hash*31 + charCode], wrapped to a
    signed 32-bit integer at every step. *)
Definition rollingHash (s : jsstring) : Z :=
  fold_left (fun hash charCode => ToInt32 (hash * 31 + charCode)) s 0.

(** Number of occurrences of a token among the tokens. *)
Definition occurrences (words : list jsstring) (w : jsstring) : Z :=
  Z.of_nat (count_occ string_eq_dec words w).

(** The distinct tokens in the order in which they are first seen. *)
Fixpoint firstSeen (words : list jsstring) : list jsstring :=
  match words with
  | [] => []
  | w :: rest => w :: filter (fun v => negb (eqb v w)) (firstSeen rest)
  end.

(** A token that the frequency object keeps as an array index. *)
Definition isIndexKey (k : jsstring) : bool :=
  match arrayIndex k with Some _ => true | None => false end.

(** Ascending order of two array-index keys. *)
Definition indexLe (a b : jsstring) : Prop :=
  exists i j, arrayIndex a = Some i /\ arrayIndex b = Some j /\ i <= j.

(** Number of the words of a category that are among the keywords. *)
Definition presentCount (keywords : list jsstring) (c : Category) : Z :=
  Z.of_nat (List.length
    (filter (fun w => if in_dec string_eq_dec w keywords then true else false)
            (cat_words c))).

(** A line with one more word. *)
Definition appendWord (currentLine word : jsstring) : jsstring :=
  match currentLine with
  | [] => word
  | _ => currentLine ++ str " " ++ word
  end.

(** Greedy fill: the next word joins the current line while the line, the
    word and one more character fit in [maxChars]; otherwise the line is
    flushed and the word starts a new one. *)
Fixpoint greedyFill (maxChars : Z) (currentLine : jsstring) (words : list jsstring)
  : list jsstring :=
  match words with
  | [] => pushLine [] currentLine
  | word :: rest =>
      if length currentLine + length word + 1 <=? maxChars
      then greedyFill maxChars (appendWord currentLine word) rest
      else pushLine [] currentLine ++ greedyFill maxChars word rest
  end.

(** A line is within the limit, or it is one word of the text that is
    longer than the limit. *)
Definition lineFits (maxChars : Z) (words : list jsstring) (line : jsstring) : Prop :=
  length line <= maxChars \/ (In line words /\ maxChars < length line).

(** The texts that [createCoverPage] measures or draws for a card. *)
Definition cardTexts (labelled : jsstring * Card) : list jsstring :=
  let '(labelText, card) := labelled in
  labelText :: truncateText (name card) 18 :: firstn 5 (wrapText (meaning card) 22).

(** The texts that [createCoverPage] measures or draws. *)
Definition coverTexts (a : Analysis) : list jsstring :=
  [ str "PDF TAROT READING";
    truncateText (orElse (an_title a) (str "Untitled Document")) 50 ]
  ++ match an_cards a with
     | Some cards => flat_map cardTexts (combine positionLabels cards)
     | None => []
     end
  ++ [ str "AURA: " ++ match an_aura a with Some x => x | None => str "undefined" end;
       orElse (an_certification a) (str "Certified Chaotic Neutral");
       str "pdftarot.app" ].

(** The fonts accept every text of a list. *)
Definition fontsAccept (measurable drawable : jsstring -> bool)
                       (texts : list jsstring) : Prop :=
  Forall (fun t => measurable t = true /\ drawable t = true) texts.

End Spec.

(* ================================================================== *)
(** * The text extractor ([server/src/services/textExtractor.js]) *)
(* ================================================================== *)

Module Extract.

Import Keywords.

(** What [pdfParse(pdfBuffer, { max: 5 })] does with the uploaded bytes: it
    throws, or it returns the text of the first pages and, when the metadata
    has one, the title ([data.info?.Title]).  The page count, which the
    callers do not read, is left out. *)
Inductive PdfParse : Type :=
| ParseThrows
| ParseData (text : jsstring) (infoTitle : option jsstring).

Definition MAX_TEXT_LENGTH : nat := 3000.

(** [s.trimStart()] *)
Fixpoint trimStart (s : jsstring) : jsstring :=
  match s with
  | [] => []
  | c :: rest => if isWhiteSpace c then trimStart rest else s
  end.

(** [s.trim()]: white space and line terminators go from both ends. *)
Definition trim (s : jsstring) : jsstring :=
  rev (trimStart (rev (trimStart s))).

(** [s.split('\n')[0]]: what comes before the first line feed. *)
Fixpoint firstLineOf (s : jsstring) : jsstring :=
  match s with
  | [] => []
  | c :: rest => if c =? 10 then [] else c :: firstLineOf rest
  end.

(** The class [\w]. *)
Definition isWordChar (c : Z) : bool :=
  ((65 <=? c) && (c <=? 90)) || ((97 <=? c) && (c <=? 122))
  || ((48 <=? c) && (c <=? 57)) || (c =? 95).

(** The punctuation that [cleanTitle] keeps: hyphen, underscore, full stop,
    comma, exclamation mark, question mark, apostrophe, double quote and the
    two parentheses. *)
Definition isTitlePunctuation (c : Z) : bool :=
  (c =? 45) || (c =? 95) || (c =? 46) || (c =? 44) || (c =? 33) || (c =? 63)
  || (c =? 39) || (c =? 34) || (c =? 40) || (c =? 41).

(** A code unit that the first replacement of [cleanTitle] keeps: a word
    character, white space or that punctuation. *)
Definition titleCharKept (c : Z) : bool :=
  isWordChar c || isWhiteSpace c || isTitlePunctuation c.

(** [s.replace(/\s+/g, ' ')]: every maximal run of white space becomes one
    space.  [inRun] tells that the previous code unit was white space. *)
Fixpoint collapseWhite (s : jsstring) (inRun : bool) : jsstring :=
  match s with
  | [] => []
  | c :: rest =>
      if isWhiteSpace c then
        if inRun then collapseWhite rest true else 32 :: collapseWhite rest true
      else c :: collapseWhite rest false
  end.

(** [s || dflt] for a string [s]. *)
Definition orDefault (s dflt : jsstring) : jsstring :=
  match s with
  | [] => dflt
  | _ => s
  end.

(** [cleanTitle(title)] *)
Definition cleanTitle (title : jsstring) : jsstring :=
  orDefault
    (slice0 80 (trim (collapseWhite (filter titleCharKept title) false)))
    (str "Untitled Document").

(** [extractText(pdfBuffer)]: every exception inside becomes the error
    [Failed to extract text from PDF]. *)
Definition extractText (data : PdfParse) : Analyze.Extraction :=
  match data with
  | ParseThrows => Analyze.ExtractThrows
  | ParseData dataText infoTitle =>
      let text := trim (slice0 MAX_TEXT_LENGTH dataText) in
      let title :=
        match infoTitle with
        | Some (c :: t) => c :: t
        | _ =>
            let firstLine := trim (firstLineOf text) in
            orDefault (slice0 100 firstLine) (str "Untitled Document")
        end in
      Analyze.Extracted text (cleanTitle title)
  end.

End Extract.

(* ================================================================== *)
(** * The serverless analyze function ([api/analyze.js]) *)
(* ================================================================== *)

Module ApiAnalyze.

(** The uploaded file: its MIME type and what [pdfParse] makes of its
    bytes. *)
Record Upload : Type := mkUpload
  { up_mimetype : jsstring; up_parse : Extract.PdfParse }.

Inductive Response : Type :=
| Status405 (message : jsstring)
| Status400 (message : jsstring)
| Status422 (message : jsstring)
| Status500 (message : jsstring)
| Status200 (reading : Reading).

(** What [parseForm(req)] gives: the promise is rejected, or it resolves to
    the files of the form, of which the handler reads [files.file]. *)
Inductive Form : Type :=
| FormRejected
| FormFiles (file : option Upload).

(** [handler(req, res)] of [api/analyze.js]; [post] tells whether the method
    is POST.  The helper functions of the file are copies of those of the
    services.  The file of an upload is taken to be readable. *)
Definition handler (post : bool) (form : Form) : Response :=
  if negb post then Status405 (str "Method not allowed")
  else
    match form with
    | FormRejected => Status500 (str "Failed to analyze PDF")
    | FormFiles None => Status400 (str "No PDF file provided")
    | FormFiles (Some file) =>
        if negb (eqb (up_mimetype file) (str "application/pdf")) then
          Status400 (str "Only PDF files are allowed")
        else
          match up_parse file with
          | Extract.ParseThrows =>
              Status422 (str "Could not extract text from PDF. The document may be scanned or encrypted.")
          | Extract.ParseData dataText infoTitle =>
              let text := Extract.trim (slice0 3000 dataText) in
              if length text <? 10 then
                Status422 (str "Could not extract text from PDF. The document may be scanned or encrypted.")
              else
                let title :=
                  match infoTitle with
                  | Some (c :: t) => c :: t
                  | _ =>
                      let firstLine := Extract.trim (Extract.firstLineOf text) in
                      Extract.orDefault (slice0 100 firstLine) (str "Untitled Document")
                  end in
                let title := Extract.cleanTitle title in
                let keywords := Keywords.extractKeywords text Keywords.defaultMaxKeywords in
                let category := Keywords.categorizeDocument keywords in
                match generateReading title keywords category text with
                | None => Status500 (str "Failed to analyze PDF")
                | Some reading =>
                    if Analyze.schemaAccepts reading then Status200 reading
                    else Status500 (str "Internal validation error")
                end
          end
    end.

End ApiAnalyze.

(* ================================================================== *)
(** * The client ([src/hooks/useExport.js], [useAnalysis.js]) *)
(* ================================================================== *)

Module Client.

Inductive Validation : Type :=
| Valid
| Invalid (error : jsstring).

(** [validateExportData(file, analysis)]; [hasFile] tells whether there is a
    file, [None] is a missing analysis. *)
Definition validateExportData (hasFile : bool) (analysis : option Render.Analysis)
  : Validation :=
  if negb hasFile then Invalid (str "No file provided")
  else
    match analysis with
    | None => Invalid (str "No analysis data")
    | Some analysis =>
        if match Render.an_cards analysis with
           | None => true
           | Some cards => negb (length cards =? 3)
           end
        then Invalid (str "Invalid card data")
        else if negb (Render.truthy (Render.an_aura analysis))
        then Invalid (str "Missing aura data")
        else Valid
    end.

Definition nonEmpty (s : jsstring) : bool :=
  match s with
  | [] => false
  | _ => true
  end.

(** [validateAnalysisResponse(response)] on a response with the fields and
    the types of a reading: what is left of the checks is that the strings
    are not empty, the number of cards and their positions. *)
Definition validateAnalysisResponse (response : Reading) : bool :=
  if negb (nonEmpty (title response)) then false
  else if negb (nonEmpty (aura response)) then false
  else if negb (length (cards response) =? 3) then false
  else
    forallb (fun card =>
               negb (negb (nonEmpty (position card))
                     || negb (Keywords.has (map str ["past"; "present"; "future"]%string)
                                           (position card))
                     || negb (nonEmpty (name card))
                     || negb (nonEmpty (meaning card))))
            (cards response).

(** The end of a name matches [/\.pdf$/i]. *)
Definition endsWithPdf (s : jsstring) : bool :=
  match rev s with
  | f :: d :: p :: dot :: _ =>
      (dot =? 46) && ((p =? 112) || (p =? 80)) && ((d =? 100) || (d =? 68))
      && ((f =? 102) || (f =? 70))
  | _ => false
  end.

(** A code unit outside the class [[^a-zA-Z0-9_\-\s]]. *)
Definition filenameCharKept (c : Z) : bool :=
  ((97 <=? c) && (c <=? 122)) || ((65 <=? c) && (c <=? 90))
  || ((48 <=? c) && (c <=? 57)) || (c =? 95) || (c =? 45)
  || Keywords.isWhiteSpace c.

(** [generateExportFilename(originalName)] *)
Definition generateExportFilename (originalName : jsstring) : jsstring :=
  let baseName :=
    if endsWithPdf originalName
    then firstn (List.length originalName - 4) originalName
    else originalName in
  let sanitized := Extract.trim (filter filenameCharKept baseName) in
  let finalName := Extract.orDefault sanitized (str "document") in
  finalName ++ str "_tarot_reading.pdf".

(** The update of the simulated progress in [exportPdf]:
    [prev => Math.min(prev + (prev < 50 ? 8 : prev < 80 ? 3 : 1), 90)]. *)
Definition exportProgressTick (prev : Z) : Z :=
  let increment := if prev <? 50 then 8 else if prev <? 80 then 3 else 1 in
  Z.min (prev + increment) 90.

End Client.

(* ================================================================== *)
(** * Further vocabulary *)
(* ================================================================== *)

Module Terms.

(** A printable ASCII code unit. *)
Definition printable (c : Z) : bool := (32 <=? c) && (c <=? 126).

(** A text of printable ASCII code units. *)
Definition printableText (t : jsstring) : bool := forallb printable t.

(** A code unit of a cleaned title: a word character, one of the kept
    punctuation marks, or a space. *)
Definition titleChar (c : Z) : bool :=
  Extract.isWordChar c || Extract.isTitlePunctuation c || (c =? 32).

(** The three positions, in the order of a reading. *)
Definition positions : list jsstring := map str ["past"; "present"; "future"]%string.

(** The number of non-empty words of a text split at single spaces. *)
Definition wordCount (text : jsstring) : nat :=
  List.length (filter (fun w => negb (eqb w [])) (Render.splitSpace text)).

(** A line that begins with a code unit other than a space. *)
Definition beginsWithWord (line : jsstring) : Prop :=
  exists c rest, line = c :: rest /\ c <> 32.

(** The seven labels that categorisation can give. *)
Definition categoryLabels : list jsstring :=
  str "general" :: map Keywords.cat_name Keywords.categories.

End Terms.

(* ================================================================== *)
(** * Properties of the reading generator *)
(* ================================================================== *)

Lemma ToInt32_range (x : Z) : - 2 ^ 31 <= ToInt32 x < 2 ^ 31.
Proof.
  unfold ToInt32.
  pose proof (Z.mod_pos_bound (x + 2 ^ 31) (2 ^ 32) ltac:(lia)). lia.
Qed.

Lemma ToInt32_small (x : Z) : - 2 ^ 31 <= x < 2 ^ 31 -> ToInt32 x = x.
Proof.
  intros H. unfold ToInt32. rewrite Z.mod_small; lia.
Qed.

Lemma ToInt32_idem (x : Z) : ToInt32 (ToInt32 x) = ToInt32 x.
Proof. apply ToInt32_small, ToInt32_range. Qed.

(** Two integers that agree modulo 2^32 have the same [ToInt32]. *)
Lemma ToInt32_congr (x y : Z) :
  x mod 2 ^ 32 = y mod 2 ^ 32 -> ToInt32 x = ToInt32 y.
Proof.
  intros H. unfold ToInt32.
  rewrite (Z.add_mod x), (Z.add_mod y), H by lia. reflexivity.
Qed.

Lemma ToInt32_mod (x : Z) : (ToInt32 x) mod 2 ^ 32 = x mod 2 ^ 32.
Proof.
  unfold ToInt32.
  rewrite Zminus_mod, Z.mod_mod by lia.
  rewrite <- Zminus_mod. f_equal. lia.
Qed.

Lemma band_diag (x : Z) : band x x = ToInt32 x.
Proof. unfold band. rewrite Z.land_diag. apply ToInt32_idem. Qed.

Lemma shl_5 (x : Z) : shl x 5 = ToInt32 (ToInt32 x * 32).
Proof. unfold shl. rewrite Z.shiftl_mul_pow2 by lia. reflexivity. Qed.

(** The shift-based update is the polynomial step, for every integer. *)
Lemma shift_update_poly (hash char : Z) :
  band (shl hash 5 - hash + char) (shl hash 5 - hash + char)
  = ToInt32 (hash * 31 + char).
Proof.
  rewrite band_diag, shl_5.
  apply ToInt32_congr.
  replace (ToInt32 (ToInt32 hash * 32) - hash + char)
    with (ToInt32 (ToInt32 hash * 32) + (char - hash)) by lia.
  rewrite Z.add_mod, ToInt32_mod by lia.
  rewrite Z.mul_mod, ToInt32_mod by lia.
  rewrite <- Z.mul_mod, <- Z.add_mod by lia.
  f_equal. lia.
Qed.

Lemma hashCode_step_poly (hash char : Z) :
  hashCode_step hash char = ToInt32 (hash * 31 + char).
Proof. unfold hashCode_step. apply shift_update_poly. Qed.

(** The number operations of one turn stay far below 2^53, where floating
    point is exact on integers. *)
Lemma hashCode_step_exact (hash char : Z) :
  - 2 ^ 31 <= hash < 2 ^ 31 -> 0 <= char < 2 ^ 16 ->
  Z.abs (shl hash 5 - hash) < 2 ^ 53 /\ Z.abs (shl hash 5 - hash + char) < 2 ^ 53.
Proof.
  intros Hh Hc. pose proof (ToInt32_range (Z.shiftl (ToInt32 hash) 5)) as Hs.
  unfold shl. lia.
Qed.

Lemma fold_left_ext {A B : Type} (f g : A -> B -> A) (l : list B) (a : A) :
  (forall x y, f x y = g x y) -> fold_left f l a = fold_left g l a.
Proof.
  intros H. revert a. induction l as [| y l IH]; intros a; simpl.
  - reflexivity.
  - rewrite H. apply IH.
Qed.

Lemma fold_left_invariant {A B : Type} (P : A -> Prop) (f : A -> B -> A)
      (l : list B) (a : A) :
  (forall x y, P (f x y)) -> P a -> P (fold_left f l a).
Proof.
  intros H. revert a. induction l as [| y l IH]; intros a Ha; simpl.
  - exact Ha.
  - apply IH, H.
Qed.

Lemma hashCode_loop_poly (s : jsstring) (h : Z) :
  fold_left hashCode_step s h
  = fold_left (fun hash charCode => ToInt32 (hash * 31 + charCode)) s h.
Proof. apply fold_left_ext, hashCode_step_poly. Qed.

Lemma hashCode_loop_range (s : jsstring) (h : Z) :
  - 2 ^ 31 <= h < 2 ^ 31 -> - 2 ^ 31 <= fold_left hashCode_step s h < 2 ^ 31.
Proof.
  apply (fold_left_invariant (fun x => - 2 ^ 31 <= x < 2 ^ 31)).
  intros x y. rewrite hashCode_step_poly. apply ToInt32_range.
Qed.

Lemma hashCode_range (s : jsstring) : 0 <= hashCode s <= 2 ^ 31.
Proof.
  unfold hashCode.
  pose proof (hashCode_loop_range s 0 ltac:(lia)). lia.
Qed.

(** C5.  The seed of the reading is the absolute value of the polynomial
    rolling hash [hash = hash*31 + charCode], wrapped to a signed 32-bit
    integer at every step, of the first 500 code units of the text followed by
    the title; the shift-based update of the source, [((hash << 5) - hash) +
    char] followed by [hash & hash], is that step for every input. *)
Theorem seed_is_rolling_hash (title text : jsstring) :
  readingSeed title text = Z.abs (Spec.rollingHash (firstn 500 text ++ title))
  /\ (forall s, hashCode s = Z.abs (Spec.rollingHash s))
  /\ (forall hash char, hashCode_step hash char = ToInt32 (hash * 31 + char))
  /\ (forall hash char,
        band (shl hash 5 - hash + char) (shl hash 5 - hash + char)
        = ToInt32 (hash * 31 + char)).
Proof.
  assert (H : forall s, hashCode s = Z.abs (Spec.rollingHash s)).
  { intros s. unfold hashCode, Spec.rollingHash. now rewrite hashCode_loop_poly. }
  split; [| split; [| split]].
  - unfold readingSeed, slice0. apply H.
  - exact H.
  - exact hashCode_step_poly.
  - exact shift_update_poly.
Qed.

Lemma seededIndex_mod {A : Type} (array : list A) (seed offset : Z) :
  0 <= seed + offset ->
  seededIndex array seed offset = (seed + offset) mod (length array).
Proof.
  intros H. unfold seededIndex, rem.
  destruct (Z.eq_dec (length array) 0) as [E | E].
  - rewrite E. rewrite Z.mod_0_r. now rewrite Z.rem_0_r_ext.
  - apply Z.rem_mod_nonneg; unfold length in *; lia.
Qed.

Lemma selectSeeded_defined {A : Type} (array : list A) (seed offset : Z) :
  0 <= seed + offset -> array <> [] ->
  exists x, selectSeeded array seed offset = Some x
            /\ nth_error array (Z.to_nat ((seed + offset) mod (length array))) = Some x.
Proof.
  intros H Hne. unfold selectSeeded, index.
  rewrite seededIndex_mod by assumption.
  assert (Hlen : 0 < length array).
  { unfold length. destruct array; [congruence | simpl; lia]. }
  pose proof (Z.mod_pos_bound (seed + offset) (length array) Hlen) as Hb.
  destruct ((seed + offset) mod length array <? 0) eqn:E; [lia |].
  destruct (nth_error array (Z.to_nat ((seed + offset) mod length array))) eqn:En.
  - eauto.
  - apply nth_error_None in En. unfold length in *. lia.
Qed.

(** C6.  For a seed that is not negative, the five selections are at the
    indices [(seed + offset) mod deckSize] with the offsets 0, 1, 2, 3, 4 for
    the past card, the present card, the future card, the aura and the
    certification, in decks of 8, 8, 8, 10 and 10 entries; the card indices are
    in [0, 7], the aura and certification indices in [0, 9], and every
    selection is an entry of its deck.  These five selections are the ones
    that [generateReading] makes: for every input whose seed this is, its
    reading is built from them. *)
Theorem selection_indices_in_bounds (seed : Z) (Hseed : 0 <= seed) :
  (length Decks.past = 8 /\ length Decks.present = 8 /\ length Decks.future = 8
   /\ length Decks.AURAS = 10 /\ length Decks.CERTIFICATIONS = 10)
  /\ (seededIndex Decks.past seed 0 = (seed + 0) mod 8
      /\ seededIndex Decks.present seed 1 = (seed + 1) mod 8
      /\ seededIndex Decks.future seed 2 = (seed + 2) mod 8
      /\ seededIndex Decks.AURAS seed 3 = (seed + 3) mod 10
      /\ seededIndex Decks.CERTIFICATIONS seed 4 = (seed + 4) mod 10)
  /\ (0 <= seededIndex Decks.past seed 0 <= 7
      /\ 0 <= seededIndex Decks.present seed 1 <= 7
      /\ 0 <= seededIndex Decks.future seed 2 <= 7
      /\ 0 <= seededIndex Decks.AURAS seed 3 <= 9
      /\ 0 <= seededIndex Decks.CERTIFICATIONS seed 4 <= 9)
  /\ (selectSeeded Decks.past seed 0
        = nth_error Decks.past (Z.to_nat ((seed + 0) mod 8))
      /\ selectSeeded Decks.present seed 1
        = nth_error Decks.present (Z.to_nat ((seed + 1) mod 8))
      /\ selectSeeded Decks.future seed 2
        = nth_error Decks.future (Z.to_nat ((seed + 2) mod 8))
      /\ selectSeeded Decks.AURAS seed 3
        = nth_error Decks.AURAS (Z.to_nat ((seed + 3) mod 10))
      /\ selectSeeded Decks.CERTIFICATIONS seed 4
        = nth_error Decks.CERTIFICATIONS (Z.to_nat ((seed + 4) mod 10)))
  /\ (forall ttl kws cat text,
        readingSeed ttl text = seed ->
        exists pastCard presentCard futureCard au cert,
          selectSeeded Decks.past seed 0 = Some pastCard
          /\ selectSeeded Decks.present seed 1 = Some presentCard
          /\ selectSeeded Decks.future seed 2 = Some futureCard
          /\ selectSeeded Decks.AURAS seed 3 = Some au
          /\ selectSeeded Decks.CERTIFICATIONS seed 4 = Some cert
          /\ generateReading ttl kws cat text
             = Some (mkReading ttl kws cat (au_name au) cert
                       [ mkCard (str "past") (dc_name pastCard) (dc_meaning pastCard);
                         mkCard (str "present") (dc_name presentCard)
                                (dc_meaning presentCard);
                         mkCard (str "future") (dc_name futureCard)
                                (dc_meaning futureCard) ])).
Proof.
  assert (L : length Decks.past = 8 /\ length Decks.present = 8
              /\ length Decks.future = 8 /\ length Decks.AURAS = 10
              /\ length Decks.CERTIFICATIONS = 10) by (repeat split; reflexivity).
  destruct L as (L1 & L2 & L3 & L4 & L5).
  assert (I : seededIndex Decks.past seed 0 = (seed + 0) mod 8
      /\ seededIndex Decks.present seed 1 = (seed + 1) mod 8
      /\ seededIndex Decks.future seed 2 = (seed + 2) mod 8
      /\ seededIndex Decks.AURAS seed 3 = (seed + 3) mod 10
      /\ seededIndex Decks.CERTIFICATIONS seed 4 = (seed + 4) mod 10).
  { repeat split; rewrite seededIndex_mod by lia;
      rewrite ?L1, ?L2, ?L3, ?L4, ?L5; reflexivity. }
  destruct I as (I1 & I2 & I3 & I4 & I5).
  pose proof (Z.mod_pos_bound (seed + 0) 8 ltac:(lia)).
  pose proof (Z.mod_pos_bound (seed + 1) 8 ltac:(lia)).
  pose proof (Z.mod_pos_bound (seed + 2) 8 ltac:(lia)).
  pose proof (Z.mod_pos_bound (seed + 3) 10 ltac:(lia)).
  pose proof (Z.mod_pos_bound (seed + 4) 10 ltac:(lia)).
  split; [repeat split; assumption |].
  split; [repeat split; assumption |].
  split; [rewrite I1, I2, I3, I4, I5; lia |].
  split.
  - unfold selectSeeded, index. rewrite I1, I2, I3, I4, I5.
    repeat split;
      match goal with
      | |- (if ?c then _ else _) = _ => destruct c eqn:E; [lia | reflexivity]
      end.
  - intros ttl kws cat text Hs. unfold generateReading. cbv zeta. rewrite Hs.
    destruct (selectSeeded_defined Decks.past seed 0) as (p & -> & _);
      [lia | discriminate |].
    destruct (selectSeeded_defined Decks.present seed 1) as (q & -> & _);
      [lia | discriminate |].
    destruct (selectSeeded_defined Decks.future seed 2) as (f & -> & _);
      [lia | discriminate |].
    destruct (selectSeeded_defined Decks.AURAS seed 3) as (a & -> & _);
      [lia | discriminate |].
    destruct (selectSeeded_defined Decks.CERTIFICATIONS seed 4) as (c & -> & _);
      [lia | discriminate |].
    exists p, q, f, a, c. repeat split; reflexivity.
Qed.

Lemma selection_indices_in_bounds_witness :
  0 <= hashCode (str "hello")
  /\ readingSeed (str "hello") [] = hashCode (str "hello")
  /\ seededIndex Decks.AURAS (hashCode (str "hello")) 3 = 5
  /\ exists r, generateReading (str "hello") [] (str "general") [] = Some r
               /\ Some (aura r) = option_map au_name (nth_error Decks.AURAS 5).
Proof.
  pose proof (selection_indices_in_bounds (hashCode (str "hello"))
                ltac:(vm_compute; discriminate))
    as (_ & (_ & _ & _ & E & _) & _ & (_ & _ & _ & S3 & _) & G).
  split; [vm_compute; discriminate |]. split; [reflexivity |].
  split; [rewrite E; vm_compute; reflexivity |].
  destruct (G (str "hello") [] (str "general") [] eq_refl)
    as (p & q & f & a & c & _ & _ & _ & Ha & _ & Hr).
  eexists. split; [exact Hr |]. cbn [aura].
  rewrite S3 in Ha. vm_compute in Ha. injection Ha as <-. vm_compute. reflexivity.
Defined.

(** The generator always returns a reading: the seed is not negative, so no
    selection is [undefined]. *)
Lemma generateReading_total (ttl : jsstring) (kws : list jsstring) (cat text : jsstring) :
  exists pastCard presentCard futureCard au cert,
    let seed := readingSeed ttl text in
    nth_error Decks.past (Z.to_nat ((seed + 0) mod 8)) = Some pastCard
    /\ nth_error Decks.present (Z.to_nat ((seed + 1) mod 8)) = Some presentCard
    /\ nth_error Decks.future (Z.to_nat ((seed + 2) mod 8)) = Some futureCard
    /\ nth_error Decks.AURAS (Z.to_nat ((seed + 3) mod 10)) = Some au
    /\ nth_error Decks.CERTIFICATIONS (Z.to_nat ((seed + 4) mod 10)) = Some cert
    /\ generateReading ttl kws cat text
       = Some (mkReading ttl kws cat (au_name au) cert
                 [ mkCard (str "past") (dc_name pastCard) (dc_meaning pastCard);
                   mkCard (str "present") (dc_name presentCard) (dc_meaning presentCard);
                   mkCard (str "future") (dc_name futureCard) (dc_meaning futureCard) ]).
Proof.
  unfold generateReading.
  pose proof (hashCode_range (slice0 500 text ++ ttl)) as Hr.
  fold (readingSeed ttl text) in Hr.
  set (seed := readingSeed ttl text) in *.
  destruct (selectSeeded_defined Decks.past seed 0) as (p & Hp & Np);
    [lia | discriminate |].
  destruct (selectSeeded_defined Decks.present seed 1) as (q & Hq & Nq);
    [lia | discriminate |].
  destruct (selectSeeded_defined Decks.future seed 2) as (f & Hf & Nf);
    [lia | discriminate |].
  destruct (selectSeeded_defined Decks.AURAS seed 3) as (a & Ha & Na);
    [lia | discriminate |].
  destruct (selectSeeded_defined Decks.CERTIFICATIONS seed 4) as (c & Hc & Nc);
    [lia | discriminate |].
  exists p, q, f, a, c. cbv zeta.
  rewrite Hp, Hq, Hf, Ha, Hc.
  repeat split; assumption.
Qed.

(* ================================================================== *)
(** * Properties of the word wrap *)
(* ================================================================== *)

Section WordWrap.

Import Render Spec.

Variable maxChars : Z.

Lemma splitSpace_not_nil (text : jsstring) : splitSpace text <> [].
Proof.
  destruct text as [| c rest]; simpl; [discriminate |].
  destruct (c =? 32); [discriminate |].
  destruct (splitSpace rest); discriminate.
Qed.

(** Splitting distributes over a space. *)
Lemma splitSpace_app (a b : jsstring) :
  splitSpace (a ++ 32 :: b) = splitSpace a ++ splitSpace b.
Proof.
  induction a as [| c a IH]; simpl.
  - reflexivity.
  - destruct (c =? 32).
    + now rewrite IH.
    + rewrite IH. destruct (splitSpace a) eqn:E.
      * now apply splitSpace_not_nil in E.
      * reflexivity.
Qed.

Lemma splitSpace_word (w : jsstring) :
  Forall (fun c => c <> 32) w -> splitSpace w = [w].
Proof.
  induction 1 as [| c w Hc _ IH]; simpl.
  - reflexivity.
  - apply Z.eqb_neq in Hc. now rewrite Hc, IH.
Qed.

(** No piece of a split contains a space. *)
Lemma splitSpace_pieces (text : jsstring) :
  Forall (Forall (fun c => c <> 32)) (splitSpace text).
Proof.
  induction text as [| c rest IH]; simpl.
  - repeat constructor.
  - destruct (c =? 32) eqn:E.
    + constructor; [constructor | exact IH].
    + apply Z.eqb_neq in E.
      destruct (splitSpace rest) as [| piece pieces].
      * repeat constructor. exact E.
      * inversion IH; subst. constructor; [constructor |]; assumption.
Qed.

Lemma pushLine_app (lines : list jsstring) (currentLine : jsstring) :
  pushLine lines currentLine = lines ++ pushLine [] currentLine.
Proof. destruct currentLine; simpl; [now rewrite app_nil_r | reflexivity]. Qed.

Lemma appendWord_eq (currentLine word : jsstring) :
  currentLine ++ (match currentLine with [] => [] | _ => str " " end) ++ word
  = appendWord currentLine word.
Proof. destruct currentLine; reflexivity. Qed.

Lemma appendWord_length (currentLine word : jsstring) :
  length (appendWord currentLine word) <= length currentLine + length word + 1.
Proof.
  unfold length, appendWord. destruct currentLine as [| c l].
  - simpl List.length. lia.
  - rewrite !length_app. simpl List.length. lia.
Qed.

(** The loop of [wrapText], run from any state, is the greedy fill. *)
Lemma wrap_loop_greedy (words lines : list jsstring) (currentLine : jsstring) :
  (let '(lines', currentLine') :=
     fold_left (wrap_step maxChars) words (lines, currentLine) in
   pushLine lines' currentLine')
  = lines ++ greedyFill maxChars currentLine words.
Proof.
  revert lines currentLine.
  induction words as [| word rest IH]; intros lines currentLine; simpl.
  - apply pushLine_app.
  - destruct (length currentLine + length word + 1 <=? maxChars).
    + rewrite appendWord_eq. apply IH.
    + rewrite IH, pushLine_app, <- app_assoc. reflexivity.
Qed.

Lemma wrapText_greedy (text : jsstring) :
  wrapText text maxChars = greedyFill maxChars [] (splitSpace text).
Proof.
  exact (wrap_loop_greedy (splitSpace text) [] []).
Qed.

Lemma greedyFill_fits (all words : list jsstring) (currentLine : jsstring) :
  incl words all ->
  currentLine = [] \/ lineFits maxChars all currentLine ->
  Forall (lineFits maxChars all) (greedyFill maxChars currentLine words).
Proof.
  revert currentLine.
  induction words as [| word rest IH]; intros currentLine Hin Hc; simpl.
  - destruct Hc as [-> | Hc]; simpl; [constructor |].
    destruct currentLine; simpl; [constructor |].
    constructor; [assumption | constructor].
  - assert (Hrest : incl rest all) by (intros x Hx; apply Hin; now right).
    destruct (length currentLine + length word + 1 <=? maxChars) eqn:E.
    + apply IH; [assumption |]. right. left.
      apply Z.leb_le in E. pose proof (appendWord_length currentLine word). lia.
    + apply Forall_app. split.
      * destruct Hc as [-> | Hc]; simpl; [constructor |].
        destruct currentLine; simpl; [constructor |].
    constructor; [assumption | constructor].
      * apply IH; [assumption |]. right.
        destruct (Z_le_gt_dec (length word) maxChars) as [Hle | Hgt].
        -- now left.
        -- right. split; [apply Hin; now left | lia].
Qed.

Lemma greedyFill_keeps_long_line (currentLine : jsstring) (words : list jsstring) :
  maxChars < length currentLine -> currentLine <> [] ->
  In currentLine (greedyFill maxChars currentLine words).
Proof.
  intros Hlong Hne. destruct words as [| word rest]; simpl.
  - destruct currentLine; [congruence | now left].
  - assert (E : (length currentLine + length word + 1 <=? maxChars) = false).
    { apply Z.leb_gt. unfold length in *. lia. }
    rewrite E. apply in_or_app. left.
    destruct currentLine; [congruence | now left].
Qed.

Lemma greedyFill_long_word (words : list jsstring) (currentLine word : jsstring) :
  In word words -> maxChars < length word -> word <> [] ->
  In word (greedyFill maxChars currentLine words).
Proof.
  revert currentLine.
  induction words as [| w rest IH]; intros currentLine Hin Hlong Hne; simpl.
  - contradiction.
  - destruct Hin as [-> | Hin].
    + assert (E : (length currentLine + length word + 1 <=? maxChars) = false).
      { apply Z.leb_gt. unfold length in *. lia. }
      rewrite E. apply in_or_app. right.
      now apply greedyFill_keeps_long_line.
    + destruct (length currentLine + length w + 1 <=? maxChars).
      * now apply IH.
      * apply in_or_app. right. now apply IH.
Qed.

(** The words of the lines, in order, are the current line's words followed
    by the words still to come. *)
Lemma greedyFill_words (words : list jsstring) (currentLine : jsstring) :
  Forall (fun w => w <> []) words ->
  Forall (Forall (fun c => c <> 32)) words ->
  flat_map splitSpace (greedyFill maxChars currentLine words)
  = (match currentLine with [] => [] | _ => splitSpace currentLine end) ++ words.
Proof.
  revert currentLine.
  induction words as [| word rest IH]; intros currentLine Hne Hsp; simpl.
  - destruct currentLine; simpl; now rewrite ?app_nil_r.
  - inversion Hne as [| ? ? Hw Hne']; subst.
    inversion Hsp as [| ? ? Hs Hsp']; subst.
    destruct (length currentLine + length word + 1 <=? maxChars).
    + rewrite IH by assumption.
      destruct currentLine as [| c l]; simpl appendWord.
      * destruct word; [congruence |].
        now rewrite (splitSpace_word _ Hs).
      * change ((c :: l) ++ str " " ++ word) with (c :: l ++ 32 :: word).
        cbv iota.
        change (c :: l ++ 32 :: word) with ((c :: l) ++ 32 :: word).
        rewrite splitSpace_app, (splitSpace_word _ Hs), <- app_assoc.
        reflexivity.
    + rewrite flat_map_app, IH by assumption.
      destruct word as [| c w]; [congruence |].
      rewrite (splitSpace_word _ Hs).
      destruct currentLine; simpl; now rewrite ?app_nil_r.
Qed.

End WordWrap.

(** C4.  [wrapText] fills lines greedily: a word joins the current line
    exactly when [len(currentLine) + len(word) + 1 <= maxChars], otherwise the
    line is flushed and the word starts a new line.  No line is longer than
    [maxChars], except a line that is a single word of the text longer than
    [maxChars], and such a word is emitted whole on a line of its own. *)
Theorem wrapText_greedy_fill (text : jsstring) (maxChars : Z) :
  (forall lines currentLine word,
      Render.wrap_step maxChars (lines, currentLine) word
      = if length currentLine + length word + 1 <=? maxChars
        then (lines, Spec.appendWord currentLine word)
        else (Render.pushLine lines currentLine, word))
  /\ Render.wrapText text maxChars
     = Spec.greedyFill maxChars [] (Render.splitSpace text)
  /\ Forall (Spec.lineFits maxChars (Render.splitSpace text))
            (Render.wrapText text maxChars)
  /\ (forall word,
        In word (Render.splitSpace text) -> maxChars < length word -> word <> [] ->
        In word (Render.wrapText text maxChars)).
Proof.
  split; [| split; [| split]].
  - intros lines currentLine word. unfold Render.wrap_step.
    destruct (_ <=? _); [now rewrite appendWord_eq | reflexivity].
  - apply wrapText_greedy.
  - rewrite wrapText_greedy. apply greedyFill_fits.
    + apply incl_refl.
    + now left.
  - intros word Hin Hlong Hne. rewrite wrapText_greedy.
    now apply greedyFill_long_word.
Qed.

Lemma wrapText_greedy_fill_witness :
  let text := str "to supercalifragilistic be" in
  In (str "supercalifragilistic") (Render.splitSpace text)
  /\ 5 < length (str "supercalifragilistic")
  /\ In (str "supercalifragilistic") (Render.wrapText text 5).
Proof.
  cbv zeta.
  assert (Hin : In (str "supercalifragilistic")
                   (Render.splitSpace (str "to supercalifragilistic be")))
    by (vm_compute; tauto).
  assert (Hlong : 5 < length (str "supercalifragilistic")) by (vm_compute; reflexivity).
  split; [exact Hin | split; [exact Hlong |]].
  destruct (wrapText_greedy_fill (str "to supercalifragilistic be") 5) as (_ & _ & _ & H).
  apply H; [exact Hin | exact Hlong | discriminate].
Defined.

(** C9.  When no word of the text (split at single spaces) is empty,
    [wrapText] loses, duplicates and reorders no word: the words of the lines,
    taken in order, are the words of the text. *)
Theorem wrapText_preserves_words (text : jsstring) (maxChars : Z) :
  Forall (fun w => w <> []) (Render.splitSpace text) ->
  flat_map Render.splitSpace (Render.wrapText text maxChars) = Render.splitSpace text.
Proof.
  intros Hne. rewrite wrapText_greedy.
  rewrite greedyFill_words; [reflexivity | exact Hne | apply splitSpace_pieces].
Qed.

Lemma wrapText_preserves_words_witness :
  Forall (fun w => w <> []) (Render.splitSpace (str "a formatting disaster awaits"))
  /\ flat_map Render.splitSpace (Render.wrapText (str "a formatting disaster awaits") 12)
     = Render.splitSpace (str "a formatting disaster awaits").
Proof.
  assert (H : Forall (fun w => w <> [])
                     (Render.splitSpace (str "a formatting disaster awaits")))
    by (vm_compute; repeat constructor; discriminate).
  split; [exact H |].
  apply (wrapText_preserves_words (str "a formatting disaster awaits") 12 H).
Defined.

Example wrapText_lines :
  Render.wrapText (str "a formatting disaster awaits") 12
  = [str "a formatting"; str "disaster"; str "awaits"].
Proof. vm_compute. reflexivity. Qed.

(** With an empty word (two spaces in a row) a line may end in a space. *)
Example wrapText_double_space :
  Render.wrapText (str "ab  cd") 4 = [str "ab "; str "cd"].
Proof. vm_compute. reflexivity. Qed.

(* ================================================================== *)
(** * Properties of the categorisation *)
(* ================================================================== *)

Lemma eqb_eq (a b : jsstring) : eqb a b = true <-> a = b.
Proof.
  revert b. induction a as [| x a IH]; intros [| y b]; simpl;
    try (split; [discriminate | congruence]); [tauto |].
  rewrite andb_true_iff, Z.eqb_eq, IH.
  split; [intros [-> ->]; reflexivity | intros H; injection H; auto].
Qed.

Lemma eqb_refl (a : jsstring) : eqb a a = true.
Proof. now apply eqb_eq. Qed.

Lemma eqb_neq (a b : jsstring) : eqb a b = false <-> a <> b.
Proof.
  rewrite <- eqb_eq. destruct (eqb a b); split; congruence.
Qed.

Lemma has_In (set : list jsstring) (w : jsstring) :
  Keywords.has set w = true <-> In w set.
Proof.
  unfold Keywords.has. rewrite existsb_exists. split.
  - intros (x & Hx & E). apply eqb_eq in E. now subst.
  - intros H. exists w. split; [assumption | apply eqb_refl].
Qed.

Section Categorize.

Import Keywords.

Variable keywordSet : list jsstring.

Lemma scoreOf_presentCount (c : Category) :
  scoreOf keywordSet c = Spec.presentCount keywordSet c.
Proof.
  unfold scoreOf, Spec.presentCount, length. do 2 f_equal.
  apply filter_ext. intros w.
  destruct (in_dec Spec.string_eq_dec w keywordSet) as [H | H].
  - now apply has_In.
  - destruct (has keywordSet w) eqn:E; [| reflexivity].
    apply has_In in E. contradiction.
Qed.

Lemma presentCount_disjoint (c : Category) :
  (forall w, In w (cat_words c) -> ~ In w keywordSet) ->
  Spec.presentCount keywordSet c = 0.
Proof.
  unfold Spec.presentCount. intros H.
  induction (cat_words c) as [| w ws IH]; simpl.
  - reflexivity.
  - destruct (in_dec Spec.string_eq_dec w keywordSet) as [Hin | Hout].
    + exfalso. apply (H w); [now left | assumption].
    + apply IH. intros x Hx. apply H. now right.
Qed.

Lemma scoreOf_nonneg (c : Category) : 0 <= scoreOf keywordSet c.
Proof. unfold scoreOf, length. lia. Qed.

(** The loop keeps the first category whose score beats the initial match and
    every earlier category, and that no later category beats. *)
Lemma categorize_loop (cats : list Category) (best : Match) :
  let r := fold_left (categorize_step keywordSet) cats best in
  (r = best /\ forall c, In c cats -> scoreOf keywordSet c <= m_score best)
  \/ (exists before winner after,
         cats = before ++ winner :: after
         /\ r = mkMatch (cat_name winner) (scoreOf keywordSet winner)
         /\ m_score best < scoreOf keywordSet winner
         /\ (forall c, In c before -> scoreOf keywordSet c < scoreOf keywordSet winner)
         /\ (forall c, In c after -> scoreOf keywordSet c <= scoreOf keywordSet winner)).
Proof.
  revert best. induction cats as [| c cs IH]; intros best; cbn zeta.
  - left. split; [reflexivity | intros c []].
  - simpl fold_left.
    replace (categorize_step keywordSet best c)
      with (if m_score best <? scoreOf keywordSet c
            then mkMatch (cat_name c) (scoreOf keywordSet c) else best)
      by reflexivity.
    destruct (m_score best <? scoreOf keywordSet c) eqn:E.
    + apply Z.ltb_lt in E.
      destruct (IH (mkMatch (cat_name c) (scoreOf keywordSet c)))
        as [[Hr Hle] | (b & w & a & Hcs & Hr & Hlt & Hb & Ha)]; right.
      * exists [], c, cs. cbv zeta in Hr. simpl in Hle.
        split; [reflexivity |]. split; [exact Hr |]. split; [exact E |].
        split; [intros x [] | exact Hle].
      * exists (c :: b), w, a. cbv zeta in Hr. simpl in Hlt. subst cs.
        split; [reflexivity |]. split; [exact Hr |]. split; [lia |].
        split; [| exact Ha].
        intros x [<- | Hx]; [lia | auto].
    + apply Z.ltb_ge in E.
      destruct (IH best) as [[Hr Hle] | (b & w & a & Hcs & Hr & Hlt & Hb & Ha)].
      * left. split; [assumption |]. intros x [<- | Hx]; auto.
      * right. exists (c :: b), w, a. cbv zeta in Hr. subst cs.
        split; [reflexivity |]. split; [exact Hr |]. split; [exact Hlt |].
        split; [| exact Ha].
        intros x [<- | Hx]; [lia | auto].
Qed.

End Categorize.

(* ================================================================== *)
(** * Properties of the keyword ranking *)
(* ================================================================== *)

Section SortFacts.

Import Keywords.

Context {A : Type}.

Lemma insert_perm (cmp : A -> A -> Z) (x : A) (l : list A) :
  Permutation (insert cmp x l) (x :: l).
Proof.
  induction l as [| y l IH]; simpl.
  - reflexivity.
  - destruct (0 <? cmp x y).
    + rewrite IH. apply perm_swap.
    + reflexivity.
Qed.

Lemma sort_perm (cmp : A -> A -> Z) (l : list A) : Permutation (sort cmp l) l.
Proof.
  induction l as [| x l IH]; simpl.
  - reflexivity.
  - rewrite insert_perm. now constructor.
Qed.

Lemma insert_ext_in (cmp cmp' : A -> A -> Z) (x : A) (s : list A) :
  (forall y, In y s -> cmp x y = cmp' x y) ->
  insert cmp x s = insert cmp' x s.
Proof.
  induction s as [| y s IH]; intros H; simpl.
  - reflexivity.
  - rewrite <- (H y) by now left.
    destruct (0 <? cmp x y); [| reflexivity].
    f_equal. apply IH. intros z Hz. apply H. now right.
Qed.

Lemma sort_ext_in (cmp cmp' : A -> A -> Z) (l : list A) :
  (forall a b, In a l -> In b l -> cmp a b = cmp' a b) ->
  sort cmp l = sort cmp' l.
Proof.
  induction l as [| x l IH]; intros H; simpl.
  - reflexivity.
  - rewrite <- IH by (intros; apply H; now right).
    apply insert_ext_in. intros y Hy.
    apply H; [now left | right].
    now apply (Permutation_in _ (sort_perm cmp l)).
Qed.

Lemma insert_map {B : Type} (g : B -> A) (cmp : A -> A -> Z) (x : B) (s : list B) :
  insert cmp (g x) (map g s) = map g (insert (fun a b => cmp (g a) (g b)) x s).
Proof.
  induction s as [| y s IH]; simpl.
  - reflexivity.
  - destruct (0 <? cmp (g x) (g y)); simpl; [now rewrite IH | reflexivity].
Qed.

Lemma sort_map {B : Type} (g : B -> A) (cmp : A -> A -> Z) (l : list B) :
  sort cmp (map g l) = map g (sort (fun a b => cmp (g a) (g b)) l).
Proof.
  induction l as [| x l IH]; simpl.
  - reflexivity.
  - rewrite IH. apply insert_map.
Qed.

(** For a comparator that subtracts keys the sort is ascending in the key and
    keeps the order of the elements of equal key. *)
Variable key : A -> Z.

Lemma insert_sorted (x : A) (l : list A) :
  StronglySorted (fun a b => key a <= key b) l ->
  StronglySorted (fun a b => key a <= key b) (insert (fun a b => key a - key b) x l).
Proof.
  induction 1 as [| y l Hs IH Hy]; simpl.
  - repeat constructor.
  - destruct (0 <? key x - key y) eqn:E.
    + apply Z.ltb_lt in E. constructor; [exact IH |].
      apply Forall_forall. intros z Hz.
      apply (Permutation_in _ (insert_perm (fun a b => key a - key b) x l)) in Hz.
      destruct Hz as [<- | Hz]; [lia |].
      rewrite Forall_forall in Hy. auto.
    + apply Z.ltb_ge in E. constructor; [now constructor |].
      constructor; [lia |].
      apply Forall_forall. intros z Hz.
      rewrite Forall_forall in Hy. specialize (Hy z Hz). lia.
Qed.

Lemma sort_sorted (l : list A) :
  StronglySorted (fun a b => key a <= key b) (sort (fun a b => key a - key b) l).
Proof.
  induction l as [| x l IH]; simpl.
  - constructor.
  - now apply insert_sorted.
Qed.

Lemma insert_stable (k0 : Z) (x : A) (l : list A) :
  filter (fun a => key a =? k0) (insert (fun a b => key a - key b) x l)
  = filter (fun a => key a =? k0) (x :: l).
Proof.
  induction l as [| y l IH]; simpl.
  - reflexivity.
  - destruct (0 <? key x - key y) eqn:E.
    + apply Z.ltb_lt in E. simpl. rewrite IH. simpl.
      destruct (key x =? k0) eqn:Ex, (key y =? k0) eqn:Ey; try reflexivity.
      apply Z.eqb_eq in Ex, Ey. lia.
    + reflexivity.
Qed.

Lemma sort_stable (k0 : Z) (l : list A) :
  filter (fun a => key a =? k0) (sort (fun a b => key a - key b) l) = filter (fun a => key a =? k0) l.
Proof.
  induction l as [| x l IH]; simpl sort.
  - reflexivity.
  - rewrite insert_stable. simpl. now rewrite IH.
Qed.

End SortFacts.

Section Ranking.

Import Keywords Spec.

Lemma firstSeen_In (ws : list jsstring) (w : jsstring) :
  In w (firstSeen ws) <-> In w ws.
Proof.
  induction ws as [| a ws IH]; simpl; [tauto |].
  rewrite filter_In, IH, negb_true_iff, eqb_neq.
  destruct (string_eq_dec a w) as [-> | N]; [tauto |].
  split; [tauto |]. intros [H | H]; [contradiction |]. right. split; congruence.
Qed.

Lemma firstSeen_NoDup (ws : list jsstring) : NoDup (firstSeen ws).
Proof.
  induction ws as [| a ws IH]; simpl; constructor.
  - rewrite filter_In, eqb_refl. simpl. intros [_ H]. discriminate.
  - now apply NoDup_filter.
Qed.

Lemma firstSeen_snoc_out (ws : list jsstring) (w : jsstring) :
  ~ In w ws -> firstSeen (ws ++ [w]) = firstSeen ws ++ [w].
Proof.
  induction ws as [| a ws IH]; intros Hout; simpl.
  - reflexivity.
  - rewrite IH by (intros H; apply Hout; now right).
    rewrite filter_app. simpl.
    assert (E : eqb w a = false)
      by (apply eqb_neq; intros ->; apply Hout; now left).
    now rewrite E.
Qed.

Lemma firstSeen_snoc_in (ws : list jsstring) (w : jsstring) :
  In w ws -> firstSeen (ws ++ [w]) = firstSeen ws.
Proof.
  induction ws as [| a ws IH]; intros Hin; simpl.
  - contradiction.
  - f_equal.
    destruct (in_dec string_eq_dec w ws) as [H | H].
    + now rewrite IH.
    + destruct Hin as [-> | Hin]; [| contradiction].
      rewrite (firstSeen_snoc_out _ _ H), filter_app. simpl.
      rewrite eqb_refl. simpl. apply app_nil_r.
Qed.

Lemma occurrences_snoc (ws : list jsstring) (w k : jsstring) :
  occurrences (ws ++ [w]) k
  = occurrences ws k + (if string_eq_dec w k then 1 else 0).
Proof.
  unfold occurrences. rewrite count_occ_app. simpl.
  destruct (string_eq_dec w k); lia.
Qed.

Lemma occurrences_pos (ws : list jsstring) (k : jsstring) :
  In k ws <-> 0 < occurrences ws k.
Proof.
  unfold occurrences. rewrite (count_occ_In string_eq_dec). lia.
Qed.

Lemma getOwn_map_in (f : jsstring -> jsval) (ks : list jsstring) (k : jsstring) :
  In k ks -> getOwn (map (fun x => (x, f x)) ks) k = Some (f k).
Proof.
  induction ks as [| a ks IH]; simpl; [contradiction |].
  intros H. destruct (eqb a k) eqn:E.
  - apply eqb_eq in E. now subst.
  - apply eqb_neq in E. destruct H as [H | H]; [contradiction | auto].
Qed.

Lemma getOwn_map_out (f : jsstring -> jsval) (ks : list jsstring) (k : jsstring) :
  ~ In k ks -> getOwn (map (fun x => (x, f x)) ks) k = None.
Proof.
  induction ks as [| a ks IH]; simpl; [reflexivity |].
  intros H. destruct (eqb a k) eqn:E.
  - apply eqb_eq in E. subst. exfalso. apply H. now left.
  - apply IH. intros Hin. apply H. now right.
Qed.

Lemma setOwn_map_in (f : jsstring -> jsval) (ks : list jsstring)
      (w : jsstring) (v : jsval) :
  NoDup ks -> In w ks ->
  setOwn (map (fun x => (x, f x)) ks) w v
  = map (fun x => (x, if eqb x w then v else f x)) ks.
Proof.
  induction 1 as [| a ks Ha Hnd IH]; simpl; [contradiction |].
  intros Hin. destruct (eqb a w) eqn:E.
  - apply eqb_eq in E. subst a. f_equal.
    apply map_ext_in. intros x Hx.
    assert (Ex : eqb x w = false) by (apply eqb_neq; intros ->; contradiction).
    now rewrite Ex.
  - apply eqb_neq in E. destruct Hin as [Hin | Hin]; [contradiction |].
    now rewrite IH.
Qed.

Lemma setOwn_map_out (f : jsstring -> jsval) (ks : list jsstring)
      (w : jsstring) (v : jsval) :
  ~ In w ks ->
  setOwn (map (fun x => (x, f x)) ks) w v = map (fun x => (x, f x)) ks ++ [(w, v)].
Proof.
  induction ks as [| a ks IH]; simpl; [reflexivity |].
  intros H. destruct (eqb a w) eqn:E.
  - apply eqb_eq in E. subst. exfalso. apply H. now left.
  - rewrite IH; [reflexivity |]. intros Hin. apply H. now right.
Qed.

(** Without the token [constructor], the frequency object holds each distinct
    token with the number of its occurrences, in first-seen order. *)
Lemma countWords_spec (ws : list jsstring) :
  ~ In (str "constructor") ws ->
  countWords ws = map (fun k => (k, VNum (occurrences ws k))) (firstSeen ws).
Proof.
  induction ws as [| w ws IH] using rev_ind; intros Hc.
  - reflexivity.
  - assert (Hc' : ~ In (str "constructor") ws)
      by (intros H; apply Hc, in_or_app; now left).
    assert (Hw : w <> str "constructor")
      by (intros ->; apply Hc, in_or_app; right; now left).
    unfold countWords in *. rewrite fold_left_app. simpl.
    rewrite (IH Hc'). unfold bump.
    destruct (in_dec string_eq_dec w ws) as [Hin | Hout].
    + rewrite (firstSeen_snoc_in _ _ Hin).
      rewrite (getOwn_map_in (fun k => VNum (occurrences ws k)))
        by now apply firstSeen_In.
      pose proof (proj1 (occurrences_pos ws w) Hin) as Hpos.
      destruct (occurrences ws w =? 0) eqn:E; [apply Z.eqb_eq in E; lia |].
      rewrite (setOwn_map_in (fun k => VNum (occurrences ws k)))
        by (auto using firstSeen_NoDup; now apply firstSeen_In).
      apply map_ext. intros k. rewrite occurrences_snoc.
      destruct (eqb k w) eqn:Ek.
      * apply eqb_eq in Ek. subst k.
        destruct (string_eq_dec w w); [reflexivity | congruence].
      * apply eqb_neq in Ek.
        destruct (string_eq_dec w k); [congruence |]. now rewrite Z.add_0_r.
    + rewrite (firstSeen_snoc_out _ _ Hout).
      rewrite (getOwn_map_out (fun k => VNum (occurrences ws k)))
        by now rewrite firstSeen_In.
      apply eqb_neq in Hw. rewrite Hw.
      rewrite (setOwn_map_out (fun k => VNum (occurrences ws k)))
        by now rewrite firstSeen_In.
      rewrite map_app. simpl. f_equal.
      * apply map_ext_in. intros k Hk. rewrite occurrences_snoc.
        apply (proj1 (firstSeen_In _ _)) in Hk.
        destruct (string_eq_dec w k); [subst; contradiction |].
        now rewrite Z.add_0_r.
      * rewrite occurrences_snoc.
        assert (E0 : occurrences ws w = 0).
        { destruct (Z.eq_dec (occurrences ws w) 0) as [E0 | N]; [exact E0 |].
          exfalso. apply Hout, occurrences_pos.
          unfold occurrences in *. lia. }
        rewrite E0. destruct (string_eq_dec w w); [reflexivity | congruence].
Qed.

Lemma indexPairs_keys (ks : list jsstring) :
  map snd (flat_map (fun k => match arrayIndex k with
                              | Some i => [(i, k)]
                              | None => []
                              end) ks)
  = filter isIndexKey ks.
Proof.
  induction ks as [| k ks IH]; simpl; [reflexivity |].
  unfold isIndexKey at 1. destruct (arrayIndex k); simpl; now rewrite IH.
Qed.

Lemma indexPairs_sound (ks : list jsstring) (p : Z * jsstring) :
  In p (flat_map (fun k => match arrayIndex k with
                           | Some i => [(i, k)]
                           | None => []
                           end) ks) ->
  arrayIndex (snd p) = Some (fst p).
Proof.
  rewrite in_flat_map. intros (k & _ & Hp).
  destruct (arrayIndex k) eqn:E; simpl in Hp; [| contradiction].
  destruct Hp as [<- | []]. exact E.
Qed.

Lemma indexLe_sorted (S : list (Z * jsstring)) :
  (forall p, In p S -> arrayIndex (snd p) = Some (fst p)) ->
  StronglySorted (fun a b => fst a <= fst b) S ->
  StronglySorted indexLe (map snd S).
Proof.
  intros Hs Hsorted. induction Hsorted as [| p S Hsorted IH Hp]; simpl.
  - constructor.
  - constructor.
    + apply IH. intros q Hq. apply Hs. now right.
    + apply Forall_forall. intros k Hk. apply in_map_iff in Hk.
      destruct Hk as (q & <- & Hq).
      rewrite Forall_forall in Hp.
      exists (fst p), (fst q). repeat split.
      * apply Hs. now left.
      * apply Hs. now right.
      * now apply Hp.
Qed.

Lemma partition_perm (ks : list jsstring) :
  Permutation
    (filter isIndexKey ks
     ++ filter (fun k => match arrayIndex k with Some _ => false | None => true end) ks)
    ks.
Proof.
  induction ks as [| k ks IH]; simpl; [reflexivity |].
  unfold isIndexKey at 1. destruct (arrayIndex k); simpl.
  - now constructor.
  - symmetry. apply Permutation_cons_app. now symmetry.
Qed.

(** The key order: the array indices, ascending, then the other keys as they
    were created. *)
Lemma keyOrder_spec (ks : list jsstring) :
  exists indices,
    keyOrder ks = indices ++ filter (fun k => negb (isIndexKey k)) ks
    /\ Permutation indices (filter isIndexKey ks)
    /\ StronglySorted indexLe indices.
Proof.
  eexists. split; [| split].
  - unfold keyOrder. f_equal. apply filter_ext. intros k.
    unfold isIndexKey. now destruct (arrayIndex k).
  - rewrite <- indexPairs_keys. apply Permutation_map, sort_perm.
  - apply indexLe_sorted.
    + intros p Hp. apply (indexPairs_sound ks).
      eapply Permutation_in; [apply sort_perm | exact Hp].
    + apply (sort_sorted fst).
Qed.

Lemma keyOrder_perm (ks : list jsstring) : Permutation (keyOrder ks) ks.
Proof.
  unfold keyOrder. rewrite <- (partition_perm ks) at 3.
  apply Permutation_app_tail.
  rewrite <- indexPairs_keys. apply Permutation_map, sort_perm.
Qed.

(** Without array indices among the keys the key order is the creation
    order. *)
Lemma keyOrder_plain (ks : list jsstring) :
  Forall (fun k => arrayIndex k = None) ks -> keyOrder ks = ks.
Proof.
  intros H. unfold keyOrder.
  replace (flat_map _ ks) with (@nil (Z * jsstring)).
  - simpl. induction H as [| k ks Hk _ IH]; simpl; [reflexivity |].
    now rewrite Hk, IH.
  - induction H as [| k ks Hk _ IH]; simpl; [reflexivity |].
    now rewrite Hk, <- IH.
Qed.

Lemma entries_map (f : jsstring -> jsval) (ks : list jsstring) :
  entries (map (fun k => (k, f k)) ks) = map (fun k => (k, f k)) (keyOrder ks).
Proof.
  unfold entries. rewrite map_map. simpl. rewrite map_id.
  assert (H : forall k, In k (keyOrder ks) -> In k ks)
    by (intros k; apply Permutation_in, keyOrder_perm).
  induction (keyOrder ks) as [| k l IH]; simpl; [reflexivity |].
  rewrite (getOwn_map_in f) by (apply H; now left).
  simpl. f_equal. apply IH. intros x Hx. apply H. now right.
Qed.

(** The ranking of the tokens of a text: the distinct tokens in key order,
    sorted by falling number of occurrences. *)
Lemma extractKeywords_ranked (text : jsstring) (maxKeywords : nat) :
  ~ In (str "constructor") (tokenize text) ->
  extractKeywords text maxKeywords
  = firstn maxKeywords
      (sort (fun a b => occurrences (tokenize text) b - occurrences (tokenize text) a)
            (keyOrder (firstSeen (tokenize text)))).
Proof.
  intros Hc. unfold extractKeywords.
  rewrite (countWords_spec _ Hc).
  rewrite (entries_map (fun k => VNum (occurrences (tokenize text) k))).
  rewrite sort_map, firstn_map, map_map. simpl. now rewrite map_id.
Qed.

End Ranking.

Section TokenShape.

Import Keywords.

Lemma splitWhite_chars (s : jsstring) (inRun : bool) :
  Forall (Forall (fun c => In c s /\ isWhiteSpace c = false)) (splitWhite s inRun).
Proof.
  revert inRun. induction s as [| c rest IH]; intros inRun; simpl.
  - repeat constructor.
  - assert (Hrest : forall b,
      Forall (Forall (fun x => (c = x \/ In x rest) /\ isWhiteSpace x = false))
             (splitWhite rest b)).
    { intros b. eapply Forall_impl; [| apply (IH b)].
      intros piece Hp. eapply Forall_impl; [| exact Hp].
      intros x [Hx Hw]. auto. }
    destruct (isWhiteSpace c) eqn:E.
    + destruct inRun; [apply Hrest |].
      constructor; [constructor | apply Hrest].
    + specialize (Hrest false).
      destruct (splitWhite rest false) as [| piece pieces].
      * repeat constructor; auto.
      * inversion Hrest; subst. constructor; [| assumption].
        constructor; auto.
Qed.

Lemma replaceNonAlnum_chars (s : jsstring) (c : Z) :
  In c (replaceNonAlnum s) -> isLowerAlnum c || isWhiteSpace c = true.
Proof.
  unfold replaceNonAlnum. rewrite in_map_iff. intros (x & <- & _).
  destruct (isLowerAlnum x || isWhiteSpace x) eqn:E; [exact E | reflexivity].
Qed.

(** Every token consists of lower-case letters and digits. *)
Lemma tokenize_chars (text : jsstring) :
  Forall (Forall (fun c => isLowerAlnum c = true)) (tokenize text).
Proof.
  unfold tokenize. apply Forall_forall. intros word Hw.
  apply filter_In in Hw. destruct Hw as [Hw _].
  pose proof (splitWhite_chars (replaceNonAlnum (toLowerCase text)) false) as H.
  rewrite Forall_forall in H. specialize (H word Hw).
  eapply Forall_impl; [| exact H].
  intros c [Hc Hws]. apply replaceNonAlnum_chars in Hc.
  rewrite Hws, orb_false_r in Hc. exact Hc.
Qed.

Lemma toLowerCase_fixed (k : jsstring) :
  Forall (fun c => isLowerAlnum c = true) k -> toLowerCase k = k.
Proof.
  unfold toLowerCase. induction 1 as [| c k Hc _ IH]; simpl.
  - reflexivity.
  - rewrite IH. unfold lowerUnit, isLowerAlnum in *.
    destruct ((65 <=? c) && (c <=? 90)) eqn:E1; [exfalso; lia |].
    destruct (c =? 8490) eqn:E2; [exfalso; lia |].
    destruct (c =? 304) eqn:E3; [exfalso; lia |].
    reflexivity.
Qed.

Lemma setOwn_keys (o : jsobject) (w k : jsstring) (v : jsval) :
  In k (map fst (setOwn o w v)) -> In k (map fst o) \/ k = w.
Proof.
  induction o as [| [a x] o IH]; simpl.
  - intros [<- | []]. now right.
  - destruct (eqb a w); simpl; intros [<- | H]; auto.
    destruct (IH H); auto.
Qed.

Lemma countWords_keys (ws : list jsstring) (k : jsstring) :
  In k (map fst (countWords ws)) -> In k ws.
Proof.
  unfold countWords. induction ws as [| w ws IH] using rev_ind; simpl.
  - contradiction.
  - rewrite fold_left_app. simpl. intros H.
    apply setOwn_keys in H. apply in_or_app.
    destruct H as [H | ->]; [left; auto | right; now left].
Qed.

Lemma entries_keys (o : jsobject) (e : jsstring * jsval) :
  In e (entries o) -> In (fst e) (map fst o).
Proof.
  unfold entries. rewrite in_flat_map. intros (k & Hk & He).
  destruct (getOwn o k); simpl in He; [| contradiction].
  destruct He as [<- | []]. simpl.
  now apply (Permutation_in _ (keyOrder_perm (map fst o))).
Qed.

(** The keywords are tokens of the text, hence in lower case:
    [categorizeDocument] finds them as they are. *)
Lemma extractKeywords_lower (text : jsstring) (maxKeywords : nat) :
  Forall (fun k => In k (tokenize text) /\ toLowerCase k = k)
         (extractKeywords text maxKeywords).
Proof.
  apply Forall_forall. intros k Hk. unfold extractKeywords in Hk.
  apply in_map_iff in Hk. destruct Hk as (e & <- & He).
  assert (Hin : In e (sort byCount (entries (countWords (tokenize text))))).
  { rewrite <- (firstn_skipn maxKeywords). apply in_or_app. now left. }
  apply (Permutation_in _ (sort_perm _ _)) in Hin.
  apply entries_keys, countWords_keys in Hin.
  split; [exact Hin |].
  apply toLowerCase_fixed.
  pose proof (tokenize_chars text) as H. rewrite Forall_forall in H. auto.
Qed.

End TokenShape.

Lemma StronglySorted_weaken {A : Type} (R R' : A -> A -> Prop) (l : list A) :
  (forall a b, R a b -> R' a b) -> StronglySorted R l -> StronglySorted R' l.
Proof.
  intros H. induction 1 as [| x l Hs IH Hx]; constructor.
  - exact IH.
  - eapply Forall_impl; [| exact Hx]. intros b. apply H.
Qed.

(** C7, with the order of ties as the frequency object gives it.  Keyword
    extraction ranks the distinct tokens by falling number of occurrences and
    keeps the first [maxKeywords] (10 by default).  Tokens that occur equally
    often keep the key order of the frequency object: the tokens that are
    array indices in ascending numeric order, then the other tokens in
    first-seen order; when no token is an array index this is the first-seen
    order.  The text of the example gives [banana], [apple], [cherry].  (The
    token [constructor], which the frequency object inherits, is excluded.) *)
Theorem keywords_ranked_by_frequency (text : jsstring) (maxKeywords : nat) :
  ~ In (str "constructor") (Keywords.tokenize text) ->
  let words := Keywords.tokenize text in
  let count := Spec.occurrences words in
  let distinct := Spec.firstSeen words in
  exists ranked indices,
    Keywords.extractKeywords text maxKeywords = firstn maxKeywords ranked
    /\ Permutation ranked distinct
    /\ StronglySorted (fun a b => count b <= count a) ranked
    /\ (forall c, filter (fun w => count w =? c) ranked
                  = filter (fun w => count w =? c) (Keywords.keyOrder distinct))
    /\ Keywords.keyOrder distinct
       = indices ++ filter (fun k => negb (Spec.isIndexKey k)) distinct
    /\ Permutation indices (filter Spec.isIndexKey distinct)
    /\ StronglySorted Spec.indexLe indices
    /\ (Forall (fun w => Keywords.arrayIndex w = None) words ->
        forall c, filter (fun w => count w =? c) ranked
                  = filter (fun w => count w =? c) distinct)
    /\ Keywords.defaultMaxKeywords = 10%nat
    /\ Keywords.extractKeywords (str "apple apple banana banana banana cherry")
                                Keywords.defaultMaxKeywords
       = [str "banana"; str "apple"; str "cherry"].
Proof.
  intros Hc words count distinct.
  destruct (keyOrder_spec distinct) as (indices & Hk & Hp & Hs).
  set (byKey := fun a b : jsstring => (- count a) - (- count b)).
  assert (Hsort : Keywords.sort (fun a b => count b - count a) (Keywords.keyOrder distinct)
                  = Keywords.sort byKey (Keywords.keyOrder distinct)).
  { apply sort_ext_in. intros a b _ _. unfold byKey. lia. }
  assert (Hties : forall c,
             filter (fun w => count w =? c) (Keywords.sort byKey (Keywords.keyOrder distinct))
             = filter (fun w => count w =? c) (Keywords.keyOrder distinct)).
  { intros c.
    rewrite (filter_ext (fun w => count w =? c) (fun w => - count w =? - c))
      by (intros w; destruct (count w =? c) eqn:E; symmetry;
          [apply Z.eqb_eq in E; apply Z.eqb_eq; lia
          | apply Z.eqb_neq in E; apply Z.eqb_neq; lia]).
    rewrite (filter_ext (fun w => count w =? c) (fun w => - count w =? - c))
      by (intros w; destruct (count w =? c) eqn:E; symmetry;
          [apply Z.eqb_eq in E; apply Z.eqb_eq; lia
          | apply Z.eqb_neq in E; apply Z.eqb_neq; lia]).
    apply (sort_stable (fun w => - count w)). }
  exists (Keywords.sort byKey (Keywords.keyOrder distinct)), indices.
  split; [| split; [| split; [| split; [| split; [| split; [| split; [| split]]]]]]].
  - rewrite <- Hsort. now apply extractKeywords_ranked.
  - rewrite sort_perm. apply keyOrder_perm.
  - apply (StronglySorted_weaken (fun a b => - count a <= - count b)).
    + intros a b. lia.
    + apply (sort_sorted (fun w => - count w)).
  - exact Hties.
  - exact Hk.
  - exact Hp.
  - exact Hs.
  - intros Hplain c. rewrite Hties.
    rewrite keyOrder_plain; [reflexivity |].
    apply Forall_forall. intros w Hw.
    rewrite Forall_forall in Hplain. apply Hplain.
    now apply firstSeen_In.
  - split; [reflexivity | vm_compute; reflexivity].
Qed.

Lemma keywords_ranked_by_frequency_witness :
  let text := str "apple apple banana banana banana cherry" in
  ~ In (str "constructor") (Keywords.tokenize text)
  /\ exists ranked,
       Keywords.extractKeywords text 10 = firstn 10 ranked
       /\ Permutation ranked (Spec.firstSeen (Keywords.tokenize text)).
Proof.
  cbv zeta.
  assert (H : ~ In (str "constructor")
                (Keywords.tokenize (str "apple apple banana banana banana cherry"))).
  { vm_compute. intros H.
    repeat (destruct H as [H | H]; [discriminate H |]). exact H. }
  split; [exact H |].
  destruct (keywords_ranked_by_frequency
              (str "apple apple banana banana banana cherry") 10 H)
    as (ranked & indices & H1 & H2 & _).
  exists ranked. split; assumption.
Defined.

(** C7 does not hold for ties with a numeral: [banana] is seen before
    [2024], each occurs once, and [2024] is ranked first. *)
Lemma keywords_tie_counterexample :
  let text := str "banana 2024" in
  Keywords.tokenize text = [str "banana"; str "2024"]
  /\ Spec.firstSeen (Keywords.tokenize text) = [str "banana"; str "2024"]
  /\ Spec.occurrences (Keywords.tokenize text) (str "banana") = 1
  /\ Spec.occurrences (Keywords.tokenize text) (str "2024") = 1
  /\ Keywords.extractKeywords text Keywords.defaultMaxKeywords
     = [str "2024"; str "banana"].
Proof. cbv zeta. repeat split; vm_compute; reflexivity. Qed.

(* ================================================================== *)
(** * The category of a keyword list *)
(* ================================================================== *)

(** C8, for keywords taken in lower case.  Categorisation lowers the
    keywords, scores each of the six categories (technical, business, legal,
    academic, creative, administrative) by the number of its words that are
    among the lowered keywords, and returns the category of highest score that
    is not zero, the earlier one in the table when scores tie; it returns
    [general] when every score is zero, which is when the lowered keywords
    share no word with any category.  The keywords that [extractKeywords]
    returns are in lower case already. *)
Theorem categorize_by_score (keywords : list jsstring) :
  let lowered := map Keywords.toLowerCase keywords in
  let score := Spec.presentCount lowered in
  map Keywords.cat_name Keywords.categories
  = map str ["technical"; "business"; "legal"; "academic"; "creative";
             "administrative"]%string
  /\ ((forall c, In c Keywords.categories -> score c = 0) ->
      Keywords.categorizeDocument keywords = str "general")
  /\ ((exists c, In c Keywords.categories /\ score c <> 0) ->
      exists before winner after,
        Keywords.categories = before ++ winner :: after
        /\ Keywords.categorizeDocument keywords = Keywords.cat_name winner
        /\ 0 < score winner
        /\ (forall c, In c before -> score c < score winner)
        /\ (forall c, In c after -> score c <= score winner))
  /\ ((forall c w, In c Keywords.categories -> In w (Keywords.cat_words c) ->
                   ~ In w lowered) ->
      Keywords.categorizeDocument keywords = str "general")
  /\ (forall text maxKeywords,
        map Keywords.toLowerCase (Keywords.extractKeywords text maxKeywords)
        = Keywords.extractKeywords text maxKeywords).
Proof.
  intros lowered score.
  assert (Hscore : forall c, Keywords.scoreOf lowered c = score c)
    by (intros c; apply scoreOf_presentCount).
  assert (Hzero : (forall c, In c Keywords.categories -> score c = 0) ->
                  Keywords.categorizeDocument keywords = str "general").
  { intros Hall. unfold Keywords.categorizeDocument. fold lowered.
    destruct (categorize_loop lowered Keywords.categories
                (Keywords.mkMatch (str "general") 0))
      as [[Hr _] | (b & w & a & Hc & _ & Hlt & _)].
    - cbv zeta in Hr. now rewrite Hr.
    - simpl in Hlt. rewrite Hscore, Hall in Hlt; [lia |].
      rewrite Hc. apply in_or_app. right. now left. }
  split; [reflexivity |]. split; [exact Hzero |]. split; [| split].
  - intros (c & Hin & Hnz).
    unfold Keywords.categorizeDocument. fold lowered.
    destruct (categorize_loop lowered Keywords.categories
                (Keywords.mkMatch (str "general") 0))
      as [[_ Hle] | (b & w & a & Hc & Hr & Hlt & Hb & Ha)].
    + specialize (Hle c Hin). simpl in Hle. rewrite Hscore in Hle.
      pose proof (scoreOf_nonneg lowered c) as Hn. rewrite Hscore in Hn. lia.
    + exists b, w, a. cbv zeta in Hr. rewrite Hr. simpl in Hlt.
      rewrite <- !Hscore. repeat split; auto.
      * intros x Hx. rewrite <- !Hscore. auto.
      * intros x Hx. rewrite <- !Hscore. auto.
  - intros Hdisj. apply Hzero. intros c Hc.
    apply presentCount_disjoint. intros w Hw. now apply (Hdisj c w).
  - intros text maxKeywords.
    pose proof (extractKeywords_lower text maxKeywords) as H.
    induction H as [| k ks [_ Hk] _ IH]; simpl; [reflexivity |].
    now rewrite Hk, IH.
Qed.

Lemma categorize_by_score_witness :
  (forall c, In c Keywords.categories ->
             Spec.presentCount (map Keywords.toLowerCase [str "physics"; str "Chemistry"]) c = 0)
  /\ Keywords.categorizeDocument [str "physics"; str "Chemistry"] = str "general".
Proof.
  assert (H : forall c, In c Keywords.categories ->
     Spec.presentCount (map Keywords.toLowerCase [str "physics"; str "Chemistry"]) c = 0).
  { intros c Hc. simpl in Hc.
    repeat (destruct Hc as [<- | Hc]; [vm_compute; reflexivity |]).
    contradiction. }
  split; [exact H |].
  exact (proj1 (proj2 (categorize_by_score [str "physics"; str "Chemistry"])) H).
Defined.

(** C8 read on the keywords as they are given does not hold: [CODE] is in
    no category's word list, every category has none of its words among the
    keywords, and the category is [technical]. *)
Lemma categorize_counterexample :
  let keywords := [str "CODE"] in
  (forall c w, In c Keywords.categories -> In w (Keywords.cat_words c) ->
               ~ In w keywords)
  /\ (forall c, In c Keywords.categories -> Spec.presentCount keywords c = 0)
  /\ Keywords.categorizeDocument keywords = str "technical"
  /\ Keywords.categorizeDocument keywords <> str "general".
Proof.
  cbv zeta. split; [| split; [| split]].
  - intros c w Hc Hw [Hk | []]. subst w. simpl in Hc.
    repeat (destruct Hc as [<- | Hc];
            [vm_compute in Hw;
             repeat (destruct Hw as [Hw | Hw]; [discriminate Hw |]);
             contradiction |]).
    contradiction.
  - intros c Hc. simpl in Hc.
    repeat (destruct Hc as [<- | Hc]; [vm_compute; reflexivity |]).
    contradiction.
  - vm_compute. reflexivity.
  - vm_compute. discriminate.
Qed.

(** Equal scores: the earlier category of the table wins. *)
Example categorize_tie :
  Keywords.categorizeDocument [str "sales"; str "budget"; str "code"; str "error"]
  = str "technical"
  /\ Keywords.categorizeDocument [str "sales"; str "budget"; str "code"]
     = str "business".
Proof. split; vm_compute; reflexivity. Qed.

(* ================================================================== *)
(** * Properties of the render phase *)
(* ================================================================== *)

Section RenderFacts.

Import Render Spec.

Variable measurable : jsstring -> bool.
Variable drawable : jsstring -> bool.

Lemma drawLines_ok (lines : list jsstring) (page : Page) :
  Forall (fun t => measurable t = true /\ drawable t = true) lines ->
  exists ops,
    drawLines drawable page lines
    = Some (mkPage (pg_width page) (pg_height page) (pg_ops page ++ ops)).
Proof.
  intros H. revert page.
  induction H as [| line lines [_ Hd] _ IH]; intros page; simpl.
  - exists []. rewrite app_nil_r. now destruct page.
  - unfold drawText. rewrite Hd. simpl.
    destruct (IH (mkPage (pg_width page) (pg_height page)
                         (pg_ops page ++ [Text line 8 Helvetica muted])))
      as (ops & ->).
    simpl. rewrite <- app_assoc. eauto.
Qed.

Lemma drawCard_ok (a : Analysis) (page : Page) (i : nat)
      (cs : list Card) (card : Card) (color : Color) (labelText : jsstring) :
  an_cards a = Some cs ->
  nth_error cs i = Some card ->
  nth_error positionColors i = Some color ->
  nth_error positionLabels i = Some labelText ->
  fontsAccept measurable drawable (cardTexts (labelText, card)) ->
  exists ops,
    drawCard measurable drawable a page i
    = Some (mkPage (pg_width page) (pg_height page) (pg_ops page ++ ops)).
Proof.
  intros Hcs Hcard Hcolor Hlabel Hfonts.
  unfold fontsAccept, cardTexts in Hfonts.
  apply Forall_cons_iff in Hfonts. destruct Hfonts as [[Hm1 Hd1] Hrest].
  apply Forall_cons_iff in Hrest. destruct Hrest as [[Hm2 Hd2] Hlines].
  unfold drawCard. rewrite Hcs. cbn [obind pg_width pg_height pg_ops].
  rewrite Hcolor. cbn [obind pg_width pg_height pg_ops].
  rewrite Hlabel. cbn [obind pg_width pg_height pg_ops].
  unfold widthOfTextAtSize, drawText, drawRectangle.
  rewrite Hm1, Hd1. cbn [obind pg_width pg_height pg_ops].
  rewrite Hcard. cbn [obind pg_width pg_height pg_ops].
  rewrite Hm2, Hd2. cbn [obind pg_width pg_height pg_ops].
  match goal with
  | |- exists _, drawLines _ ?p _ = _ =>
      destruct (drawLines_ok (firstn 5 (wrapText (meaning card) 22)) p Hlines)
        as (ops & ->)
  end.
  simpl. rewrite <- !app_assoc. eauto.
Qed.

(** The cover is composed when the fonts accept its texts: one page of the
    requested size, with the certification text, or its fallback, on it. *)
Lemma createCoverPage_ok (a : Analysis) (c0 c1 c2 : Card) (w h : Z) :
  an_cards a = Some [c0; c1; c2] ->
  fontsAccept measurable drawable (coverTexts a) ->
  exists cover,
    createCoverPage measurable drawable a w h = Some [cover]
    /\ pg_width cover = w /\ pg_height cover = h
    /\ In (Text (orElse (an_certification a) (str "Certified Chaotic Neutral"))
                12 HelveticaBold primary)
          (pg_ops cover).
Proof.
  intros Hcs Hfonts.
  assert (Htexts : coverTexts a
    = [ str "PDF TAROT READING";
        truncateText (orElse (an_title a) (str "Untitled Document")) 50 ]
      ++ (cardTexts (str "PAST", c0)
          ++ cardTexts (str "PRESENT", c1)
          ++ cardTexts (str "FUTURE", c2))
      ++ [ str "AURA: " ++ match an_aura a with Some x => x | None => str "undefined" end;
           orElse (an_certification a) (str "Certified Chaotic Neutral");
           str "pdftarot.app" ]).
  { unfold coverTexts. rewrite Hcs.
    change (flat_map cardTexts (combine positionLabels [c0; c1; c2]))
      with (cardTexts (str "PAST", c0) ++ cardTexts (str "PRESENT", c1)
            ++ cardTexts (str "FUTURE", c2) ++ []).
    now rewrite app_nil_r. }
  unfold fontsAccept in Hfonts. rewrite Htexts in Hfonts.
  apply Forall_app in Hfonts. destruct Hfonts as [Hhead Hfonts].
  apply Forall_app in Hfonts. destruct Hfonts as [Hcards Htail].
  apply Forall_app in Hcards. destruct Hcards as [H0 Hcards].
  apply Forall_app in Hcards. destruct Hcards as [H1 H2].
  apply Forall_cons_iff in Hhead. destruct Hhead as [[Hm1 Hd1] Hhead].
  apply Forall_cons_iff in Hhead. destruct Hhead as [[Hm2 Hd2] _].
  apply Forall_cons_iff in Htail. destruct Htail as [[Hm3 Hd3] Htail].
  apply Forall_cons_iff in Htail. destruct Htail as [[Hm4 Hd4] Htail].
  apply Forall_cons_iff in Htail. destruct Htail as [[Hm5 Hd5] _].
  unfold createCoverPage, widthOfTextAtSize, drawText, drawRectangle.
  rewrite Hm1, Hd1. cbn [obind pg_width pg_height pg_ops].
  rewrite Hm2, Hd2. cbn [obind pg_width pg_height pg_ops].
  match goal with
  | |- context [drawCard _ _ a ?p 0] =>
      destruct (drawCard_ok a p 0 _ c0 pastColor (str "PAST") Hcs
                  eq_refl eq_refl eq_refl H0) as (ops0 & ->)
  end.
  cbn [obind pg_width pg_height pg_ops].
  match goal with
  | |- context [drawCard _ _ a ?p 1] =>
      destruct (drawCard_ok a p 1 _ c1 presentColor (str "PRESENT") Hcs
                  eq_refl eq_refl eq_refl H1) as (ops1 & ->)
  end.
  cbn [obind pg_width pg_height pg_ops].
  match goal with
  | |- context [drawCard _ _ a ?p 2] =>
      destruct (drawCard_ok a p 2 _ c2 futureColor (str "FUTURE") Hcs
                  eq_refl eq_refl eq_refl H2) as (ops2 & ->)
  end.
  cbn [obind pg_width pg_height pg_ops].
  rewrite Hm3, Hd3. cbn [obind pg_width pg_height pg_ops].
  rewrite Hm4, Hd4. cbn [obind pg_width pg_height pg_ops].
  rewrite Hm5, Hd5. cbn [obind pg_width pg_height pg_ops].
  eexists. split; [reflexivity |]. cbn [pg_width pg_height pg_ops].
  split; [reflexivity | split; [reflexivity |]].
  apply in_or_app. left. apply in_or_app. right. now left.
Qed.

Lemma copyPages_from (pre doc : PDFDocument) :
  copyPages (pre ++ doc) (seq (List.length pre) (List.length doc)) = Some doc.
Proof.
  revert pre. induction doc as [| p doc IH]; intros pre; simpl.
  - reflexivity.
  - rewrite nth_error_app2, Nat.sub_diag by lia. simpl.
    replace (pre ++ p :: doc) with ((pre ++ [p]) ++ doc)
      by (now rewrite <- app_assoc).
    replace (S (List.length pre)) with (List.length (pre ++ [p]))
      by (rewrite length_app; simpl; lia).
    now rewrite IH.
Qed.

(** Copying a document at all its page indices gives its pages, in order. *)
Lemma copyPages_all (doc : PDFDocument) :
  copyPages doc (getPageIndices doc) = Some doc.
Proof. exact (copyPages_from [] doc). Qed.

Lemma addPages_app (pages doc : PDFDocument) :
  fold_left addPage pages doc = doc ++ pages.
Proof.
  revert doc. induction pages as [| p pages IH]; intros doc; simpl.
  - now rewrite app_nil_r.
  - rewrite IH. unfold addPage. now rewrite <- app_assoc.
Qed.

(** The merge: the cover, then the pages of the original. *)
Lemma renderMergedPdf_ok (a : Analysis) (first : Page) (rest : PDFDocument)
      (cover : Page) :
  createCoverPage measurable drawable a (pg_width first) (pg_height first)
  = Some [cover] ->
  renderMergedPdf measurable drawable (Saved (first :: rest)) a
  = ([LoadOriginal; ComposeCover; MergePages; SaveMerged],
     Some (Saved (cover :: first :: rest))).
Proof.
  intros Hcover. unfold renderMergedPdf.
  cbn [emit lift load bind ret nth_error app].
  rewrite Hcover. cbn [bind app copyPages nth_error obind].
  rewrite copyPages_all. cbn [bind app].
  rewrite addPages_app. reflexivity.
Qed.

End RenderFacts.

Section PipelineFacts.

Import Render Spec.

Variable measurable : jsstring -> bool.
Variable drawable : jsstring -> bool.

Ltac obind_step :=
  match goal with
  | |- obind ?o _ = Some _ -> _ =>
      destruct o eqn:?; cbn [obind]; [| discriminate]
  end.

Lemma drawText_dims (page page' : Page) (text : jsstring) (size : Z)
      (font : Font) (color : Color) :
  drawText drawable page text size font color = Some page' ->
  pg_width page' = pg_width page /\ pg_height page' = pg_height page.
Proof.
  unfold drawText. destruct (drawable text); [| discriminate].
  intros [= <-]. split; reflexivity.
Qed.

Lemma drawLines_dims (lines : list jsstring) :
  forall page page',
    drawLines drawable page lines = Some page' ->
    pg_width page' = pg_width page /\ pg_height page' = pg_height page.
Proof.
  induction lines as [| line rest IH]; intros page page'; simpl.
  - intros [= <-]. split; reflexivity.
  - obind_step. intros H. apply IH in H.
    match goal with
    | E : drawText _ _ _ _ _ _ = Some _ |- _ => apply drawText_dims in E; destruct E
    end.
    destruct H. split; congruence.
Qed.

Lemma drawCard_dims (a : Analysis) (page page' : Page) (i : nat) :
  drawCard measurable drawable a page i = Some page' ->
  pg_width page' = pg_width page /\ pg_height page' = pg_height page.
Proof.
  unfold drawCard. repeat obind_step. intros H.
  apply drawLines_dims in H.
  repeat match goal with
         | E : drawText _ _ _ _ _ _ = Some _ |- _ =>
             apply drawText_dims in E; destruct E
         end.
  destruct H. cbn [drawRectangle pg_width pg_height] in *. split; congruence.
Qed.

(** Whenever the cover is composed, it is one page of the requested size. *)
Lemma createCoverPage_shape (a : Analysis) (w h : Z) (doc : PDFDocument) :
  createCoverPage measurable drawable a w h = Some doc ->
  exists cover, doc = [cover] /\ pg_width cover = w /\ pg_height cover = h.
Proof.
  unfold createCoverPage. repeat obind_step. intros [= <-].
  eexists. split; [reflexivity |].
  repeat match goal with
         | E : drawText _ _ _ _ _ _ = Some _ |- _ =>
             apply drawText_dims in E; destruct E
         | E : drawCard _ _ _ _ _ = Some _ |- _ =>
             apply drawCard_dims in E; destruct E
         end.
  cbn [drawRectangle pg_width pg_height] in *. split; congruence.
Qed.

(** The three ways in which [renderMergedPdf] ends. *)
Lemma renderMergedPdf_outcomes (file : PdfBuffer) (a : Analysis) :
  (renderMergedPdf measurable drawable file a = ([LoadOriginal], None)
   /\ (file = Unloadable \/ file = Saved []))
  \/ (exists first rest,
        file = Saved (first :: rest)
        /\ createCoverPage measurable drawable a (pg_width first) (pg_height first) = None
        /\ renderMergedPdf measurable drawable file a
           = ([LoadOriginal; ComposeCover], None))
  \/ (exists cover first rest,
        file = Saved (first :: rest)
        /\ createCoverPage measurable drawable a (pg_width first) (pg_height first)
           = Some [cover]
        /\ pg_width cover = pg_width first /\ pg_height cover = pg_height first
        /\ renderMergedPdf measurable drawable file a
           = ([LoadOriginal; ComposeCover; MergePages; SaveMerged],
              Some (Saved (cover :: first :: rest)))).
Proof.
  destruct file as [| [| first rest]].
  - left. split; [reflexivity | now left].
  - left. split; [reflexivity | now right].
  - right.
    destruct (createCoverPage measurable drawable a (pg_width first) (pg_height first))
      as [doc |] eqn:E.
    + right. destruct (createCoverPage_shape _ _ _ _ E) as (cover & -> & Hw & Hh).
      exists cover, first, rest. repeat split; try assumption.
      now apply renderMergedPdf_ok.
    + left. exists first, rest. repeat split; try assumption.
      unfold renderMergedPdf. cbn [emit lift load bind ret nth_error app].
      rewrite E. reflexivity.
Qed.

(** What the handler does with an analysis that passes its validation. *)
Lemma handler_valid (file : PdfBuffer) (a : Analysis) (cs : list Card) :
  an_cards a = Some cs -> List.length cs = 3%nat -> truthy (an_aura a) = true ->
  handler measurable drawable (mkRequest true (Some file) (Parsed a))
  = match renderMergedPdf measurable drawable file a with
    | (log, Some body) => (LogProcessing :: log ++ [LogGenerated], SendPdf body)
    | (log, None) => (LogProcessing :: log, Status500 (str "Failed to render PDF"))
    end.
Proof.
  intros Hcs Hlen Haura. unfold handler.
  cbn [req_post req_file req_analysis negb]. rewrite Hcs, Haura.
  unfold JS.length. rewrite Hlen. cbn [negb Z.of_nat Z.eqb Pos.of_succ_nat Pos.succ Pos.eqb].
  cbn [bind emit].
  destruct (renderMergedPdf measurable drawable file a) as [log [body |]];
    cbn [bind emit ret catch500 app]; [| reflexivity].
  reflexivity.
Qed.

(** What it does with one that does not. *)
Lemma handler_invalid (file : PdfBuffer) (a : Analysis) :
  (match an_cards a with
   | None => true
   | Some cards => negb (length cards =? 3)
   end = true
   \/ truthy (an_aura a) = false) ->
  exists message,
    handler measurable drawable (mkRequest true (Some file) (Parsed a))
    = ([], Status400 message).
Proof.
  intros H. unfold handler. cbn [req_post req_file req_analysis negb].
  destruct (match an_cards a with
            | None => true
            | Some cards => negb (length cards =? 3)
            end) eqn:E.
  - eexists. reflexivity.
  - destruct H as [H | H]; [discriminate |]. rewrite H. eexists. reflexivity.
Qed.

End PipelineFacts.

Section CoverRefused.

Import Render Spec.

Variable measurable : jsstring -> bool.
Variable drawable : jsstring -> bool.




End CoverRefused.

(** C2, as the handlers check it.  Both render handlers validate an analysis
    that parses to a value other than [null] before any composition work:
    when the cards are missing or are not exactly 3, or when the aura is
    missing or empty, the response is a 400 and nothing has been logged,
    loaded, composed or merged.  Nothing else is validated: with 3 cards and
    an aura the request goes on to the renderer, whatever the positions of
    the cards and the certification are.  An analysis that parses to [null]
    is another input of the handlers ([Render.ParsedNull]), of which this
    statement says nothing. *)
Theorem render_validates_cards_and_aura
    (measurable drawable : jsstring -> bool)
    (renderer : Render.PdfBuffer -> Render.Analysis -> Render.M Render.PdfBuffer)
    (file : Render.PdfBuffer) (a : Render.Analysis) :
  let req := Render.mkRequest true (Some file) (Render.Parsed a) in
  ((Render.an_cards a = None
    \/ (exists cs, Render.an_cards a = Some cs /\ List.length cs <> 3%nat)
    \/ Render.an_aura a = None
    \/ Render.an_aura a = Some []) ->
   exists message,
     Render.handler measurable drawable req = ([], Render.Status400 message)
     /\ Render.renderRoute renderer req = ([], Render.Status400 message))
  /\ ((exists cs, Render.an_cards a = Some cs /\ List.length cs = 3%nat) ->
      (exists c s, Render.an_aura a = Some (c :: s)) ->
      exists log r log' r',
        Render.handler measurable drawable req = (Render.LogProcessing :: log, r)
        /\ Render.renderRoute renderer req = (Render.LogProcessing :: log', r')
        /\ (forall message, r <> Render.Status400 message)
        /\ (forall message, r' <> Render.Status400 message)).
Proof.
  cbv zeta. split.
  - intros [Hc | [(cs & Hc & Hlen) | [Ha | Ha]]];
      unfold Render.handler, Render.renderRoute; simpl.
    + rewrite Hc. simpl. eauto.
    + rewrite Hc.
      assert (E : (length cs =? 3) = false)
        by (apply Z.eqb_neq; unfold length; lia).
      rewrite E. simpl. eauto.
    + destruct (Render.an_cards a) as [cs |]; [| simpl; eauto].
      destruct (negb (length cs =? 3)); [simpl; eauto |].
      rewrite Ha. simpl. eauto.
    + destruct (Render.an_cards a) as [cs |]; [| simpl; eauto].
      destruct (negb (length cs =? 3)); [simpl; eauto |].
      rewrite Ha. simpl. eauto.
  - intros (cs & Hc & Hlen) (c & s & Ha).
    assert (E : (length cs =? 3) = true)
      by (apply Z.eqb_eq; unfold length; lia).
    unfold Render.handler, Render.renderRoute. simpl.
    rewrite Hc, E, Ha. simpl.
    destruct (Render.renderMergedPdf measurable drawable file a) as [l [buf |]];
      destruct (renderer file a) as [l' [buf' |]]; simpl;
      do 4 eexists; (split; [reflexivity |]); (split; [reflexivity |]);
      split; discriminate.
Qed.

Lemma render_validates_cards_and_aura_witness :
  let a := Render.mkAnalysis (Some (str "Report")) None
             (Some (str "Officially Overthought")) (Some []) in
  exists message,
    Render.handler (fun _ => true) (fun _ => true)
      (Render.mkRequest true (Some Render.Unloadable) (Render.Parsed a))
    = ([], Render.Status400 message).
Proof.
  cbv zeta.
  destruct (render_validates_cards_and_aura (fun _ => true) (fun _ => true)
              (fun _ _ => Render.throw) Render.Unloadable
              (Render.mkAnalysis (Some (str "Report")) None
                 (Some (str "Officially Overthought")) (Some [])))
    as [H _].
  destruct H as (message & H & _).
  - right. right. left. reflexivity.
  - exists message. exact H.
Defined.

(** C2 does not hold for the positions and the certification: three
    cards that all have the position [past] and no certification are accepted
    and rendered. *)
Lemma render_validation_counterexample :
  let card := mkCard (str "past") (str "The Procrastinator")
                     (str "It has known neglect, yet persevered.") in
  let a := Render.mkAnalysis (Some (str "Report")) (Some (str "Focus Goblin")) None
                             (Some [card; card; card]) in
  let original := [Render.mkPage 612 792 [Render.Uploaded [37; 80; 68; 70]]] in
  map position [card; card; card] = [str "past"; str "past"; str "past"]
  /\ Render.an_certification a = None
  /\ exists cover,
       Render.handler (fun _ => true) (fun _ => true)
         (Render.mkRequest true (Some (Render.Saved original)) (Render.Parsed a))
       = ([Render.LogProcessing; Render.LoadOriginal; Render.ComposeCover;
           Render.MergePages; Render.SaveMerged; Render.LogGenerated],
          Render.SendPdf (Render.Saved (cover :: original))).
Proof.
  cbv zeta. split; [reflexivity | split; [reflexivity |]].
  eexists. vm_compute. reflexivity.
Qed.

Lemma three_cards (cs : list Card) :
  List.length cs = 3%nat -> exists c0 c1 c2, cs = [c0; c1; c2].
Proof.
  destruct cs as [| c0 [| c1 [| c2 [| c3 cs]]]]; simpl; try discriminate.
  intros _. now exists c0, c1, c2.
Qed.




(** C10.  An analysis whose certification is missing or empty passes the
    validation of both handlers and is rendered: the response is the merged
    document and its cover carries the stamp text [Certified Chaotic
    Neutral]. *)
Theorem missing_certification_renders_fallback
    (measurable drawable : jsstring -> bool)
    (original : Render.PDFDocument) (a : Render.Analysis) (cs : list Card) :
  original <> [] ->
  Render.an_cards a = Some cs -> List.length cs = 3%nat ->
  Render.truthy (Render.an_aura a) = true ->
  Render.an_certification a = None \/ Render.an_certification a = Some [] ->
  Spec.fontsAccept measurable drawable (Spec.coverTexts a) ->
  let req := Render.mkRequest true (Some (Render.Saved original)) (Render.Parsed a) in
  exists cover log,
    Render.handler measurable drawable req
    = (log, Render.SendPdf (Render.Saved (cover :: original)))
    /\ In (Render.Text (str "Certified Chaotic Neutral") 12
                       Render.HelveticaBold Render.primary)
          (Render.pg_ops cover)
    /\ (forall renderer events body,
          renderer (Render.Saved original) a = (events, Some body) ->
          Render.renderRoute renderer req
          = (Render.LogProcessing :: events ++ [Render.LogGenerated],
             Render.SendPdf body)).
Proof.
  intros Hne Hcs Hlen Haura Hcert Hfonts req.
  destruct original as [| first rest]; [congruence |].
  destruct (three_cards cs Hlen) as (c0 & c1 & c2 & ->).
  destruct (createCoverPage_ok measurable drawable a c0 c1 c2
              (Render.pg_width first) (Render.pg_height first) Hcs Hfonts)
    as (cover & Hcover & _ & _ & Hin).
  pose proof (renderMergedPdf_ok measurable drawable a first rest cover Hcover) as Hm.
  exists cover. eexists. split; [| split].
  - unfold Render.handler, req. simpl Render.req_post. simpl Render.req_file.
    simpl Render.req_analysis. cbn [negb].
    rewrite Hcs, Haura.
    change (negb (length [c0; c1; c2] =? 3)) with false. cbn [negb].
    cbn [Render.bind Render.emit]. rewrite Hm. reflexivity.
  - destruct Hcert as [E | E]; rewrite E in Hin; exact Hin.
  - intros renderer events body Hr.
    unfold Render.renderRoute, req. simpl Render.req_file.
    simpl Render.req_analysis. cbv beta iota.
    rewrite Hcs, Haura.
    change (negb (length [c0; c1; c2] =? 3)) with false. cbn [negb].
    cbn [Render.bind Render.emit]. rewrite Hr.
    cbn [Render.bind Render.emit Render.ret Render.catch500 app].
    reflexivity.
Qed.

Lemma missing_certification_renders_fallback_witness :
  let card := mkCard (str "future") (str "The Rebirth")
                     (str "This document will be repurposed.") in
  let a := Render.mkAnalysis (Some (str "Report")) (Some (str "Tab Haunter"))
                             (Some []) (Some [card; card; card]) in
  let original := [Render.mkPage 612 792 [Render.Uploaded [1]]] in
  exists cover log,
    Render.handler (fun _ => true) (fun _ => true)
      (Render.mkRequest true (Some (Render.Saved original)) (Render.Parsed a))
    = (log, Render.SendPdf (Render.Saved (cover :: original)))
    /\ In (Render.Text (str "Certified Chaotic Neutral") 12
                       Render.HelveticaBold Render.primary)
          (Render.pg_ops cover).
Proof.
  cbv zeta.
  destruct (missing_certification_renders_fallback (fun _ => true) (fun _ => true)
    [Render.mkPage 612 792 [Render.Uploaded [1]]]
    (Render.mkAnalysis (Some (str "Report")) (Some (str "Tab Haunter")) (Some [])
       (Some (let card := mkCard (str "future") (str "The Rebirth")
                            (str "This document will be repurposed.") in
              [card; card; card])))
    _ ltac:(discriminate) eq_refl eq_refl eq_refl (or_intror eq_refl))
    as (cover & log & Hh & Hin & _).
  - apply Forall_forall. intros t _. split; reflexivity.
  - exists cover, log. split; assumption.
Defined.

(* ================================================================== *)
(** * Properties of the analyze phase *)
(* ================================================================== *)

Lemma firstn_short_eq (n : nat) (t1 t2 : jsstring) :
  (List.length t1 < n)%nat -> firstn n t1 = firstn n t2 -> t1 = t2.
Proof.
  intros Hlen H.
  rewrite (firstn_all2 (n := n) t1) in H by lia.
  assert (Hl : List.length (firstn n t2) = List.length t1) by now rewrite <- H.
  rewrite length_firstn in Hl.
  rewrite H. apply firstn_all2. lia.
Qed.

(** C1, for the fields that the seed decides.  Two analyze inputs with the
    same title and the same first 500 code units of text are both refused, the
    texts being then the same, or both give a reading, and the two readings
    have the same title, aura, certification and cards.  The keywords and the
    category of each reading are those of its whole text. *)
Theorem reading_seeded_by_title_and_prefix (ttl t1 t2 : jsstring) :
  firstn 500 t1 = firstn 500 t2 ->
  (exists message,
      Analyze.analyzeRoute (Some (Analyze.Extracted t1 ttl)) = Analyze.Status422 message
      /\ Analyze.analyzeRoute (Some (Analyze.Extracted t2 ttl)) = Analyze.Status422 message
      /\ t1 = t2)
  \/ (exists r1 r2,
        Analyze.analyzeRoute (Some (Analyze.Extracted t1 ttl)) = Analyze.Json r1
        /\ Analyze.analyzeRoute (Some (Analyze.Extracted t2 ttl)) = Analyze.Json r2
        /\ title r1 = ttl /\ title r2 = ttl
        /\ aura r1 = aura r2
        /\ certification r1 = certification r2
        /\ cards r1 = cards r2
        /\ keywords r1 = Keywords.extractKeywords t1 Keywords.defaultMaxKeywords
        /\ keywords r2 = Keywords.extractKeywords t2 Keywords.defaultMaxKeywords
        /\ category r1 = Keywords.categorizeDocument (keywords r1)
        /\ category r2 = Keywords.categorizeDocument (keywords r2)).
Proof.
  intros Hprefix.
  assert (Hseed : readingSeed ttl t1 = readingSeed ttl t2)
    by (unfold readingSeed, slice0; now rewrite Hprefix).
  unfold Analyze.analyzeRoute.
  destruct (length t1 <? 10) eqn:E1.
  - left. apply Z.ltb_lt in E1. unfold length in E1.
    assert (t1 = t2) by (apply (firstn_short_eq 500); [lia | assumption]).
    subst t2. eexists. repeat split.
    assert (E : (length t1 <? 10) = true) by (apply Z.ltb_lt; unfold length; lia).
    now rewrite E.
  - right. apply Z.ltb_ge in E1. unfold length in E1.
    destruct (length t2 <? 10) eqn:E2.
    { apply Z.ltb_lt in E2. unfold length in E2.
      assert (t2 = t1) by (apply (firstn_short_eq 500); [lia | now symmetry]).
      subst t2. lia. }
    destruct (generateReading_total ttl
                (Keywords.extractKeywords t1 Keywords.defaultMaxKeywords)
                (Keywords.categorizeDocument
                   (Keywords.extractKeywords t1 Keywords.defaultMaxKeywords)) t1)
      as (p1 & q1 & f1 & a1 & c1 & Hp1 & Hq1 & Hf1 & Ha1 & Hc1 & ->).
    destruct (generateReading_total ttl
                (Keywords.extractKeywords t2 Keywords.defaultMaxKeywords)
                (Keywords.categorizeDocument
                   (Keywords.extractKeywords t2 Keywords.defaultMaxKeywords)) t2)
      as (p2 & q2 & f2 & a2 & c2 & Hp2 & Hq2 & Hf2 & Ha2 & Hc2 & ->).
    cbv zeta in *. rewrite Hseed in *.
    assert (p1 = p2) by congruence. assert (q1 = q2) by congruence.
    assert (f1 = f2) by congruence. assert (a1 = a2) by congruence.
    assert (c1 = c2) by congruence. subst.
    do 2 eexists.
    split; [reflexivity |]. split; [reflexivity |].
    repeat split.
Qed.

Lemma reading_seeded_by_title_and_prefix_witness :
  let head := repeat 120 500 in
  let t1 := head ++ str " banana split" in
  let t2 := head ++ str " software" in
  firstn 500 t1 = firstn 500 t2
  /\ exists r1 r2,
       Analyze.analyzeRoute (Some (Analyze.Extracted t1 (str "Report"))) = Analyze.Json r1
       /\ Analyze.analyzeRoute (Some (Analyze.Extracted t2 (str "Report"))) = Analyze.Json r2
       /\ cards r1 = cards r2 /\ aura r1 = aura r2
       /\ certification r1 = certification r2.
Proof.
  cbv zeta.
  assert (H : firstn 500 (repeat 120 500 ++ str " banana split")
              = firstn 500 (repeat 120 500 ++ str " software"))
    by (vm_compute; reflexivity).
  split; [exact H |].
  destruct (reading_seeded_by_title_and_prefix (str "Report") _ _ H)
    as [(message & _ & _ & E) | (r1 & r2 & H1 & H2 & _ & _ & Ha & Hc & Hcs & _)].
  - exfalso. apply (f_equal (@List.length Z)) in E. vm_compute in E. discriminate E.
  - exists r1, r2. repeat split; assumption.
Defined.

(** C1 does not hold for the keywords and the category: two texts that
    agree on their first 500 code units, under the same title, give readings
    with other keywords and another category. *)
Lemma reading_prefix_counterexample :
  let head := repeat 120 500 in
  let t1 := head ++ str " banana split" in
  let t2 := head ++ str " software" in
  firstn 500 t1 = firstn 500 t2
  /\ exists r1 r2,
       Analyze.analyzeRoute (Some (Analyze.Extracted t1 (str "Report"))) = Analyze.Json r1
       /\ Analyze.analyzeRoute (Some (Analyze.Extracted t2 (str "Report"))) = Analyze.Json r2
       /\ keywords r1 = [head; str "banana"; str "split"]
       /\ keywords r2 = [head; str "software"]
       /\ category r1 = str "general"
       /\ category r2 = str "technical"
       /\ r1 <> r2.
Proof.
  cbv zeta. split; [vm_compute; reflexivity |].
  do 2 eexists.
  split; [vm_compute; reflexivity |].
  split; [vm_compute; reflexivity |].
  split; [vm_compute; reflexivity |].
  split; [vm_compute; reflexivity |].
  split; [vm_compute; reflexivity |].
  split; [vm_compute; reflexivity |].
  intros H. apply (f_equal category) in H. vm_compute in H. discriminate H.
Qed.

(* ================================================================== *)
(** * Further properties of the reading generator *)
(* ================================================================== *)

(** X1.  The seed that [hashCode] returns lies between 0 and 2^31, both
    included: the absolute value of the smallest 32-bit integer is reached, so
    the seed need not fit a signed 32-bit integer. *)
Theorem hashCode_bounds :
  (forall s, 0 <= hashCode s <= 2 ^ 31)
  /\ hashCode (str "polygenelubricants") = 2 ^ 31.
Proof.
  split; [exact hashCode_range | vm_compute; reflexivity].
Qed.

(** X2.  [generateReading] always returns a reading.  Its title, keywords and
    category are those it was given; its cards are three, for the positions
    past, present and future in this order, each with the name and the
    meaning of one entry of the deck of its position; its aura is the name of
    an entry of [AURAS] and its certification an entry of
    [CERTIFICATIONS]. *)
Theorem generateReading_shape (ttl : jsstring) (kws : list jsstring)
        (cat text : jsstring) :
  exists r pastCard presentCard futureCard,
    generateReading ttl kws cat text = Some r
    /\ title r = ttl /\ keywords r = kws /\ category r = cat
    /\ cards r = [ mkCard (str "past") (dc_name pastCard) (dc_meaning pastCard);
                   mkCard (str "present") (dc_name presentCard) (dc_meaning presentCard);
                   mkCard (str "future") (dc_name futureCard) (dc_meaning futureCard) ]
    /\ In pastCard Decks.past /\ In presentCard Decks.present
    /\ In futureCard Decks.future
    /\ In (aura r) (map au_name Decks.AURAS)
    /\ In (certification r) Decks.CERTIFICATIONS.
Proof.
  destruct (generateReading_total ttl kws cat text)
    as (p & q & f & a & c & Hp & Hq & Hf & Ha & Hc & Hr).
  cbv zeta in *.
  eexists. exists p, q, f. split; [exact Hr |]. cbn [title keywords category cards aura certification].
  repeat split; eauto using nth_error_In.
  apply in_map. eauto using nth_error_In.
Qed.

Lemma mod_8_of_40 (x : Z) : x mod 8 = (x mod 40) mod 8.
Proof. Z.div_mod_to_equations. lia. Qed.

Lemma mod_10_of_40 (x : Z) : x mod 10 = (x mod 40) mod 10.
Proof. Z.div_mod_to_equations. lia. Qed.

Lemma shifted_mod_40 (s1 s2 k : Z) :
  s1 mod 40 = s2 mod 40 -> (s1 + k) mod 40 = (s2 + k) mod 40.
Proof.
  intros H. rewrite (Z.add_mod s1), (Z.add_mod s2), H by lia. reflexivity.
Qed.

(** X3.  The five selections of a reading are coupled.  In the reading that
    [generateReading] returns, the present card is the entry after the past
    card in its deck, the future card the entry two after, and the
    certification the entry after the aura, all counted cyclically: the past
    card is at an index [i] of its deck and the aura at an index [j], the
    present and the future card are at [(i + 1) mod 8] and [(i + 2) mod 8],
    and the certification is at [(j + 1) mod 10]. *)
Theorem selections_are_coupled (ttl : jsstring) (kws : list jsstring)
        (cat text : jsstring) :
  exists i j pastCard presentCard futureCard au cert,
    0 <= i <= 7 /\ 0 <= j <= 9
    /\ nth_error Decks.past (Z.to_nat i) = Some pastCard
    /\ nth_error Decks.present (Z.to_nat ((i + 1) mod 8)) = Some presentCard
    /\ nth_error Decks.future (Z.to_nat ((i + 2) mod 8)) = Some futureCard
    /\ nth_error Decks.AURAS (Z.to_nat j) = Some au
    /\ nth_error Decks.CERTIFICATIONS (Z.to_nat ((j + 1) mod 10)) = Some cert
    /\ generateReading ttl kws cat text
       = Some (mkReading ttl kws cat (au_name au) cert
                 [ mkCard (str "past") (dc_name pastCard) (dc_meaning pastCard);
                   mkCard (str "present") (dc_name presentCard) (dc_meaning presentCard);
                   mkCard (str "future") (dc_name futureCard) (dc_meaning futureCard) ]).
Proof.
  destruct (generateReading_total ttl kws cat text)
    as (p & q & f & a & c & Hp & Hq & Hf & Ha & Hc & Hr).
  cbv zeta in *.
  set (seed := readingSeed ttl text) in *.
  exists ((seed + 0) mod 8), ((seed + 3) mod 10), p, q, f, a, c.
  pose proof (Z.mod_pos_bound (seed + 0) 8 ltac:(lia)).
  pose proof (Z.mod_pos_bound (seed + 3) 10 ltac:(lia)).
  split; [lia |]. split; [lia |]. split; [exact Hp |].
  rewrite !Z.add_mod_idemp_l by lia.
  replace (seed + 0 + 1) with (seed + 1) by lia.
  replace (seed + 0 + 2) with (seed + 2) by lia.
  replace (seed + 3 + 1) with (seed + 4) by lia.
  repeat split; assumption.
Qed.

(** X4.  Two documents whose seeds agree modulo 40 get the same cards, the
    same aura and the same certification: there are at most 40 different
    selections. *)
Theorem readings_repeat_modulo_40
        (ttl1 ttl2 : jsstring) (kws1 kws2 : list jsstring)
        (cat1 cat2 text1 text2 : jsstring) :
  readingSeed ttl1 text1 mod 40 = readingSeed ttl2 text2 mod 40 ->
  exists r1 r2,
    generateReading ttl1 kws1 cat1 text1 = Some r1
    /\ generateReading ttl2 kws2 cat2 text2 = Some r2
    /\ cards r1 = cards r2 /\ aura r1 = aura r2
    /\ certification r1 = certification r2.
Proof.
  intros Hmod.
  destruct (generateReading_total ttl1 kws1 cat1 text1)
    as (p1 & q1 & f1 & a1 & c1 & Hp1 & Hq1 & Hf1 & Ha1 & Hc1 & Hr1).
  destruct (generateReading_total ttl2 kws2 cat2 text2)
    as (p2 & q2 & f2 & a2 & c2 & Hp2 & Hq2 & Hf2 & Ha2 & Hc2 & Hr2).
  cbv zeta in *.
  assert (E8 : forall k, (readingSeed ttl1 text1 + k) mod 8
                         = (readingSeed ttl2 text2 + k) mod 8).
  { intros k. rewrite mod_8_of_40, (shifted_mod_40 _ _ k Hmod), <- mod_8_of_40.
    reflexivity. }
  assert (E10 : forall k, (readingSeed ttl1 text1 + k) mod 10
                          = (readingSeed ttl2 text2 + k) mod 10).
  { intros k. rewrite mod_10_of_40, (shifted_mod_40 _ _ k Hmod), <- mod_10_of_40.
    reflexivity. }
  rewrite E8 in Hp1. rewrite E8 in Hq1. rewrite E8 in Hf1.
  rewrite E10 in Ha1. rewrite E10 in Hc1.
  assert (p1 = p2) by congruence. assert (q1 = q2) by congruence.
  assert (f1 = f2) by congruence. assert (a1 = a2) by congruence.
  assert (c1 = c2) by congruence. subst.
  do 2 eexists. split; [exact Hr1 |]. split; [exact Hr2 |].
  repeat split.
Qed.

Lemma readings_repeat_modulo_40_witness :
  readingSeed (str "a") (str "A") mod 40 = readingSeed (str "") (str "q1") mod 40
  /\ exists r1 r2,
       generateReading (str "a") [] (str "general") (str "A") = Some r1
       /\ generateReading (str "") [str "word"] (str "legal") (str "q1") = Some r2
       /\ cards r1 = cards r2.
Proof.
  assert (H : readingSeed (str "a") (str "A") mod 40
              = readingSeed (str "") (str "q1") mod 40) by (vm_compute; reflexivity).
  split; [exact H |].
  destruct (readings_repeat_modulo_40 (str "a") (str "") [] [str "word"]
              (str "general") (str "legal") (str "A") (str "q1") H)
    as (r1 & r2 & H1 & H2 & Hc & _).
  exists r1, r2. repeat split; assumption.
Defined.

(* ================================================================== *)
(** * Further properties of the keyword extractor *)
(* ================================================================== *)

Section KeywordFacts.

Import Keywords Spec.

Lemma setOwn_keys_in (o : jsobject) (w : jsstring) (v : jsval) :
  In w (map fst o) -> map fst (setOwn o w v) = map fst o.
Proof.
  induction o as [| [a x] o IH]; simpl; [contradiction |].
  intros H. destruct (eqb a w) eqn:E; simpl; [reflexivity |].
  apply eqb_neq in E. destruct H as [H | H]; [contradiction |].
  now rewrite IH.
Qed.

Lemma setOwn_keys_out (o : jsobject) (w : jsstring) (v : jsval) :
  ~ In w (map fst o) -> map fst (setOwn o w v) = map fst o ++ [w].
Proof.
  induction o as [| [a x] o IH]; simpl; [reflexivity |].
  intros H. destruct (eqb a w) eqn:E; simpl.
  - apply eqb_eq in E. subst. exfalso. apply H. now left.
  - rewrite IH; [reflexivity |]. intros Hin. apply H. now right.
Qed.

(** The keys of the frequency object are the distinct tokens in first-seen
    order, whatever the tokens are. *)
Lemma countWords_firstSeen (ws : list jsstring) :
  map fst (countWords ws) = firstSeen ws.
Proof.
  unfold countWords. induction ws as [| w ws IH] using rev_ind.
  - reflexivity.
  - rewrite fold_left_app. simpl.
    destruct (in_dec string_eq_dec w ws) as [Hin | Hout].
    + rewrite setOwn_keys_in, (firstSeen_snoc_in _ _ Hin); [exact IH |].
      rewrite IH. now apply firstSeen_In.
    + rewrite setOwn_keys_out, (firstSeen_snoc_out _ _ Hout), IH; [reflexivity |].
      rewrite IH. now rewrite firstSeen_In.
Qed.

Lemma getOwn_some (o : jsobject) (k : jsstring) :
  In k (map fst o) -> exists v, getOwn o k = Some v.
Proof.
  induction o as [| [a x] o IH]; simpl; [contradiction |].
  intros H. destruct (eqb a k) eqn:E; [eauto |].
  apply eqb_neq in E. destruct H as [H | H]; [contradiction | auto].
Qed.

Lemma entries_key_order (o : jsobject) :
  map fst (entries o) = keyOrder (map fst o).
Proof.
  unfold entries.
  assert (H : forall k, In k (keyOrder (map fst o)) -> In k (map fst o))
    by (intros k; apply Permutation_in, keyOrder_perm).
  induction (keyOrder (map fst o)) as [| k l IH]; simpl; [reflexivity |].
  destruct (getOwn_some o k) as (v & ->); [apply H; now left |].
  simpl. f_equal. apply IH. intros x Hx. apply H. now right.
Qed.

Lemma extractKeywords_ranking (text : jsstring) (maxKeywords : nat) :
  exists ranked,
    extractKeywords text maxKeywords = firstn maxKeywords ranked
    /\ Permutation ranked (firstSeen (tokenize text)).
Proof.
  exists (map fst (sort byCount (entries (countWords (tokenize text))))).
  split.
  - unfold extractKeywords. now rewrite firstn_map.
  - rewrite (Permutation_map fst (sort_perm byCount _)).
    rewrite entries_key_order, countWords_firstSeen. apply keyOrder_perm.
Qed.

Lemma NoDup_firstn {A : Type} (n : nat) (l : list A) :
  NoDup l -> NoDup (firstn n l).
Proof.
  intros H. rewrite <- (firstn_skipn n l) in H.
  now apply NoDup_app_remove_r in H.
Qed.

Lemma tokenize_filter (text : jsstring) (k : jsstring) :
  In k (tokenize text) -> 3 < length k /\ has STOP_WORDS k = false.
Proof.
  unfold tokenize. rewrite filter_In, andb_true_iff, negb_true_iff, Z.ltb_lt.
  tauto.
Qed.

End KeywordFacts.

(** X5.  The keywords of a text are at most [maxKeywords], they are pairwise
    different, and each of them is a token of the text: longer than 3 code
    units, no stop word, and made of the letters a-z and the digits only. *)
Theorem keywords_are_distinct_tokens (text : jsstring) (maxKeywords : nat) :
  (List.length (Keywords.extractKeywords text maxKeywords) <= maxKeywords)%nat
  /\ NoDup (Keywords.extractKeywords text maxKeywords)
  /\ Forall (fun k => In k (Keywords.tokenize text)
                      /\ 3 < length k
                      /\ Keywords.has Keywords.STOP_WORDS k = false
                      /\ Forall (fun c => Keywords.isLowerAlnum c = true) k)
            (Keywords.extractKeywords text maxKeywords).
Proof.
  destruct (extractKeywords_ranking text maxKeywords) as (ranked & -> & Hperm).
  split; [apply firstn_le_length |]. split.
  - apply NoDup_firstn.
    apply (Permutation_NoDup (Permutation_sym Hperm)), firstSeen_NoDup.
  - apply Forall_forall. intros k Hk.
    assert (Hin : In k (Keywords.tokenize text)).
    { apply firstSeen_In, (Permutation_in _ Hperm).
      rewrite <- (firstn_skipn maxKeywords ranked). apply in_or_app. now left. }
    destruct (tokenize_filter text k Hin) as [Hlen Hstop].
    repeat split; try assumption.
    pose proof (tokenize_chars text) as H. rewrite Forall_forall in H. auto.
Qed.

(** X6.  Asking for fewer keywords gives the beginning of the longer
    answer. *)
Theorem keywords_prefix (text : jsstring) (m n : nat) :
  (m <= n)%nat ->
  Keywords.extractKeywords text m = firstn m (Keywords.extractKeywords text n).
Proof.
  intros H. unfold Keywords.extractKeywords.
  rewrite <- !firstn_map, firstn_firstn.
  now replace (Nat.min m n) with m by lia.
Qed.

Lemma keywords_prefix_witness :
  (2 <= 10)%nat
  /\ Keywords.extractKeywords (str "apple apple banana banana banana cherry") 2
     = firstn 2 (Keywords.extractKeywords
                   (str "apple apple banana banana banana cherry") 10).
Proof.
  split; [lia |].
  apply (keywords_prefix (str "apple apple banana banana banana cherry") 2 10).
  lia.
Defined.

(** X7.  No token is lost while there is room: when the text has at most
    [maxKeywords] different tokens, the keywords are exactly these tokens,
    each once. *)
Theorem keywords_complete (text : jsstring) (maxKeywords : nat) :
  (List.length (Spec.firstSeen (Keywords.tokenize text)) <= maxKeywords)%nat ->
  Permutation (Keywords.extractKeywords text maxKeywords)
              (Spec.firstSeen (Keywords.tokenize text))
  /\ (forall w, In w (Keywords.tokenize text) <->
                In w (Keywords.extractKeywords text maxKeywords)).
Proof.
  intros Hlen.
  destruct (extractKeywords_ranking text maxKeywords) as (ranked & -> & Hperm).
  rewrite firstn_all2 by (rewrite (Permutation_length Hperm); exact Hlen).
  split; [exact Hperm |].
  intros w. rewrite <- firstSeen_In. split; apply Permutation_in.
  - now symmetry.
  - exact Hperm.
Qed.

Lemma keywords_complete_witness :
  let text := str "Review the 2024 budget; budget review pending" in
  (List.length (Spec.firstSeen (Keywords.tokenize text)) <= 10)%nat
  /\ Permutation (Keywords.extractKeywords text 10)
                 (Spec.firstSeen (Keywords.tokenize text)).
Proof.
  cbv zeta.
  assert (H : (List.length (Spec.firstSeen (Keywords.tokenize
                 (str "Review the 2024 budget; budget review pending"))) <= 10)%nat)
    by (vm_compute; lia).
  split; [exact H |].
  exact (proj1 (keywords_complete _ 10 H)).
Defined.

(** X8.  The category is one of seven labels, [general] or the name of a
    category of the table, and it depends on the keywords only through the
    set of their lower-case forms: order and repetitions do not matter. *)
Theorem category_of_keyword_set (keywords : list jsstring) :
  In (Keywords.categorizeDocument keywords) Terms.categoryLabels
  /\ (forall keywords',
        (forall w, In w (map Keywords.toLowerCase keywords)
                   <-> In w (map Keywords.toLowerCase keywords')) ->
        Keywords.categorizeDocument keywords' = Keywords.categorizeDocument keywords).
Proof.
  split.
  - unfold Keywords.categorizeDocument, Terms.categoryLabels.
    destruct (categorize_loop (map Keywords.toLowerCase keywords) Keywords.categories
                (Keywords.mkMatch (str "general") 0))
      as [[Hr _] | (b & w & a & Hc & Hr & _)]; cbv zeta in Hr; rewrite Hr;
      cbn [Keywords.m_name].
    + now left.
    + right. apply in_map. rewrite Hc. apply in_or_app. right. now left.
  - intros keywords' Hsame. unfold Keywords.categorizeDocument. f_equal.
    apply fold_left_ext. intros best c. unfold Keywords.categorize_step.
    replace (Keywords.scoreOf (map Keywords.toLowerCase keywords') c)
      with (Keywords.scoreOf (map Keywords.toLowerCase keywords) c); [reflexivity |].
    unfold Keywords.scoreOf. f_equal. apply filter_ext. intros w.
    destruct (Keywords.has (map Keywords.toLowerCase keywords) w) eqn:E1,
             (Keywords.has (map Keywords.toLowerCase keywords') w) eqn:E2;
      try reflexivity.
    + apply has_In, Hsame, has_In in E1. congruence.
    + apply has_In, Hsame, has_In in E2. congruence.
Qed.

Lemma category_of_keyword_set_witness :
  Keywords.categorizeDocument [str "Sales"; str "code"; str "SALES"; str "budget"]
  = Keywords.categorizeDocument [str "budget"; str "code"; str "sales"].
Proof.
  apply (proj2 (category_of_keyword_set [str "budget"; str "code"; str "sales"])).
  intros w. vm_compute. tauto.
Defined.

(* ================================================================== *)
(** * Properties of the text extractor *)
(* ================================================================== *)

Section ExtractFacts.

Import Keywords Extract.

Lemma trimStart_incl (s : jsstring) (c : Z) : In c (trimStart s) -> In c s.
Proof.
  induction s as [| x s IH]; simpl; [tauto |].
  destruct (isWhiteSpace x); [intros H; right; auto | tauto].
Qed.

Lemma trimStart_length (s : jsstring) :
  (List.length (trimStart s) <= List.length s)%nat.
Proof.
  induction s as [| x s IH]; simpl; [lia |].
  destruct (isWhiteSpace x); simpl; lia.
Qed.

Lemma trimStart_blank (s : jsstring) :
  Forall (fun c => isWhiteSpace c = true) s -> trimStart s = [].
Proof.
  induction 1 as [| x s Hx _ IH]; simpl; [reflexivity |]. now rewrite Hx.
Qed.

Lemma trim_incl (s : jsstring) (c : Z) : In c (trim s) -> In c s.
Proof.
  unfold trim. intros H.
  apply in_rev, trimStart_incl in H. apply in_rev in H.
  now apply trimStart_incl.
Qed.

Lemma trim_length (s : jsstring) : (List.length (trim s) <= List.length s)%nat.
Proof.
  unfold trim. rewrite length_rev.
  pose proof (trimStart_length (rev (trimStart s))) as H1.
  rewrite length_rev in H1.
  pose proof (trimStart_length s). lia.
Qed.

Lemma trim_blank (s : jsstring) :
  Forall (fun c => isWhiteSpace c = true) s -> trim s = [].
Proof.
  intros H. unfold trim. now rewrite (trimStart_blank s H).
Qed.

Lemma collapseWhite_chars (s : jsstring) (inRun : bool) (c : Z) :
  In c (collapseWhite s inRun) -> c = 32 \/ (In c s /\ isWhiteSpace c = false).
Proof.
  revert inRun. induction s as [| x s IH]; intros inRun; simpl; [tauto |].
  destruct (isWhiteSpace x) eqn:E.
  - destruct inRun; simpl; intros H.
    + destruct (IH _ H) as [-> | [H1 H2]]; auto.
    + destruct H as [<- | H]; [now left |].
      destruct (IH _ H) as [-> | [H1 H2]]; auto.
  - simpl. intros [<- | H]; [right; auto |].
    destruct (IH _ H) as [-> | [H1 H2]]; auto.
Qed.

Lemma firstn_incl {A : Type} (n : nat) (l : list A) (x : A) :
  In x (firstn n l) -> In x l.
Proof.
  intros H. rewrite <- (firstn_skipn n l). apply in_or_app. now left.
Qed.

Lemma titleChar_printable (c : Z) :
  Terms.titleChar c = true -> Terms.printable c = true.
Proof.
  unfold Terms.titleChar, Terms.printable, isWordChar, isTitlePunctuation. lia.
Qed.

Lemma cleanTitle_chars (ttl : jsstring) :
  Forall (fun c => Terms.titleChar c = true) (cleanTitle ttl).
Proof.
  unfold cleanTitle, orDefault.
  destruct (slice0 80 (trim (collapseWhite (filter titleCharKept ttl) false)))
    as [| x l] eqn:E.
  - apply Forall_forall. intros c Hc. vm_compute in Hc.
    repeat (destruct Hc as [<- | Hc]; [reflexivity |]). contradiction.
  - rewrite <- E. apply Forall_forall. intros c Hc.
    apply firstn_incl, trim_incl, collapseWhite_chars in Hc.
    destruct Hc as [-> | [Hc Hw]]; [reflexivity |].
    apply filter_In in Hc. destruct Hc as [_ Hk].
    unfold titleCharKept in Hk. unfold Terms.titleChar.
    rewrite Hw in Hk. destruct (isWordChar c), (isTitlePunctuation c);
      simpl in *; congruence.
Qed.

Lemma cleanTitle_length (ttl : jsstring) :
  cleanTitle ttl <> [] /\ (List.length (cleanTitle ttl) <= 80)%nat.
Proof.
  unfold cleanTitle, orDefault.
  destruct (slice0 80 (trim (collapseWhite (filter titleCharKept ttl) false)))
    as [| x l] eqn:E.
  - split; [discriminate | simpl; lia].
  - split; [discriminate |]. rewrite <- E. apply firstn_le_length.
Qed.

End ExtractFacts.

Lemma extractText_extracted (dataText : jsstring) (infoTitle : option jsstring) :
  exists text raw,
    Extract.extractText (Extract.ParseData dataText infoTitle)
    = Analyze.Extracted text (Extract.cleanTitle raw).
Proof. unfold Extract.extractText. do 2 eexists. reflexivity. Qed.

(** X9.  [extractText] returns a text of at most 3000 code units and a title
    that is never empty, has at most 80 code units and consists of letters,
    digits, underscores, the punctuation that [cleanTitle] keeps and spaces
    only, so of printable ASCII. *)
Theorem extractText_bounds (dataText : jsstring) (infoTitle : option jsstring) :
  exists text ttl,
    Extract.extractText (Extract.ParseData dataText infoTitle)
    = Analyze.Extracted text ttl
    /\ (List.length text <= 3000)%nat
    /\ ttl <> [] /\ (List.length ttl <= 80)%nat
    /\ Forall (fun c => Terms.titleChar c = true) ttl
    /\ Terms.printableText ttl = true.
Proof.
  unfold Extract.extractText. do 2 eexists. split; [reflexivity |].
  split.
  - pose proof (trim_length (slice0 Extract.MAX_TEXT_LENGTH dataText)) as H.
    pose proof (firstn_le_length Extract.MAX_TEXT_LENGTH dataText) as H'.
    unfold slice0, Extract.MAX_TEXT_LENGTH in *. lia.
  - split; [apply cleanTitle_length |]. split; [apply cleanTitle_length |].
    split; [apply cleanTitle_chars |].
    apply forallb_forall. intros c Hc. apply titleChar_printable.
    pose proof (cleanTitle_chars
                  match infoTitle with
                  | Some (c0 :: t) => c0 :: t
                  | _ => Extract.orDefault
                           (slice0 100 (Extract.trim (Extract.firstLineOf
                              (Extract.trim (slice0 Extract.MAX_TEXT_LENGTH dataText)))))
                           (str "Untitled Document")
                  end) as H.
    rewrite Forall_forall in H. now apply H.
Qed.

(** X10.  A document whose extracted text is blank within its first 3000
    code units is refused as unreadable, with status 422, whatever title its
    metadata has. *)
Theorem blank_document_refused (dataText : jsstring) (infoTitle : option jsstring) :
  Forall (fun c => Keywords.isWhiteSpace c = true) (firstn 3000 dataText) ->
  Analyze.analyzeRoute (Some (Extract.extractText (Extract.ParseData dataText infoTitle)))
  = Analyze.Status422
      (str "Could not extract text from PDF. The document may be scanned or encrypted.").
Proof.
  intros H. unfold Extract.extractText, Analyze.analyzeRoute.
  unfold slice0, Extract.MAX_TEXT_LENGTH. rewrite (trim_blank _ H). reflexivity.
Qed.

Lemma blank_document_refused_witness :
  Forall (fun c => Keywords.isWhiteSpace c = true) (firstn 3000 (str "   "))
  /\ Analyze.analyzeRoute
       (Some (Extract.extractText (Extract.ParseData (str "   ") (Some (str "Annual Report")))))
     = Analyze.Status422
         (str "Could not extract text from PDF. The document may be scanned or encrypted.").
Proof.
  assert (H : Forall (fun c => Keywords.isWhiteSpace c = true) (firstn 3000 (str "   ")))
    by (vm_compute; repeat constructor).
  split; [exact H |].
  apply (blank_document_refused (str "   ") (Some (str "Annual Report")) H).
Defined.

(* ================================================================== *)
(** * Further properties of the analyze phase *)
(* ================================================================== *)

(** The two outcomes of the route on an extracted text. *)
Lemma analyzeRoute_extracted (text ttl : jsstring) :
  (length text < 10
   /\ Analyze.analyzeRoute (Some (Analyze.Extracted text ttl))
      = Analyze.Status422
          (str "Could not extract text from PDF. The document may be scanned or encrypted."))
  \/ (10 <= length text
      /\ exists p q f a c,
           In p Decks.past /\ In q Decks.present /\ In f Decks.future
           /\ In a Decks.AURAS /\ In c Decks.CERTIFICATIONS
           /\ Analyze.analyzeRoute (Some (Analyze.Extracted text ttl))
              = Analyze.Json
                  (mkReading ttl
                     (Keywords.extractKeywords text Keywords.defaultMaxKeywords)
                     (Keywords.categorizeDocument
                        (Keywords.extractKeywords text Keywords.defaultMaxKeywords))
                     (au_name a) c
                     [ mkCard (str "past") (dc_name p) (dc_meaning p);
                       mkCard (str "present") (dc_name q) (dc_meaning q);
                       mkCard (str "future") (dc_name f) (dc_meaning f) ])).
Proof.
  unfold Analyze.analyzeRoute.
  destruct (length text <? 10) eqn:E.
  - left. apply Z.ltb_lt in E. split; [exact E | reflexivity].
  - right. apply Z.ltb_ge in E. split; [exact E |].
    destruct (generateReading_total ttl
                (Keywords.extractKeywords text Keywords.defaultMaxKeywords)
                (Keywords.categorizeDocument
                   (Keywords.extractKeywords text Keywords.defaultMaxKeywords)) text)
      as (p & q & f & a & c & Hp & Hq & Hf & Ha & Hc & ->).
    exists p, q, f, a, c. cbv zeta in *.
    repeat split; eauto using nth_error_In.
Qed.

(** X11.  The analyze route never answers with a 500: the response is a 400
    when no file came, a 422 when the extraction threw or the text has fewer
    than 10 code units, and otherwise the reading, which has the given title,
    at most 10 keywords and one of the seven category labels. *)
Theorem analyzeRoute_outcomes (file : option Analyze.Extraction) :
  match Analyze.analyzeRoute file with
  | Analyze.Status400 _ => file = None
  | Analyze.Status422 _ =>
      file = Some Analyze.ExtractThrows
      \/ exists text ttl, file = Some (Analyze.Extracted text ttl) /\ length text < 10
  | Analyze.Status500 _ => False
  | Analyze.Json r =>
      exists text ttl,
        file = Some (Analyze.Extracted text ttl) /\ 10 <= length text
        /\ title r = ttl
        /\ (List.length (keywords r) <= 10)%nat
        /\ In (category r) Terms.categoryLabels
        /\ List.length (cards r) = 3%nat
  end.
Proof.
  destruct file as [[| text ttl] |]; [simpl; now left | | reflexivity].
  destruct (analyzeRoute_extracted text ttl)
    as [[Hlen ->] | (Hlen & p & q & f & a & c & _ & _ & _ & _ & _ & ->)].
  - right. eauto.
  - exists text, ttl. cbn [title keywords category cards].
    repeat split; try assumption.
    + unfold Keywords.extractKeywords. rewrite length_map. apply firstn_le_length.
    + unfold Keywords.categorizeDocument, Terms.categoryLabels.
      destruct (categorize_loop
                  (map Keywords.toLowerCase
                     (Keywords.extractKeywords text Keywords.defaultMaxKeywords))
                  Keywords.categories (Keywords.mkMatch (str "general") 0))
        as [[Hr _] | (b & w & a' & Hc & Hr & _)]; cbv zeta in Hr; rewrite Hr;
        cbn [Keywords.m_name].
      * now left.
      * right. apply in_map. rewrite Hc. apply in_or_app. right. now left.
Qed.

Lemma decks_nonempty_printable :
  forallb (fun d => Client.nonEmpty (dc_name d) && Client.nonEmpty (dc_meaning d)
                    && Terms.printableText (dc_name d)
                    && Terms.printableText (dc_meaning d))
          (Decks.past ++ Decks.present ++ Decks.future) = true
  /\ forallb (fun a => Client.nonEmpty (au_name a) && Terms.printableText (au_name a))
             Decks.AURAS = true
  /\ forallb (fun c => Client.nonEmpty c && Terms.printableText c)
             Decks.CERTIFICATIONS = true.
Proof. repeat split; vm_compute; reflexivity. Qed.

Lemma deck_card_ok (d : DeckCard) :
  In d Decks.past \/ In d Decks.present \/ In d Decks.future ->
  Client.nonEmpty (dc_name d) = true /\ Client.nonEmpty (dc_meaning d) = true
  /\ Terms.printableText (dc_name d) = true
  /\ Terms.printableText (dc_meaning d) = true.
Proof.
  intros H. destruct decks_nonempty_printable as (Hd & _ & _).
  rewrite forallb_forall in Hd. specialize (Hd d).
  rewrite !andb_true_iff in Hd. rewrite !in_app_iff in Hd.
  destruct Hd as [[[? ?] ?] ?]; tauto.
Qed.

Lemma aura_ok (a : AuraEntry) :
  In a Decks.AURAS ->
  Client.nonEmpty (au_name a) = true /\ Terms.printableText (au_name a) = true.
Proof.
  intros H. destruct decks_nonempty_printable as (_ & Ha & _).
  rewrite forallb_forall in Ha. specialize (Ha a H).
  now rewrite andb_true_iff in Ha.
Qed.

Lemma certification_ok (c : jsstring) :
  In c Decks.CERTIFICATIONS ->
  Client.nonEmpty c = true /\ Terms.printableText c = true.
Proof.
  intros H. destruct decks_nonempty_printable as (_ & _ & Hc).
  rewrite forallb_forall in Hc. specialize (Hc c H).
  now rewrite andb_true_iff in Hc.
Qed.

(** X12.  Whatever the parser returned for the upload, a reading that the
    analyze route sends passes the checks of the client: the response
    validation of [useAnalysis] and the export validation of [useExport]. *)
Theorem served_reading_passes_client_checks (data : Extract.PdfParse) (r : Reading) :
  Analyze.analyzeRoute (Some (Extract.extractText data)) = Analyze.Json r ->
  Client.validateAnalysisResponse r = true
  /\ Client.validateExportData true (Some (Render.ofReading r)) = Client.Valid
  /\ map position (cards r) = Terms.positions.
Proof.
  destruct data as [| dataText infoTitle]; [discriminate |].
  destruct (extractText_extracted dataText infoTitle) as (text & raw & ->).
  destruct (cleanTitle_length raw) as [Hne _].
  set (ttl := Extract.cleanTitle raw) in *.
  destruct (analyzeRoute_extracted text ttl)
    as [[_ ->] | (_ & p & q & f & a & c & Hp & Hq & Hf & Ha & Hc & ->)];
    [discriminate |].
  intros H. injection H as <-.
  destruct (deck_card_ok p) as (Hp1 & Hp2 & _); [tauto |].
  destruct (deck_card_ok q) as (Hq1 & Hq2 & _); [tauto |].
  destruct (deck_card_ok f) as (Hf1 & Hf2 & _); [tauto |].
  destruct (aura_ok a Ha) as [Ha1 _].
  assert (Ht : Client.nonEmpty ttl = true) by (destruct ttl; [congruence | reflexivity]).
  split; [| split; [| reflexivity]].
  - unfold Client.validateAnalysisResponse.
    cbn [title aura cards position name meaning forallb].
    rewrite Ht, Ha1, Hp1, Hp2, Hq1, Hq2, Hf1, Hf2. reflexivity.
  - unfold Client.validateExportData, Render.ofReading.
    cbn [negb Render.an_cards Render.an_aura cards aura].
    destruct (au_name a); [discriminate Ha1 | reflexivity].
Qed.

Lemma served_reading_passes_client_checks_witness :
  exists r,
    Analyze.analyzeRoute
      (Some (Extract.extractText
               (Extract.ParseData (str "Quarterly sales report for the board") None)))
    = Analyze.Json r
    /\ Client.validateAnalysisResponse r = true.
Proof.
  eexists. split.
  - vm_compute. reflexivity.
  - refine (proj1 (served_reading_passes_client_checks
                     (Extract.ParseData (str "Quarterly sales report for the board") None)
                     _ _)).
    vm_compute. reflexivity.
Defined.

Lemma generateReading_accepted (ttl : jsstring) (kws : list jsstring)
      (cat text : jsstring) :
  exists r, generateReading ttl kws cat text = Some r
            /\ Analyze.schemaAccepts r = true.
Proof.
  destruct (generateReading_total ttl kws cat text)
    as (p & q & f & a & c & _ & _ & _ & _ & _ & ->).
  eexists. split; reflexivity.
Qed.

(** X13.  The serverless function of [api/analyze.js] and the Express route
    agree: for a POST with a file of type [application/pdf] both refuse with
    a 422, or both send the same reading. *)
Theorem api_handler_agrees_with_route (mimetype : jsstring) (data : Extract.PdfParse) :
  mimetype = str "application/pdf" ->
  match ApiAnalyze.handler true
          (ApiAnalyze.FormFiles (Some (ApiAnalyze.mkUpload mimetype data))),
        Analyze.analyzeRoute (Some (Extract.extractText data)) with
  | ApiAnalyze.Status200 r, Analyze.Json r' => r = r'
  | ApiAnalyze.Status422 _, Analyze.Status422 _ => True
  | _, _ => False
  end.
Proof.
  intros ->. unfold ApiAnalyze.handler.
  cbn [negb ApiAnalyze.up_mimetype ApiAnalyze.up_parse].
  rewrite eqb_refl. cbn [negb].
  destruct data as [| dataText infoTitle]; [exact I |].
  unfold Extract.extractText, Analyze.analyzeRoute, Extract.MAX_TEXT_LENGTH.
  cbv zeta.
  destruct (length (Extract.trim (slice0 3000 dataText)) <? 10); [exact I |].
  match goal with
  | |- context [generateReading ?t ?k ?c ?x] =>
      destruct (generateReading_accepted t k c x) as (r & -> & ->)
  end.
  reflexivity.
Qed.

Lemma api_handler_agrees_with_route_witness :
  match ApiAnalyze.handler true
          (ApiAnalyze.FormFiles
             (Some (ApiAnalyze.mkUpload (str "application/pdf")
                      (Extract.ParseData (str "Quarterly sales report for the board") None)))),
        Analyze.analyzeRoute
          (Some (Extract.extractText
                   (Extract.ParseData (str "Quarterly sales report for the board") None))) with
  | ApiAnalyze.Status200 r, Analyze.Json r' => r = r'
  | ApiAnalyze.Status422 _, Analyze.Status422 _ => True
  | _, _ => False
  end.
Proof.
  apply (api_handler_agrees_with_route (str "application/pdf")
           (Extract.ParseData (str "Quarterly sales report for the board") None)).
  reflexivity.
Defined.

(* ================================================================== *)
(** * Further properties of the layout helpers *)
(* ================================================================== *)

Section LayoutFacts.

Import Render Spec.

Lemma length_app_Z {A : Type} (a b : list A) : length (a ++ b) = length a + length b.
Proof. unfold length. rewrite length_app. lia. Qed.

Lemma length_cons_Z {A : Type} (x : A) (l : list A) : length (x :: l) = length l + 1.
Proof. unfold length. simpl List.length. lia. Qed.

Lemma length_nonneg {A : Type} (l : list A) : 0 <= length l.
Proof. unfold length. lia. Qed.

Lemma truncateText_chars (P : Z -> Prop) (text : jsstring) (maxLength : Z) :
  P 46 -> Forall P text -> Forall P (truncateText text maxLength).
Proof.
  intros Hdot Ht. unfold truncateText, slice.
  destruct (length text <=? maxLength); [exact Ht |].
  apply Forall_app. split.
  - destruct (maxLength - 3 <? 0); apply Forall_forall; intros c Hc;
      apply firstn_incl in Hc; rewrite Forall_forall in Ht; now apply Ht.
  - repeat constructor; exact Hdot.
Qed.

Lemma splitSpace_chars (P : Z -> Prop) (text : jsstring) :
  Forall P text -> Forall (Forall P) (splitSpace text).
Proof.
  induction 1 as [| c rest Hc _ IH]; simpl.
  - repeat constructor.
  - destruct (c =? 32).
    + constructor; [constructor | exact IH].
    + destruct (splitSpace rest) as [| piece pieces].
      * repeat constructor; exact Hc.
      * apply Forall_cons_iff in IH. destruct IH as [Hp Hps].
        constructor; [constructor; assumption | exact Hps].
Qed.

Lemma appendWord_chars (P : Z -> Prop) (currentLine word : jsstring) :
  P 32 -> Forall P currentLine -> Forall P word ->
  Forall P (appendWord currentLine word).
Proof.
  intros Hsp Hc Hw. destruct currentLine as [| c l]; [exact Hw |].
  unfold appendWord. apply Forall_app. split; [exact Hc |].
  apply Forall_app. split; [repeat constructor; exact Hsp | exact Hw].
Qed.

Lemma pushLine_one (P : jsstring -> Prop) (currentLine : jsstring) :
  P currentLine -> Forall P (pushLine [] currentLine).
Proof. intros H. destruct currentLine; simpl; repeat constructor; exact H. Qed.

Lemma greedyFill_chars (P : Z -> Prop) (maxChars : Z) (words : list jsstring) :
  P 32 -> Forall (Forall P) words ->
  forall currentLine, Forall P currentLine ->
  Forall (Forall P) (greedyFill maxChars currentLine words).
Proof.
  intros Hsp. induction 1 as [| word rest Hw _ IH]; intros currentLine Hc; simpl.
  - now apply pushLine_one.
  - destruct (_ <=? _).
    + apply IH. now apply appendWord_chars.
    + apply Forall_app. split; [now apply pushLine_one | now apply IH].
Qed.

Lemma wrapText_chars (P : Z -> Prop) (text : jsstring) (maxChars : Z) :
  P 32 -> Forall P text -> Forall (Forall P) (wrapText text maxChars).
Proof.
  intros Hsp Ht. rewrite wrapText_greedy.
  apply greedyFill_chars; [exact Hsp | now apply splitSpace_chars | constructor].
Qed.

Lemma splitSpace_head (text : jsstring) :
  exists w,
    Forall (fun c => c <> 32) w
    /\ ((text = w /\ splitSpace text = [w])
        \/ exists rest, text = w ++ 32 :: rest /\ splitSpace text = w :: splitSpace rest).
Proof.
  induction text as [| c t (w & Hw & IH)]; simpl.
  - exists []. split; [constructor | now left].
  - destruct (c =? 32) eqn:E.
    + apply Z.eqb_eq in E. subst c. exists []. split; [constructor |].
      right. now exists t.
    + apply Z.eqb_neq in E. exists (c :: w). split; [now constructor |].
      destruct IH as [[-> ->] | (rest & -> & ->)].
      * now left.
      * right. now exists rest.
Qed.

Lemma greedyFill_one_line (maxChars : Z) (n : nat) :
  forall (rest currentLine : jsstring),
    (List.length rest <= n)%nat ->
    currentLine <> [] ->
    length currentLine + 1 + length rest <= maxChars ->
    greedyFill maxChars currentLine (splitSpace rest) = [currentLine ++ 32 :: rest].
Proof.
  induction n as [| n IH]; intros rest currentLine Hn Hne Hfit.
  - destruct rest; [| simpl in Hn; lia]. simpl.
    change (length (@nil Z)) with 0 in *.
    replace (length currentLine + 0 + 1 <=? maxChars) with true
      by (symmetry; apply Z.leb_le; lia).
    destruct currentLine; [congruence | reflexivity].
  - destruct (splitSpace_head rest) as (w & _ & [[-> ->] | (rest' & -> & ->)]).
    + simpl.
      replace (length currentLine + length w + 1 <=? maxChars) with true
        by (symmetry; apply Z.leb_le; lia).
      destruct currentLine; [congruence | reflexivity].
    + rewrite length_app_Z, length_cons_Z in Hfit.
      pose proof (length_nonneg rest') as Hr.
      simpl.
      replace (length currentLine + length w + 1 <=? maxChars) with true
        by (symmetry; apply Z.leb_le; lia).
      rewrite IH.
      * destruct currentLine; [congruence |].
        unfold appendWord. now rewrite <- !app_assoc.
      * rewrite length_app in Hn. simpl in Hn. lia.
      * destruct currentLine; [congruence | discriminate].
      * destruct currentLine; [congruence |].
        unfold appendWord. rewrite !length_app_Z.
        change (length (str " ")) with 1. lia.
Qed.

Lemma appendWord_begins (currentLine word : jsstring) :
  currentLine = [] \/ Terms.beginsWithWord currentLine ->
  Forall (fun c => c <> 32) word ->
  appendWord currentLine word = [] \/ Terms.beginsWithWord (appendWord currentLine word).
Proof.
  intros [-> | (c & l & -> & Hc)] Hw.
  - simpl. destruct word as [| x w]; [now left |].
    right. exists x, w. split; [reflexivity |]. now apply Forall_cons_iff in Hw.
  - right. exists c. eexists. split; [reflexivity | exact Hc].
Qed.

Lemma pushLine_begins (currentLine : jsstring) :
  currentLine = [] \/ Terms.beginsWithWord currentLine ->
  Forall Terms.beginsWithWord (pushLine [] currentLine).
Proof.
  intros [-> | H]; [constructor |].
  destruct H as (c & l & -> & Hc). repeat constructor. now exists c, l.
Qed.

Lemma greedyFill_begins (maxChars : Z) (words : list jsstring) :
  Forall (Forall (fun c => c <> 32)) words ->
  forall currentLine,
    currentLine = [] \/ Terms.beginsWithWord currentLine ->
    Forall Terms.beginsWithWord (greedyFill maxChars currentLine words).
Proof.
  induction 1 as [| word rest Hw _ IH]; intros currentLine Hc; simpl.
  - now apply pushLine_begins.
  - destruct (_ <=? _).
    + apply IH. now apply appendWord_begins.
    + apply Forall_app. split; [now apply pushLine_begins |].
      apply IH. destruct word as [| x w]; [now left |].
      right. exists x, w. split; [reflexivity |]. now apply Forall_cons_iff in Hw.
Qed.

Lemma greedyFill_count (maxChars : Z) (words : list jsstring) :
  forall currentLine,
    (List.length (greedyFill maxChars currentLine words)
     <= List.length (pushLine [] currentLine)
        + List.length (filter (fun w => negb (eqb w [])) words))%nat.
Proof.
  induction words as [| word rest IH]; intros currentLine; simpl.
  - lia.
  - destruct (_ <=? _).
    + specialize (IH (appendWord currentLine word)).
      destruct currentLine as [| c l]; destruct word as [| x w]; simpl in *; lia.
    + rewrite length_app. specialize (IH word).
      destruct word as [| x w]; simpl in *; lia.
Qed.

End LayoutFacts.

(** X14.  [truncateText] with a budget of at least 3 never returns more than
    [maxLength] code units: a text within the budget comes back unchanged, a
    longer one becomes its first [maxLength - 3] code units and three full
    stops, [maxLength] code units in all.  With a budget from 0 to 2 and a
    text of at least 3 code units, the result has as many code units as the
    text and the budget together: it is over the budget and not shorter than
    the text. *)
Theorem truncateText_budget (text : jsstring) (maxLength : Z) :
  (3 <= maxLength ->
   length (Render.truncateText text maxLength) <= maxLength
   /\ (length text <= maxLength -> Render.truncateText text maxLength = text)
   /\ (maxLength < length text ->
       Render.truncateText text maxLength
       = firstn (Z.to_nat (maxLength - 3)) text ++ str "..."
       /\ length (Render.truncateText text maxLength) = maxLength))
  /\ (0 <= maxLength < 3 -> 3 <= length text ->
      length (Render.truncateText text maxLength) = length text + maxLength
      /\ maxLength < length (Render.truncateText text maxLength)
      /\ length text <= length (Render.truncateText text maxLength)).
Proof.
  unfold Render.truncateText, Render.slice. split.
  - intros H3. destruct (length text <=? maxLength) eqn:E.
    + apply Z.leb_le in E. split; [exact E |]. split; [reflexivity | lia].
    + apply Z.leb_gt in E.
      replace (maxLength - 3 <? 0) with false by (symmetry; apply Z.ltb_ge; lia).
      assert (Hlen : length (firstn (Z.to_nat (maxLength - 3)) text ++ str "...")
                     = maxLength).
      { rewrite length_app_Z. unfold length in *. rewrite length_firstn.
        change (List.length (str "...")) with 3%nat. lia. }
      repeat split; try assumption; lia.
  - intros Hlow Hlong.
    replace (length text <=? maxLength) with false by (symmetry; apply Z.leb_gt; lia).
    replace (maxLength - 3 <? 0) with true by (symmetry; apply Z.ltb_lt; lia).
    rewrite length_app_Z. unfold length in *. rewrite length_firstn.
    change (List.length (str "...")) with 3%nat. lia.
Qed.

Lemma truncateText_budget_witness :
  length (Render.truncateText (str "The Procrastinator Supreme") 18) = 18
  /\ length (Render.truncateText (str "abcdef") 1) = 7.
Proof.
  destruct (truncateText_budget (str "The Procrastinator Supreme") 18) as [H _].
  destruct (H ltac:(lia)) as (_ & _ & H').
  destruct (H' ltac:(vm_compute; reflexivity)) as [_ H''].
  split; [exact H'' |].
  destruct (truncateText_budget (str "abcdef") 1) as [_ G].
  destruct (G ltac:(lia) ltac:(vm_compute; discriminate)) as [-> _]. reflexivity.
Defined.

(** X15.  [wrapText] emits no empty line and no line that begins with a
    space, and it emits at most as many lines as the text has non-empty
    words. *)
Theorem wrapText_lines_begin_with_words (text : jsstring) (maxChars : Z) :
  Forall Terms.beginsWithWord (Render.wrapText text maxChars)
  /\ (List.length (Render.wrapText text maxChars) <= Terms.wordCount text)%nat.
Proof.
  rewrite wrapText_greedy. split.
  - apply greedyFill_begins; [apply splitSpace_pieces | now left].
  - apply (greedyFill_count maxChars (Render.splitSpace text) []).
Qed.

(** X16.  A text that begins with a word and has at most [maxChars] code
    units is wrapped into one line, the text itself, with its inner and
    final spaces. *)
Theorem wrapText_single_line (text : jsstring) (maxChars : Z) :
  Terms.beginsWithWord text ->
  length text <= maxChars ->
  Render.wrapText text maxChars = [text].
Proof.
  intros (c & t & -> & Hc) Hfit. rewrite wrapText_greedy.
  destruct (splitSpace_head (c :: t)) as (w & Hw & [[Ht ->] | (rest & Ht & ->)]).
  - subst w. simpl Spec.greedyFill. destruct (_ <=? _); reflexivity.
  - destruct w as [| x w].
    + simpl in Ht. injection Ht as -> _. congruence.
    + rewrite Ht in *. rewrite length_app_Z in Hfit.
      rewrite (length_cons_Z 32 rest) in Hfit.
      pose proof (length_nonneg rest) as Hr.
      simpl Spec.greedyFill.
      destruct (_ <=? _);
        apply (greedyFill_one_line maxChars (List.length rest));
        solve [lia | discriminate].
Qed.

Lemma wrapText_single_line_witness :
  Render.wrapText (str "cursed  formatting ") 22 = [str "cursed  formatting "].
Proof.
  apply (wrapText_single_line (str "cursed  formatting ") 22).
  - eexists. eexists. split; [reflexivity | discriminate].
  - vm_compute. discriminate.
Defined.

(* ================================================================== *)
(** * Further properties of the render phase *)
(* ================================================================== *)


Lemma printableText_Forall (t : jsstring) :
  Terms.printableText t = true <-> Forall (fun c => Terms.printable c = true) t.
Proof.
  unfold Terms.printableText. rewrite forallb_forall, Forall_forall. reflexivity.
Qed.

Lemma Forall_flat_map {A B : Type} (P : B -> Prop) (f : A -> list B) (l : list A) :
  (forall x, In x l -> Forall P (f x)) -> Forall P (flat_map f l).
Proof.
  induction l as [| x l IH]; intros H; simpl; [constructor |].
  apply Forall_app. split; [apply H; now left |].
  apply IH. intros y Hy. apply H. now right.
Qed.

Lemma orElse_printable (s : jsstring) (dflt : jsstring) :
  Terms.printableText s = true -> Terms.printableText dflt = true ->
  Terms.printableText (Render.orElse (Some s) dflt) = true.
Proof. intros Hs Hd. destruct s; [exact Hd | exact Hs]. Qed.

(** The texts of the cover of a reading of printable ASCII are printable
    ASCII. *)
Lemma coverTexts_printable (r : Reading) :
  Terms.printableText (title r) = true ->
  Terms.printableText (aura r) = true ->
  Terms.printableText (certification r) = true ->
  (forall card, In card (cards r) ->
     Terms.printableText (name card) = true
     /\ Terms.printableText (meaning card) = true) ->
  Forall (fun t => Terms.printableText t = true)
         (Spec.coverTexts (Render.ofReading r)).
Proof.
  intros Ht Ha Hc Hcards.
  assert (Hdot : Terms.printable 46 = true) by reflexivity.
  assert (Hsp : Terms.printable 32 = true) by reflexivity.
  unfold Spec.coverTexts, Render.ofReading.
  cbn [Render.an_title Render.an_aura Render.an_certification Render.an_cards].
  apply Forall_app. split; [| apply Forall_app; split].
  - constructor; [reflexivity |]. constructor; [| constructor].
    apply printableText_Forall. apply truncateText_chars; [exact Hdot |].
    apply printableText_Forall. now apply orElse_printable.
  - apply Forall_flat_map. intros [labelText card] Hin.
    pose proof (in_combine_l _ _ _ _ Hin) as Hl.
    pose proof (in_combine_r _ _ _ _ Hin) as Hcard.
    destruct (Hcards card Hcard) as [Hn Hm].
    unfold Spec.cardTexts. constructor; [| constructor].
    + destruct Hl as [<- | [<- | [<- | []]]]; reflexivity.
    + apply printableText_Forall. apply truncateText_chars; [exact Hdot |].
      now apply printableText_Forall.
    + apply Forall_forall. intros line Hline. apply firstn_incl in Hline.
      apply printableText_Forall.
      pose proof (wrapText_chars (fun c => Terms.printable c = true)
                    (meaning card) 22 Hsp (proj1 (printableText_Forall _) Hm)) as Hw.
      rewrite Forall_forall in Hw. now apply Hw.
  - constructor; [| constructor; [| constructor; [reflexivity | constructor]]].
    + apply printableText_Forall. apply Forall_app. split.
      * apply printableText_Forall. reflexivity.
      * now apply printableText_Forall.
    + now apply orElse_printable.
Qed.

(** X17.  The two phases compose.  With fonts that accept every text of
    printable ASCII, a reading that the analyze route sends for a document is
    rendered by the handler of [api/render.js] over any original of at least
    one page: the response is the cover followed by the original, the cover
    has the size of the first page and carries the certification of the
    reading. *)
Theorem served_reading_renders
    (measurable drawable : jsstring -> bool)
    (data : Extract.PdfParse) (r : Reading)
    (first : Render.Page) (rest : Render.PDFDocument) :
  (forall t, Terms.printableText t = true ->
             measurable t = true /\ drawable t = true) ->
  Analyze.analyzeRoute (Some (Extract.extractText data)) = Analyze.Json r ->
  exists cover,
    Render.handler measurable drawable
      (Render.mkRequest true (Some (Render.Saved (first :: rest)))
                        (Render.Parsed (Render.ofReading r)))
    = ([Render.LogProcessing; Render.LoadOriginal; Render.ComposeCover;
        Render.MergePages; Render.SaveMerged; Render.LogGenerated],
       Render.SendPdf (Render.Saved (cover :: first :: rest)))
    /\ Render.pg_width cover = Render.pg_width first
    /\ Render.pg_height cover = Render.pg_height first
    /\ In (Render.Text (certification r) 12 Render.HelveticaBold Render.primary)
          (Render.pg_ops cover).
Proof.
  intros Hfonts.
  destruct data as [| dataText infoTitle]; [discriminate |].
  destruct (extractText_extracted dataText infoTitle) as (text & raw & ->).
  destruct (analyzeRoute_extracted text (Extract.cleanTitle raw))
    as [[_ ->] | (_ & p & q & f & a & c & Hp & Hq & Hf & Ha & Hc & ->)];
    [discriminate |].
  intros H. injection H as <-.
  destruct (deck_card_ok p) as (_ & _ & Hp1 & Hp2); [tauto |].
  destruct (deck_card_ok q) as (_ & _ & Hq1 & Hq2); [tauto |].
  destruct (deck_card_ok f) as (_ & _ & Hf1 & Hf2); [tauto |].
  destruct (aura_ok a Ha) as [Ha1 Ha2].
  destruct (certification_ok c Hc) as [Hc1 Hc2].
  match goal with
  | |- context [Render.ofReading ?x] => set (r := x)
  end.
  assert (Htexts : Spec.fontsAccept measurable drawable
                     (Spec.coverTexts (Render.ofReading r))).
  { unfold Spec.fontsAccept.
    apply Forall_impl with (P := fun t => Terms.printableText t = true);
      [exact Hfonts |].
    apply coverTexts_printable; cbn [r title aura certification cards].
    - apply printableText_Forall.
      apply Forall_impl with (P := fun c => Terms.titleChar c = true);
        [exact titleChar_printable | apply cleanTitle_chars].
    - exact Ha2.
    - exact Hc2.
    - intros card [<- | [<- | [<- | []]]]; cbn [name meaning]; now split. }
  destruct (createCoverPage_ok measurable drawable (Render.ofReading r)
              _ _ _ (Render.pg_width first) (Render.pg_height first)
              eq_refl Htexts)
    as (cover & Hcover & Hw & Hh & Hcert).
  exists cover.
  rewrite (handler_valid measurable drawable (Render.Saved (first :: rest))
             (Render.ofReading r) (cards r) eq_refl eq_refl)
    by (cbn [Render.ofReading Render.an_aura r aura Render.truthy];
        destruct (au_name a); [discriminate Ha1 | reflexivity]).
  rewrite (renderMergedPdf_ok measurable drawable _ first rest cover Hcover).
  split; [reflexivity |]. split; [exact Hw |]. split; [exact Hh |].
  cbn [Render.ofReading Render.an_certification r certification] in Hcert |- *.
  destruct c; [discriminate Hc1 | exact Hcert].
Qed.

Lemma served_reading_renders_witness :
  exists r cover,
    Analyze.analyzeRoute
      (Some (Extract.extractText
               (Extract.ParseData (str "Quarterly sales report for the board") None)))
    = Analyze.Json r
    /\ Render.handler Terms.printableText Terms.printableText
         (Render.mkRequest true
            (Some (Render.Saved [Render.mkPage 612 792 [Render.Uploaded [1]]]))
            (Render.Parsed (Render.ofReading r)))
       = ([Render.LogProcessing; Render.LoadOriginal; Render.ComposeCover;
           Render.MergePages; Render.SaveMerged; Render.LogGenerated],
          Render.SendPdf
            (Render.Saved [cover; Render.mkPage 612 792 [Render.Uploaded [1]]])).
Proof.
  assert (E : exists r,
             Analyze.analyzeRoute
               (Some (Extract.extractText
                        (Extract.ParseData (str "Quarterly sales report for the board")
                                           None)))
             = Analyze.Json r) by (eexists; vm_compute; reflexivity).
  destruct E as [r E].
  destruct (served_reading_renders Terms.printableText Terms.printableText
              (Extract.ParseData (str "Quarterly sales report for the board") None)
              r (Render.mkPage 612 792 [Render.Uploaded [1]]) []
              (fun t H => conj H H) E) as (cover & H & _).
  exists r, cover. split; [exact E | exact H].
Defined.

(** X18.  The outcomes of the handler of [api/render.js] on a parsed form
    with a readable upload, pdf-lib being taken to copy and save every
    document that it has loaded.
    A 405 or a 400 comes before anything is logged or loaded.  A 500 has the
    message [Failed to render PDF] and comes in three ways: before anything
    is logged, for an analysis that parses to [null]; after the load, when
    the original was refused or had no page; after the attempt to compose the
    cover, when that failed.  Every PDF that is sent is a composed cover of
    the size of the first page of the original followed by the pages of the
    original, after all six steps. *)
Theorem render_handler_outcomes
    (measurable drawable : jsstring -> bool) (req : Render.Request) :
  match Render.handler measurable drawable req with
  | (log, Render.Status405 _) => Render.req_post req = false /\ log = []
  | (log, Render.Status400 _) =>
      log = []
      /\ (Render.req_file req = None \/ Render.req_analysis req <> Render.ParsedNull)
  | (log, Render.Status500 message) =>
      message = str "Failed to render PDF"
      /\ ((log = []
           /\ Render.req_file req <> None
           /\ Render.req_analysis req = Render.ParsedNull)
          \/ (log = [Render.LogProcessing; Render.LoadOriginal]
              /\ (Render.req_file req = Some Render.Unloadable
                  \/ Render.req_file req = Some (Render.Saved [])))
          \/ (log = [Render.LogProcessing; Render.LoadOriginal; Render.ComposeCover]
              /\ exists first rest a,
                   Render.req_file req = Some (Render.Saved (first :: rest))
                   /\ Render.req_analysis req = Render.Parsed a
                   /\ Render.createCoverPage measurable drawable a
                        (Render.pg_width first) (Render.pg_height first) = None))
  | (log, Render.SendPdf body) =>
      log = [Render.LogProcessing; Render.LoadOriginal; Render.ComposeCover;
             Render.MergePages; Render.SaveMerged; Render.LogGenerated]
      /\ exists cover first rest a,
           Render.req_file req = Some (Render.Saved (first :: rest))
           /\ Render.req_analysis req = Render.Parsed a
           /\ Render.createCoverPage measurable drawable a
                (Render.pg_width first) (Render.pg_height first) = Some [cover]
           /\ body = Render.Saved (cover :: first :: rest)
           /\ Render.pg_width cover = Render.pg_width first
           /\ Render.pg_height cover = Render.pg_height first
  end.
Proof.
  destruct req as [[] [file |] af]; try (cbn; auto; fail).
  destruct af as [| | | | a];
    try (cbn; split; [reflexivity | right; discriminate]).
  { cbn. split; [reflexivity |]. left. repeat split. discriminate. }
  destruct (match Render.an_cards a with
            | None => true
            | Some cards => negb (length cards =? 3)
            end) eqn:Ecards.
  { destruct (handler_invalid measurable drawable file a (or_introl Ecards))
      as [message ->]. split; [reflexivity | right; discriminate]. }
  destruct (Render.truthy (Render.an_aura a)) eqn:Eaura.
  2: { destruct (handler_invalid measurable drawable file a (or_intror Eaura))
         as [message ->]. split; [reflexivity | right; discriminate]. }
  destruct (Render.an_cards a) as [cs |] eqn:Ecs; [| discriminate].
  apply negb_false_iff, Z.eqb_eq in Ecards.
  assert (Hlen : List.length cs = 3%nat) by (unfold length in Ecards; lia).
  rewrite (handler_valid measurable drawable file a cs Ecs Hlen Eaura).
  cbn [Render.req_file Render.req_analysis].
  destruct (renderMergedPdf_outcomes measurable drawable file a)
    as [[-> Hfile] | [(first & rest & -> & Hcover & ->)
                     | (cover & first & rest & -> & Hcover & Hw & Hh & ->)]].
  - split; [reflexivity |]. right. left. split; [reflexivity |].
    destruct Hfile as [-> | ->]; [now left | now right].
  - split; [reflexivity |]. right. right. split; [reflexivity |].
    exists first, rest, a. repeat split; assumption.
  - split; [reflexivity |]. exists cover, first, rest, a.
    repeat split; assumption.
Qed.

(** X19.  The client check [validateExportData] of [useExport.js] and the
    first steps of the render handler agree on a request with a file.  The
    field that the server reads is the client's analysis through
    [JSON.stringify] and [JSON.parse]: an object comes back as it was, a
    missing analysis arrives as [null] or, when it was [undefined], as a
    string that is no JSON.  When the client accepts the analysis, the
    handler starts the work and does not answer with a 400; when the client
    refuses it, the handler has logged nothing and answers with a 400 or,
    for [null], with a 500. *)
Theorem client_validation_matches_server
    (measurable drawable : jsstring -> bool)
    (file : Render.PdfBuffer) (analysis : option Render.Analysis)
    (field : Render.AnalysisField) :
  match analysis with
  | Some a => field = Render.Parsed a
  | None => field = Render.ParsedNull \/ field = Render.InvalidJson
  end ->
  let req := Render.mkRequest true (Some file) field in
  (Client.validateExportData true analysis = Client.Valid ->
   exists log response,
     Render.handler measurable drawable req = (Render.LogProcessing :: log, response)
     /\ forall message, response <> Render.Status400 message)
  /\ (Client.validateExportData true analysis <> Client.Valid ->
      Render.handler measurable drawable req
      = ([], Render.Status500 (str "Failed to render PDF"))
        /\ field = Render.ParsedNull
      \/ exists message,
           Render.handler measurable drawable req = ([], Render.Status400 message)).
Proof.
  intros Hfield req. unfold req.
  destruct analysis as [a |].
  2: { split; [discriminate |]. intros _.
       destruct Hfield as [-> | ->]; [left; split; reflexivity |].
       right. eexists. reflexivity. }
  subst field. unfold Client.validateExportData. cbn [negb].
  destruct (match Render.an_cards a with
            | None => true
            | Some cards => negb (length cards =? 3)
            end) eqn:Ecards.
  { split; [discriminate |]. intros _. right.
    apply handler_invalid. now left. }
  destruct (Render.truthy (Render.an_aura a)) eqn:Eaura; cbn [negb].
  2: { split; [discriminate |]. intros _. right. apply handler_invalid. now right. }
  split; [| congruence]. intros _.
  destruct (Render.an_cards a) as [cs |] eqn:Ecs; [| discriminate].
  apply negb_false_iff, Z.eqb_eq in Ecards.
  assert (Hlen : List.length cs = 3%nat) by (unfold length in Ecards; lia).
  rewrite (handler_valid measurable drawable file a cs Ecs Hlen Eaura).
  destruct (Render.renderMergedPdf measurable drawable file a) as [log [body |]];
    do 2 eexists; (split; [reflexivity | discriminate]).
Qed.

Lemma client_validation_matches_server_witness :
  Client.validateExportData true None <> Client.Valid
  /\ Render.handler (fun _ => true) (fun _ => true)
       (Render.mkRequest true (Some Render.Unloadable) Render.ParsedNull)
     = ([], Render.Status500 (str "Failed to render PDF")).
Proof.
  split; [discriminate |].
  destruct (client_validation_matches_server (fun _ => true) (fun _ => true)
              Render.Unloadable None Render.ParsedNull (or_introl eq_refl))
    as [_ H].
  destruct (H ltac:(discriminate)) as [[E _] | [message E]];
    [exact E | discriminate E].
Defined.

(* ================================================================== *)

Section ClientFacts.

Import Keywords Extract.

Lemma trimStart_head (s : jsstring) :
  trimStart s = [] \/ exists h l, trimStart s = h :: l /\ isWhiteSpace h = false.
Proof.
  induction s as [| c s IH]; simpl; [now left |].
  destruct (isWhiteSpace c) eqn:E; [exact IH |].
  right. now exists c, s.
Qed.

Lemma trimStart_snoc (l : jsstring) (h : Z) :
  isWhiteSpace h = false -> trimStart (l ++ [h]) = trimStart l ++ [h].
Proof.
  intros Hh. induction l as [| c l IH]; simpl.
  - now rewrite Hh.
  - destruct (isWhiteSpace c); [exact IH | reflexivity].
Qed.

(** What is left after [trim] is empty or has no white space at its ends. *)
Lemma trim_ends (s : jsstring) :
  trim s = []
  \/ ((exists h l, trim s = h :: l /\ isWhiteSpace h = false)
      /\ (exists l z, trim s = l ++ [z] /\ isWhiteSpace z = false)).
Proof.
  unfold trim.
  destruct (trimStart_head s) as [-> | (h & t & -> & Hh)]; [now left |].
  right. simpl rev. rewrite (trimStart_snoc _ _ Hh). rewrite rev_app_distr.
  split.
  - exists h. eexists. split; [reflexivity | exact Hh].
  - rewrite <- rev_app_distr, <- (trimStart_snoc _ _ Hh).
    destruct (trimStart_head (rev t ++ [h])) as [E | (z & u & -> & Hz)].
    + rewrite trimStart_snoc in E by exact Hh. now destruct (trimStart (rev t)).
    + simpl rev. now exists (rev u), z.
Qed.

End ClientFacts.

(** X20.  The export file name is a base followed by [_tarot_reading.pdf].
    The base is never empty, has only letters, digits, underscores, hyphens
    and white space, and no white space at its ends; so the name has exactly
    one full stop, that of its extension [.pdf]. *)
Theorem exportFilename_shape (originalName : jsstring) :
  exists base,
    Client.generateExportFilename originalName = base ++ str "_tarot_reading.pdf"
    /\ Forall (fun c => Client.filenameCharKept c = true) base
    /\ (exists h l, base = h :: l /\ Keywords.isWhiteSpace h = false)
    /\ (exists l z, base = l ++ [z] /\ Keywords.isWhiteSpace z = false)
    /\ Client.endsWithPdf (Client.generateExportFilename originalName) = true
    /\ count_occ Z.eq_dec (Client.generateExportFilename originalName) 46 = 1%nat.
Proof.
  unfold Client.generateExportFilename. cbv zeta.
  set (baseName := if Client.endsWithPdf originalName
                   then firstn (List.length originalName - 4) originalName
                   else originalName).
  set (base := Extract.orDefault
                 (Extract.trim (filter Client.filenameCharKept baseName))
                 (str "document")).
  assert (Hkept : Forall (fun c => Client.filenameCharKept c = true) base).
  { unfold base.
    destruct (Extract.trim (filter Client.filenameCharKept baseName)) as [| x l] eqn:E.
    - vm_compute. repeat constructor.
    - cbn [Extract.orDefault]. rewrite <- E. apply Forall_forall. intros c Hc.
      apply trim_incl in Hc. now apply filter_In in Hc. }
  assert (Hends : (exists h l, base = h :: l /\ Keywords.isWhiteSpace h = false)
                  /\ (exists l z, base = l ++ [z] /\ Keywords.isWhiteSpace z = false)).
  { unfold base.
    destruct (trim_ends (filter Client.filenameCharKept baseName)) as [-> | H].
    - split.
      + do 2 eexists. split; [reflexivity | reflexivity].
      + exists (str "documen"), 116. split; reflexivity.
    - destruct H as [(h & l & E & Hh) H2]. rewrite E in *.
      cbn [Extract.orDefault]. split; [now exists h, l | exact H2]. }
  exists base. split; [reflexivity |]. split; [exact Hkept |].
  split; [apply Hends |]. split; [apply Hends |]. split.
  - unfold Client.endsWithPdf. rewrite rev_app_distr. reflexivity.
  - rewrite count_occ_app.
    replace (count_occ Z.eq_dec base 46) with 0%nat; [reflexivity |].
    symmetry. apply count_occ_not_In. intros Hin.
    rewrite Forall_forall in Hkept. specialize (Hkept 46 Hin). discriminate.
Qed.

(** X21.  The extension is taken off once and without regard to case: a name
    that does not end in [.pdf] and the same name with such an extension have
    the same export file name. *)
Theorem exportFilename_ignores_extension (originalName ext : jsstring) :
  List.length ext = 4%nat ->
  Client.endsWithPdf ext = true ->
  Client.endsWithPdf originalName = false ->
  Client.generateExportFilename (originalName ++ ext)
  = Client.generateExportFilename originalName.
Proof.
  intros Hlen Hext Hname. unfold Client.generateExportFilename. cbv zeta.
  rewrite Hname.
  assert (E : Client.endsWithPdf (originalName ++ ext) = true).
  { destruct ext as [| a [| b [| c [| d [| e ext]]]]]; try discriminate Hlen.
    unfold Client.endsWithPdf in *. rewrite rev_app_distr. exact Hext. }
  rewrite E. rewrite length_app, Hlen.
  replace (List.length originalName + 4 - 4)%nat with (List.length originalName + 0)%nat
    by lia.
  rewrite firstn_app_2. simpl firstn. now rewrite app_nil_r.
Qed.

Lemma exportFilename_ignores_extension_witness :
  Client.generateExportFilename (str "Q3 report (final).PDF")
  = Client.generateExportFilename (str "Q3 report (final)").
Proof.
  apply (exportFilename_ignores_extension (str "Q3 report (final)") (str ".PDF"));
    reflexivity.
Defined.

(** X22.  The simulated progress of an export: from a value between 0 and 90
    a tick never lowers it and never passes 90, raises it while it is below
    90, and 26 ticks bring it to 90, where it stays.  From 0, where an export
    starts, it is at 89 after 24 ticks and at 90 after 25. *)
Theorem exportProgress_reaches_90 (prev : Z) :
  0 <= prev <= 90 ->
  prev <= Client.exportProgressTick prev <= 90
  /\ (prev < 90 -> prev < Client.exportProgressTick prev)
  /\ (forall n, (26 <= n)%nat -> Nat.iter n Client.exportProgressTick prev = 90)
  /\ Nat.iter 24 Client.exportProgressTick 0 = 89
  /\ Nat.iter 25 Client.exportProgressTick 0 = 90.
Proof.
  intros Hp.
  assert (Htick : forall p, 0 <= p <= 90 ->
                    p <= Client.exportProgressTick p <= 90
                    /\ (p < 90 -> p < Client.exportProgressTick p)).
  { intros p Hr. unfold Client.exportProgressTick. cbv zeta.
    destruct (p <? 50) eqn:E1; [| destruct (p <? 80) eqn:E2]; lia. }
  split; [apply Htick, Hp |]. split; [apply Htick, Hp |].
  split; [| split; vm_compute; reflexivity].
  assert (H26 : Nat.iter 26 Client.exportProgressTick prev = 90).
  { assert (Hall : forallb (fun q => Nat.iter 26 Client.exportProgressTick (Z.of_nat q) =? 90)
                           (seq 0 91) = true) by (vm_compute; reflexivity).
    rewrite forallb_forall in Hall.
    specialize (Hall (Z.to_nat prev)). rewrite Z2Nat.id in Hall by lia.
    apply Z.eqb_eq, Hall, in_seq. lia. }
  intros n Hn. replace n with ((n - 26) + 26)%nat by lia.
  rewrite Nat.iter_add, H26. clear.
  induction (n - 26)%nat as [| k IH]; [reflexivity |].
  simpl. rewrite IH. reflexivity.
Qed.

Lemma exportProgress_reaches_90_witness :
  Nat.iter 30 Client.exportProgressTick 2 = 90.
Proof.
  refine (proj1 (proj2 (proj2 (exportProgress_reaches_90 2 _))) 30%nat _); lia.
Defined.
